(** * Helios-Starling client (starlingjs)

    A shallow embedding of the client's send buffer, request registry,
    method registry, inbound notification routing, reconnection scheduler and
    state manager, followed by the properties established about them.

    Conventions of the embedding.
    - A JavaScript object that is mutated in place is a record threaded
      through the functions that touch it (explicit state passing).
    - Everything the code reads from its environment ([Date.now()],
      [crypto.randomUUID()], the outcome of a socket write or of a connection
      attempt) is an argument of the embedded function.
    - A [throw] is a value: a [Result] where the call changes nothing
      before it throws, the exception beside the state otherwise.
    - Calls on the event emitters are appended to a log, oldest first.
    - The readings of the clock within one synchronous call are taken to be
      equal. *)

From Stdlib Require Import List String Ascii Bool Arith ZArith QArith Qminmax Lia.
From Stdlib Require Import Strings.Byte.
From Stdlib Require DecimalString.
Import ListNotations.
Local Open Scope string_scope.
Local Open Scope nat_scope.

Set Warnings "-register-all".

(** ** Exceptions *)

(** What a [throw] carries: [new Error(message)], or the TypeError that the
    engine raises on a call of [null] or a property read of [undefined]. *)
Inductive Thrown : Type :=
| Error (message : string)
| TypeError.

(** The outcome of a call that may throw. *)
Inductive Result (A : Type) : Type :=
| Ok (a : A)
| Throw (e : Thrown).

Arguments Ok {A} a.
Arguments Throw {A} e.

(** ** JavaScript values *)

(** Values as [JSON.parse] and object literals build them.  [JNum q] is the
    number whose value is [q]. *)
Inductive JsVal : Type :=
| JUndefined
| JNull
| JBool (b : bool)
| JNum (q : Q)
| JStr (s : string)
| JArr (items : list JsVal)
| JObj (props : list (string * JsVal)).

(** ToBoolean. *)
Definition truthy (v : JsVal) : bool :=
  match v with
  | JUndefined | JNull => false
  | JBool b => b
  | JNum q => negb (Qeq_bool q 0)
  | JStr s => negb (String.eqb s EmptyString)
  | JArr _ | JObj _ => true
  end.

Fixpoint lookupProp (k : string) (props : list (string * JsVal)) : JsVal :=
  match props with
  | [] => JUndefined
  | (k', v) :: rest => if String.eqb k k' then v else lookupProp k rest
  end.

(** [v.k] for a key that no prototype defines: reading a property of
    [undefined] or [null] throws a TypeError; a missing property and a
    property of a primitive or an array read as [undefined]. *)
Definition getProp (v : JsVal) (k : string) : Result JsVal :=
  match v with
  | JUndefined | JNull => Throw TypeError
  | JObj props => Ok (lookupProp k props)
  | _ => Ok JUndefined
  end.

(** [v === "s"]. *)
Definition strictEqStr (v : JsVal) (s : string) : bool :=
  match v with
  | JStr s' => String.eqb s' s
  | _ => false
  end.

(** Decimal rendering of an integer inside a template literal. *)
Definition showZ (z : Z) : string :=
  DecimalString.NilZero.string_of_int (Z.to_int z).

(** ** JavaScript [Map]: insertion-ordered, one entry per key *)

Definition JsMap (V : Type) : Type := list (string * V).

Fixpoint Map_get {V} (m : JsMap V) (k : string) : option V :=
  match m with
  | [] => None
  | (k', v) :: rest => if String.eqb k k' then Some v else Map_get rest k
  end.

Definition Map_has {V} (m : JsMap V) (k : string) : bool :=
  match Map_get m k with Some _ => true | None => false end.

(** [set] keeps the position of an existing key and appends a new one. *)
Fixpoint Map_set {V} (m : JsMap V) (k : string) (v : V) : JsMap V :=
  match m with
  | [] => [(k, v)]
  | (k', v') :: rest =>
      if String.eqb k k' then (k', v) :: rest else (k', v') :: Map_set rest k v
  end.

Definition Map_delete {V} (m : JsMap V) (k : string) : JsMap V :=
  filter (fun e => negb (String.eqb k (fst e))) m.

Definition Map_values {V} (m : JsMap V) : list V := map snd m.

Definition Map_clear {V} (m : JsMap V) : JsMap V := [].

(** ** Numbers of the reconnection scheduler

    Delays are JavaScript numbers combined with [*], [Math.min] and [/].
    The scheduler is embedded over any carrier with these operations, so what
    is proved of it holds for IEEE doubles as for the rationals used in the
    examples. *)
Class JsNumber (num : Type) : Type := {
  num_zero : num;
  num_of_Z : Z -> num;
  num_mul : num -> num -> num;
  num_div : num -> num -> num;
  num_min : num -> num -> num
}.

#[export] Instance Q_JsNumber : JsNumber Q := {
  num_zero := 0%Q;
  num_of_Z := inject_Z;
  num_mul := Qmult;
  num_div := Qdiv;
  num_min := Qmin
}.

(** ** The client object and what it owns *)

(** What [send] hands to the socket: a string, an [ArrayBuffer], or the
    string [JSON.stringify v], kept as [v]. *)
Inductive Content : Type :=
| CText (s : string)
| CBinary (b : list byte)
| CJson (v : JsVal).

Inductive ReadyState : Type := CONNECTING | OPEN | CLOSING | CLOSED.

(** The host's WebSocket.  [wire] lists what [send] has written, oldest
    first.  [sendThrows] scripts the coming calls of [send]: [true] makes the
    call throw; once the script is used up every call succeeds. *)
Record WebSocket : Type := mkWebSocket {
  readyState : ReadyState;
  wire : list Content;
  sendThrows : list bool
}.

(** [ws.send(content)]; the boolean is [false] when the call throws. *)
Definition ws_send (w : WebSocket) (c : Content) : WebSocket * bool :=
  match sendThrows w with
  | true :: script => (mkWebSocket (readyState w) (wire w) script, false)
  | false :: script => (mkWebSocket (readyState w) (wire w ++ [c]) script, true)
  | [] => (mkWebSocket (readyState w) (wire w ++ [c]) [], true)
  end.

Record BufferedMessage : Type := mkBufferedMessage {
  content : Content;
  timestamp : Z;
  attempts : nat
}.

Record MessageBuffer : Type := mkMessageBuffer {
  messages : list BufferedMessage;
  maxSize : nat
}.

Record RequestOptions : Type := mkRequestOptions {
  timeout : Z;
  retry : bool
}.

(** A [Request].  [createdAt] is the field [timestamp] of the source, and
    [armed] abbreviates the three fields that [execute] sets together:
    [resolve], [reject] and [timeoutId]. *)
Record Request : Type := mkRequest {
  id : string;
  method : string;
  payload : JsVal;
  options : RequestOptions;
  createdAt : Z;
  armed : bool
}.

Record RequestsManager : Type := mkRequestsManager {
  pending : JsMap Request
}.

(** A registered method; the handler is a function of the application, kept
    as an opaque reference. *)
Record Method : Type := mkMethod {
  name : string;
  handler : nat;
  methodTimeout : Z
}.

Record MethodsManager : Type := mkMethodsManager {
  methods : JsMap Method;
  reservedNames : list string
}.

(** Emissions on [starling.events]. *)
Inductive BusEvent : Type :=
| BufferFull
| BufferAdded (size : nat)
| BufferFlushed (sent remaining : nat)
| BufferCleared (cleared : nat)
| MethodAdded (name : string)
| MessageReceived (type : string)
| StarlingOpen.

(** Emissions on [starling.hooks]. *)
Inductive HookEvent : Type :=
| HookNotification (notification : JsVal)
| HookJson (message : JsVal)
| HookText (message : string).

(** A call of a request's [resolve] or [reject]. *)
Inductive Settlement : Type :=
| Resolve (data : JsVal)
| Reject (error : JsVal).

(** The [Starling] instance with its managers.  [topics] lists the calls of
    [topics.emit(topic, data)], [settled] the calls of the resolvers of the
    requests' promises tagged with the request's id, [timers] the request
    timeouts that [setTimeout] has scheduled and that were neither cleared
    nor fired, and [invoked] the calls of [Method.execute] with the name of
    the method and the [requestId] of its context. *)
Record Starling : Type := mkStarling {
  ws : option WebSocket;
  messageBuffer : MessageBuffer;
  requests : RequestsManager;
  methodsManager : MethodsManager;
  recoveryToken : JsVal;
  events : list BusEvent;
  topics : list (JsVal * JsVal);
  hooks : list HookEvent;
  settled : list (string * Settlement);
  timers : list Request;
  invoked : list (string * string)
}.

Definition set_ws (w : option WebSocket) (s : Starling) : Starling :=
  mkStarling w (messageBuffer s) (requests s) (methodsManager s)
    (recoveryToken s) (events s) (topics s) (hooks s) (settled s) (timers s) (invoked s).

Definition set_messages (ms : list BufferedMessage) (s : Starling) : Starling :=
  mkStarling (ws s) (mkMessageBuffer ms (maxSize (messageBuffer s)))
    (requests s) (methodsManager s) (recoveryToken s) (events s) (topics s)
    (hooks s) (settled s) (timers s) (invoked s).

Definition set_pending (p : JsMap Request) (s : Starling) : Starling :=
  mkStarling (ws s) (messageBuffer s) (mkRequestsManager p) (methodsManager s)
    (recoveryToken s) (events s) (topics s) (hooks s) (settled s) (timers s) (invoked s).

Definition set_methods (m : JsMap Method) (s : Starling) : Starling :=
  mkStarling (ws s) (messageBuffer s) (requests s)
    (mkMethodsManager m (reservedNames (methodsManager s)))
    (recoveryToken s) (events s) (topics s) (hooks s) (settled s) (timers s) (invoked s).

Definition set_recoveryToken (t : JsVal) (s : Starling) : Starling :=
  mkStarling (ws s) (messageBuffer s) (requests s) (methodsManager s)
    t (events s) (topics s) (hooks s) (settled s) (timers s) (invoked s).

Definition set_timers (t : list Request) (s : Starling) : Starling :=
  mkStarling (ws s) (messageBuffer s) (requests s) (methodsManager s)
    (recoveryToken s) (events s) (topics s) (hooks s) (settled s) t (invoked s).

(** [events.emit]. *)
Definition emit (e : BusEvent) (s : Starling) : Starling :=
  mkStarling (ws s) (messageBuffer s) (requests s) (methodsManager s)
    (recoveryToken s) (events s ++ [e]) (topics s) (hooks s) (settled s)
    (timers s) (invoked s).

Definition topics_emit (topic data : JsVal) (s : Starling) : Starling :=
  mkStarling (ws s) (messageBuffer s) (requests s) (methodsManager s)
    (recoveryToken s) (events s) (topics s ++ [(topic, data)]) (hooks s)
    (settled s) (timers s) (invoked s).

Definition hooks_emit (h : HookEvent) (s : Starling) : Starling :=
  mkStarling (ws s) (messageBuffer s) (requests s) (methodsManager s)
    (recoveryToken s) (events s) (topics s) (hooks s ++ [h]) (settled s)
    (timers s) (invoked s).

Definition invoke (name requestId : string) (s : Starling) : Starling :=
  mkStarling (ws s) (messageBuffer s) (requests s) (methodsManager s)
    (recoveryToken s) (events s) (topics s) (hooks s) (settled s) (timers s)
    (invoked s ++ [(name, requestId)]).

(** A call of [resolve] or [reject] of the request [rid]. *)
Definition settle (rid : string) (o : Settlement) (s : Starling) : Starling :=
  mkStarling (ws s) (messageBuffer s) (requests s) (methodsManager s)
    (recoveryToken s) (events s) (topics s) (hooks s) (settled s ++ [(rid, o)])
    (timers s) (invoked s).

(** [new Starling(url)], with the buffer capacity as the constructor of
    [MessageBuffer] fixes it. *)
Definition Starling_new : Starling :=
  mkStarling None (mkMessageBuffer [] 1000) (mkRequestsManager [])
    (mkMethodsManager [] ["system"; "internal"; "stream"; "helios"])
    JNull [] [] [] [] [] [].

(** [get connected]: [this.ws?.readyState === WebSocket.OPEN]. *)
Definition connected (s : Starling) : bool :=
  match ws s with
  | Some w => match readyState w with OPEN => true | _ => false end
  | None => false
  end.

(** ** MessageBuffer *)

Definition isFull (b : MessageBuffer) : bool :=
  maxSize b <=? List.length (messages b).

(** [Array.prototype.shift]: drops the first element, nothing when empty. *)
Definition shift {A} (l : list A) : list A := tl l.

(** [MessageBuffer.add(message)], with [now] the value of [Date.now()];
    returns the returned boolean and the updated client. *)
Definition MessageBuffer_add (now : Z) (message : Content) (s : Starling)
  : bool * Starling :=
  let s1 :=
    if isFull (messageBuffer s)
    then set_messages (shift (messages (messageBuffer s))) (emit BufferFull s)
    else s in
  let s2 :=
    set_messages
      (messages (messageBuffer s1) ++ [mkBufferedMessage message now 0]) s1 in
  (true, emit (BufferAdded (List.length (messages (messageBuffer s2)))) s2).

(** The loop of [flush]: every message is handed to [ws.send]; the ones
    whose write threw are collected in [remaining], the others counted in
    [sent].  The increment of [attempts] falls on messages that then leave
    the buffer and is not kept. *)
Fixpoint flush_loop (w : WebSocket) (ms remaining : list BufferedMessage)
  (sent : nat) : WebSocket * list BufferedMessage * nat :=
  match ms with
  | [] => (w, remaining, sent)
  | m :: rest =>
      let (w', ok) := ws_send w (content m) in
      if ok then flush_loop w' rest remaining (S sent)
      else flush_loop w' rest (remaining ++ [m]) sent
  end.

(** [MessageBuffer.flush()]. *)
Definition MessageBuffer_flush (s : Starling) : Starling :=
  if negb (connected s) then s
  else
    match ws s with
    | None => s
    | Some w =>
        let '(w', remaining, sent) :=
          flush_loop w (messages (messageBuffer s)) [] 0 in
        let s1 := set_messages remaining (set_ws (Some w') s) in
        if 0 <? sent
        then emit (BufferFlushed sent (List.length remaining)) s1
        else s1
    end.

(** [MessageBuffer.clear()]. *)
Definition MessageBuffer_clear (s : Starling) : Starling :=
  let size := List.length (messages (messageBuffer s)) in
  let s1 := set_messages [] s in
  if 0 <? size then emit (BufferCleared size) s1 else s1.

(** ** Starling: the send path *)

(** [Starling.send(message)]. *)
Definition Starling_send (now : Z) (message : Content) (s : Starling)
  : bool * Starling :=
  if negb (connected s) then MessageBuffer_add now message s
  else
    match ws s with
    | None => MessageBuffer_add now message s
    | Some w =>
        let (w', ok) := ws_send w message in
        if ok then (true, set_ws (Some w') s)
        else MessageBuffer_add now message (set_ws (Some w') s)
    end.

(** [Starling.json(message)]; the values of this embedding always
    serialise, so the [catch] branch is never taken. *)
Definition Starling_json (now : Z) (message : JsVal) (s : Starling)
  : bool * Starling :=
  Starling_send now (CJson message) s.

(** Object spread [{...a, ...b}] on property lists. *)
Fixpoint setProp (k : string) (v : JsVal) (props : list (string * JsVal))
  : list (string * JsVal) :=
  match props with
  | [] => [(k, v)]
  | (k', v') :: rest =>
      if String.eqb k k' then (k', v) :: rest else (k', v') :: setProp k v rest
  end.

Definition spread (a b : list (string * JsVal)) : list (string * JsVal) :=
  fold_left (fun acc kv => setProp (fst kv) (snd kv) acc) b a.

(** [createStandardMessage(type, data)]. *)
Definition createStandardMessage (now : Z) (type : string)
  (data : list (string * JsVal)) : JsVal :=
  JObj (spread [("protocol", JStr "helios-starling");
                ("version", JStr "1.0.0");
                ("timestamp", JNum (inject_Z now));
                ("type", JStr type)] data).

(** [Starling.standard(type, data)]. *)
Definition Starling_standard (now : Z) (type : string)
  (data : list (string * JsVal)) (s : Starling) : bool * Starling :=
  Starling_json now (createStandardMessage now type data) s.

(** The socket's [onopen] handler installed by [connect], run when the
    socket [w] that [connect] created has reached [OPEN]: the event is
    emitted and the buffer flushed. *)
Definition Starling_onopen (w : WebSocket) (s : Starling) : Starling :=
  MessageBuffer_flush
    (emit StarlingOpen
       (set_ws (Some (mkWebSocket OPEN (wire w) (sendThrows w))) s)).

(** ** Runs of the send path *)

(** Frames handed to the buffer one after the other, each with the clock
    value at its call. *)
Fixpoint add_all (frames : list (Z * Content)) (s : Starling) : Starling :=
  match frames with
  | [] => s
  | (now, m) :: rest => add_all rest (snd (MessageBuffer_add now m s))
  end.

(** The same through [Starling.send]. *)
Fixpoint send_all (frames : list (Z * Content)) (s : Starling) : Starling :=
  match frames with
  | [] => s
  | (now, m) :: rest => send_all rest (snd (Starling_send now m s))
  end.

(** The entry that [add] builds for a frame. *)
Definition buffered (f : Z * Content) : BufferedMessage :=
  mkBufferedMessage (snd f) (fst f) 0.

(** What can happen to the client as far as its buffer is concerned: the
    calls of the buffer and of [send], the socket opening, and the host
    replacing or changing the socket. *)
Inductive BufferOp : Type :=
| OpAdd (now : Z) (m : Content)
| OpSend (now : Z) (m : Content)
| OpFlush
| OpClear
| OpOpen (w : WebSocket)
| OpSocket (w : option WebSocket).

Definition run_op (o : BufferOp) (s : Starling) : Starling :=
  match o with
  | OpAdd now m => snd (MessageBuffer_add now m s)
  | OpSend now m => snd (Starling_send now m s)
  | OpFlush => MessageBuffer_flush s
  | OpClear => MessageBuffer_clear s
  | OpOpen w => Starling_onopen w s
  | OpSocket w => set_ws w s
  end.

Definition run_ops (ops : list BufferOp) (s : Starling) : Starling :=
  fold_left (fun acc o => run_op o acc) ops s.

Definition is_BufferFull (e : BusEvent) : bool :=
  match e with BufferFull => true | _ => false end.

(** The invariant of the buffer: within its capacity. *)
Definition within_capacity (C : nat) (s : Starling) : Prop :=
  maxSize (messageBuffer s) = C /\
  List.length (messages (messageBuffer s)) <= C.

(** ** Requests *)

(** The [options] argument of a request: each field may be absent. *)
Record RequestOptionsArg : Type := mkRequestOptionsArg {
  arg_timeout : option Z;
  arg_retry : option bool
}.

(** [{timeout: 30000, retry: true, ...options}]. *)
Definition mergeRequestOptions (o : RequestOptionsArg) : RequestOptions :=
  mkRequestOptions
    (match arg_timeout o with Some t => t | None => 30000%Z end)
    (match arg_retry o with Some r => r | None => true end).

(** [new Request(starling, method, payload, options)], with [uuid] the value
    of [crypto.randomUUID()] and [now] that of [Date.now()]. *)
Definition Request_new (uuid : string) (now : Z) (method : string)
  (payload : JsVal) (o : RequestOptionsArg) : Request :=
  mkRequest uuid method payload (mergeRequestOptions o) now false.

(** [RequestsManager.create]. *)
Definition RequestsManager_create (uuid : string) (now : Z) (method : string)
  (payload : JsVal) (o : RequestOptionsArg) (s : Starling)
  : Request * Starling :=
  let request := Request_new uuid now method payload o in
  (request, set_pending (Map_set (pending (requests s)) (id request) request) s).

(** [RequestsManager.get]. *)
Definition RequestsManager_get (rid : string) (s : Starling) : option Request :=
  Map_get (pending (requests s)) rid.

(** [RequestsManager.remove]. *)
Definition RequestsManager_remove (request : Request) (s : Starling) : Starling :=
  set_pending (Map_delete (pending (requests s)) (id request)) s.

(** [clearTimeout(this.timeoutId)]: the timeout of this request is no
    longer scheduled. *)
Definition clearTimeout (request : Request) (s : Starling) : Starling :=
  set_timers
    (filter (fun t => negb (String.eqb (id request) (id t))) (timers s)) s.

Definition optionsToJs (o : RequestOptions) : JsVal :=
  JObj [("timeout", JNum (inject_Z (timeout o))); ("retry", JBool (retry o))].

(** [Request.execute()]: stores the resolvers, schedules the timeout and
    sends the request frame.  The request is an object shared with the
    pending table, so the entry stored under its id sees the update. *)
Definition Request_execute (now : Z) (request : Request) (s : Starling)
  : Starling :=
  let request' :=
    mkRequest (id request) (method request) (payload request)
      (options request) (createdAt request) true in
  let table := pending (requests s) in
  let s1 :=
    if Map_has table (id request)
    then set_pending (Map_set table (id request) request') s
    else s in
  let s2 := set_timers (timers s1 ++ [request']) s1 in
  snd (Starling_standard now "request"
         [("requestId", JStr (id request));
          ("method", JStr (method request));
          ("payload", payload request);
          ("options", optionsToJs (options request))] s2).

(** [Starling.request(method, payload, options)]. *)
Definition Starling_request (uuid : string) (now : Z) (method : string)
  (payload : JsVal) (o : RequestOptionsArg) (s : Starling) : Starling :=
  let (request, s1) := RequestsManager_create uuid now method payload o s in
  Request_execute now request s1.

(** A validated response frame. *)
Record Response : Type := mkResponse {
  requestId : string;
  success : bool;
  data : JsVal;
  error : JsVal
}.

(** A call that mutates the client and may throw yields the client as the
    call leaves it and the exception, if any. *)
Definition Exec : Type := Starling * option Thrown.

(** [Request.handleResponse(response)]; calling a resolver that [execute]
    has not stored yet throws a TypeError. *)
Definition Request_handleResponse (request : Request) (response : Response)
  (s : Starling) : Exec :=
  let s1 := clearTimeout request s in
  if armed request then
    if success response
    then (settle (id request) (Resolve (data response)) s1, None)
    else (settle (id request) (Reject (error response)) s1, None)
  else (s1, Some TypeError).

(** [RequestsManager.handleResponse(response)]. *)
Definition RequestsManager_handleResponse (response : Response) (s : Starling)
  : Exec :=
  match Map_get (pending (requests s)) (requestId response) with
  | Some request =>
      match Request_handleResponse request response s with
      | (s1, None) => (RequestsManager_remove request s1, None)
      | (s1, Some e) => (s1, Some e)
      end
  | None => (s, None)
  end.

Definition timeoutError (request : Request) : JsVal :=
  JObj [("code", JStr "REQUEST_TIMEOUT");
        ("message",
         JStr ("Request to method " ++ method request ++ " timed out after "
               ++ showZ (timeout (options request)) ++ "ms"))].

(** [Request.handleTimeout()], the callback of the request's timer. *)
Definition Request_handleTimeout (request : Request) (s : Starling) : Starling :=
  RequestsManager_remove request
    (settle (id request) (Reject (timeoutError request)) s).

(** The timer scheduled for the request [rid] expires: it leaves the
    scheduler and its callback runs.  A timer that is not scheduled (never
    set, cleared or already fired) does nothing. *)
Definition timer_fires (rid : string) (s : Starling) : Starling :=
  match find (fun t => String.eqb rid (id t)) (timers s) with
  | Some request =>
      Request_handleTimeout request
        (set_timers
           (filter (fun t => negb (String.eqb rid (id t))) (timers s)) s)
  | None => s
  end.

Definition cancelError (reason : string) : JsVal :=
  JObj [("code", JStr "REQUEST_CANCELLED"); ("message", JStr reason)].

(** [Request.cancel(reason)]. *)
Definition Request_cancel (reason : string) (request : Request) (s : Starling)
  : Exec :=
  let s1 := clearTimeout request s in
  if armed request
  then (RequestsManager_remove request
          (settle (id request) (Reject (cancelError reason)) s1), None)
  else (s1, Some TypeError).

(** The loop of [cancelAll] over the requests of the table, in insertion
    order. *)
Fixpoint cancel_each (reason : string) (rs : list Request) (s : Starling)
  : Exec :=
  match rs with
  | [] => (s, None)
  | request :: rest =>
      match Request_cancel reason request s with
      | (s1, None) => cancel_each reason rest s1
      | (s1, Some e) => (s1, Some e)
      end
  end.

(** [RequestsManager.cancelAll(reason)]. *)
Definition RequestsManager_cancelAll (reason : string) (s : Starling) : Exec :=
  match cancel_each reason (Map_values (pending (requests s))) s with
  | (s1, None) => (set_pending (Map_clear (pending (requests s1))) s1, None)
  | (s1, Some e) => (s1, Some e)
  end.

(** ** Method registry *)

(** A method name is a string of code units below 256, one per character
    of the embedding's [string]; [name.length] is then [String.length]. *)

Definition is_alpha (c : ascii) : bool :=
  let n := nat_of_ascii c in
  ((65 <=? n) && (n <=? 90)) || ((97 <=? n) && (n <=? 122)).

Definition is_digit (c : ascii) : bool :=
  let n := nat_of_ascii c in (48 <=? n) && (n <=? 57).

(** The class [\w]. *)
Definition is_word (c : ascii) : bool :=
  is_alpha c || is_digit c || Ascii.eqb c "_".

Fixpoint string_forallb (p : ascii -> bool) (s : string) : bool :=
  match s with
  | EmptyString => true
  | String c rest => p c && string_forallb p rest
  end.

(** [/^[a-zA-Z][\w:]*$/.test(name)]. *)
Definition methodNamePattern (name : string) : bool :=
  match name with
  | EmptyString => false
  | String c rest =>
      is_alpha c && string_forallb (fun c => is_word c || Ascii.eqb c ":") rest
  end.

(** [s.split(sep)] for a one-character separator. *)
Fixpoint split (sep : ascii) (s : string) : list string :=
  match s with
  | EmptyString => [EmptyString]
  | String c rest =>
      if Ascii.eqb c sep then EmptyString :: split sep rest
      else
        match split sep rest with
        | [] => [String c EmptyString]
        | segment :: segments => String c segment :: segments
        end
  end.

(** [name.split(':')[0]]. *)
Definition namespaceOf (name : string) : string :=
  hd EmptyString (split ":" name).

(** [Set.prototype.has] on a set of strings. *)
Definition Set_has (set : list string) (x : string) : bool :=
  existsb (String.eqb x) set.

(** The double-quote character of the messages below. *)
Definition dquote : string := String "034" EmptyString.

Definition existsMessage (name : string) : string :=
  "Method " ++ dquote ++ name ++ dquote ++ " already exists".

(** The message of the reserved-namespace error. *)
Definition reservedMessage (namespace : string) : string :=
  "Namespace " ++ dquote ++ namespace ++ dquote ++ " is reserved".

(** The message of the error thrown for a name that fails the pattern. *)
Definition patternMessage : string :=
  "Method name must start with a letter and contain only letters, numbers, underscores and colons".

(** [MethodsManager.validateMethodName(name)].  The argument is any value;
    a normal return yields the name, then known to be a string. *)
Definition validateMethodName (name : JsVal) (s : Starling) : Result string :=
  match name with
  | JStr n =>
      if negb (truthy name)
      then Throw (Error "Method name must be a non-empty string")
      else if String.length n <? 3
      then Throw (Error "Method name must be at least 3 characters long")
      else if negb (methodNamePattern n)
      then Throw (Error patternMessage)
      else if Map_has (methods (methodsManager s)) n
      then Throw (Error (existsMessage n))
      else
        let namespace := namespaceOf n in
        if Set_has (reservedNames (methodsManager s)) namespace
        then Throw (Error (reservedMessage namespace))
        else Ok n
  | _ => Throw (Error "Method name must be a non-empty string")
  end.

(** [{timeout: 30000, ...options}] of [new Method]. *)
Definition mergeMethodOptions (o : option Z) : Z :=
  match o with Some t => t | None => 30000%Z end.

(** [MethodsManager.add(name, handler, options)]. *)
Definition MethodsManager_add (name : JsVal) (handler : nat) (o : option Z)
  (s : Starling) : Result Starling :=
  match validateMethodName name s with
  | Throw e => Throw e
  | Ok n =>
      let method := mkMethod n handler (mergeMethodOptions o) in
      Ok (emit (MethodAdded n)
            (set_methods (Map_set (methods (methodsManager s)) n method) s))
  end.

(** [MethodsManager.get(name)]. *)
Definition MethodsManager_get (name : string) (s : Starling) : option Method :=
  Map_get (methods (methodsManager s)) name.

(** [Starling.method(name, handler, options)]. *)
Definition Starling_method (name : JsVal) (handler : nat) (o : option Z)
  (s : Starling) : Result Starling :=
  MethodsManager_add name handler o s.

(** A sequence of registration calls; a call that throws leaves the client
    as it was. *)
Fixpoint register_all (calls : list (JsVal * nat * option Z)) (s : Starling)
  : Starling :=
  match calls with
  | [] => s
  | (name, handler, o) :: rest =>
      match Starling_method name handler o s with
      | Ok s1 => register_all rest s1
      | Throw _ => register_all rest s
      end
  end.

(** The namespaces that the constructor of [MethodsManager] reserves. *)
Definition reservedNamespaces : list string :=
  ["system"; "internal"; "stream"; "helios"].

(** The invariant of the method registry: the reserved set is the
    constructor's and no registered name lies in a reserved namespace. *)
Definition registry_inv (s : Starling) : Prop :=
  reservedNames (methodsManager s) = reservedNamespaces /\
  forall n, Map_has (methods (methodsManager s)) n = true ->
            Set_has reservedNamespaces (namespaceOf n) = false.

(** ** Inbound frames *)

(** A frame that [StandardMessageSchema.safeParse] has accepted. *)
Inductive ValidMessage : Type :=
| MRequest (requestId method : string) (payload : JsVal) (timestamp : Z)
| MResponse (response : Response)
| MNotification (notification : JsVal)
| MError (error : JsVal).

Definition messageType (m : ValidMessage) : string :=
  match m with
  | MRequest _ _ _ _ => "request"
  | MResponse _ => "response"
  | MNotification _ => "notification"
  | MError _ => "error"
  end.

(** [Starling.handleNotification(notification)].  What the emitters do
    with an emission (listeners, middleware) is outside the embedding. *)
Definition Starling_handleNotification (notification : JsVal) (s : Starling)
  : Exec :=
  match getProp notification "type" with
  | Throw e => (s, Some e)
  | Ok type =>
      if strictEqStr type "starling:token" then
        match getProp notification "data" with
        | Throw e => (s, Some e)
        | Ok data =>
            match getProp data "token" with
            | Throw e => (s, Some e)
            | Ok token => (set_recoveryToken token s, None)
            end
        end
      else
        match getProp notification "topic", getProp notification "data" with
        | Ok topic, Ok data =>
            if truthy topic && truthy data
            then (topics_emit topic data s, None)
            else (hooks_emit (HookNotification notification) s, None)
        | Throw e, _ => (s, Some e)
        | _, Throw e => (s, Some e)
        end
  end.

(** [Starling.handleJsonMessage(message)] from the point where the schema
    has accepted the message. *)
Definition Starling_handleJsonMessage (now : Z) (m : ValidMessage)
  (s : Starling) : Exec :=
  let s1 := emit (MessageReceived (messageType m)) s in
  match m with
  | MRequest requestId method payload timestamp =>
      match MethodsManager_get method s1 with
      | None =>
          (snd (Starling_standard now "error"
                  [("requestId", JStr requestId);
                   ("error",
                    JObj [("code", JStr "METHOD_NOT_FOUND");
                          ("message",
                           JStr ("Method " ++ dquote ++ method ++ dquote
                                 ++ " not found"))])] s1), None)
      | Some _ => (invoke method requestId s1, None)
      end
  | MResponse response => RequestsManager_handleResponse response s1
  | MNotification notification => Starling_handleNotification notification s1
  | MError _ => (s1, None)
  end.

(** ** Runs of the client *)

(** What happens to a client: the application issues a request (with the
    UUID and the clock value drawn for it), a valid frame arrives, the timer
    of a request expires, all requests are cancelled, or the host changes
    the socket. *)
Inductive ClientEvent : Type :=
| EvRequest (uuid : string) (now : Z) (method : string) (payload : JsVal)
    (o : RequestOptionsArg)
| EvFrame (now : Z) (m : ValidMessage)
| EvTimeout (rid : string)
| EvCancelAll (reason : string)
| EvSocket (w : option WebSocket).

Definition client_step (e : ClientEvent) (s : Starling) : Exec :=
  match e with
  | EvRequest uuid now method payload o =>
      (Starling_request uuid now method payload o s, None)
  | EvFrame now m => Starling_handleJsonMessage now m s
  | EvTimeout rid => (timer_fires rid s, None)
  | EvCancelAll reason => RequestsManager_cancelAll reason s
  | EvSocket w => (set_ws w s, None)
  end.

(** An exception ends the handler that raised it, not the client: the run
    goes on from the client as that handler left it. *)
Fixpoint client_run (es : list ClientEvent) (s : Starling) : Starling :=
  match es with
  | [] => s
  | e :: rest => client_run rest (fst (client_step e s))
  end.

(** The UUIDs drawn during a run. *)
Fixpoint uuids (es : list ClientEvent) : list string :=
  match es with
  | [] => []
  | EvRequest uuid _ _ _ _ :: rest => uuid :: uuids rest
  | _ :: rest => uuids rest
  end.

(** The calls of the resolvers of the request [rid], oldest first. *)
Definition settlements_of (rid : string) (s : Starling) : list Settlement :=
  map snd (filter (fun e => String.eqb rid (fst e)) (settled s)).

(** ** Routing of notifications as the specification words it *)

(** Where a notification ends up. *)
Inductive Route : Type :=
| ToRequestStream (requestId : string)
| ToTopic (topic data : JsVal)
| ToHook
| NotDispatched
| Raised.

(** The routing of the specification: a [requestId] of a pending request
    first, then a topic, then the hook. *)
Definition spec_route (notification : JsVal) (s : Starling) : Route :=
  match notification with
  | JObj props =>
      match lookupProp "requestId" props with
      | JStr rid =>
          if Map_has (pending (requests s)) rid then ToRequestStream rid
          else if truthy (lookupProp "topic" props)
          then ToTopic (lookupProp "topic" props) (lookupProp "data" props)
          else ToHook
      | _ =>
          if truthy (lookupProp "topic" props)
          then ToTopic (lookupProp "topic" props) (lookupProp "data" props)
          else ToHook
      end
  | _ => ToHook
  end.

(** Where [handleJsonMessage] has delivered a notification, read off the
    client before and after the call.  The client has no stream per
    request, so [ToRequestStream] is never observed. *)
Definition observed_route (before : Starling) (after : Exec) : Route :=
  match after with
  | (_, Some _) => Raised
  | (s', None) =>
      match skipn (List.length (topics before)) (topics s'),
            skipn (List.length (hooks before)) (hooks s') with
      | [(topic, data)], [] => ToTopic topic data
      | [], [HookNotification _] => ToHook
      | _, _ => NotDispatched
      end
  end.

(** ** The invariant of the request registry

    [used] lists the UUIDs drawn so far.  The table has one entry per key,
    each entry is a request stored under its own id whose resolvers are set;
    a timer is scheduled only for a pending request, and one at most; no
    resolver of a pending request has been called, no request has seen more
    than one call, and every id in the table or in the log was drawn. *)
Record requests_inv (used : list string) (s : Starling) : Prop := {
  inv_keys : NoDup (map fst (pending (requests s)));
  inv_entries : forall k r,
    In (k, r) (pending (requests s)) -> id r = k /\ armed r = true;
  inv_timers : forall t,
    In t (timers s) -> Map_has (pending (requests s)) (id t) = true;
  inv_pending : forall rid,
    Map_has (pending (requests s)) rid = true -> settlements_of rid s = [];
  inv_once : forall rid, List.length (settlements_of rid s) <= 1;
  inv_used_pending : forall rid,
    Map_has (pending (requests s)) rid = true -> In rid used;
  inv_used_settled : forall rid,
    settlements_of rid s <> [] -> In rid used;
  inv_timer_ids : NoDup (map (@id) (timers s))
}.

(** The terminal transition that a response, a timeout and a cancellation
    share: the timer is cleared, a resolver is called, the request leaves
    the table. *)
Definition terminate (request : Request) (o : Settlement) (s : Starling)
  : Starling :=
  RequestsManager_remove request (settle (id request) o (clearTimeout request s)).

(** Two clients with the same request table, timers and resolver log. *)
Definition same_registry (s s' : Starling) : Prop :=
  requests s' = requests s /\ timers s' = timers s /\ settled s' = settled s.

(** ** ReconnectionManager (managers/reconnection.js)

    The manager of the reconnecting client.  The embedding keeps [debug]
    off, its default, so [_debug] emits nothing; it follows one scheduling
    loop at a time, from its start to the point where it ends or where the
    script of the environment runs out. *)
Module ReconnectionManager.
Section WithNumbers.

Context {num : Type} {N : JsNumber num}.

(** [maxAttempts] is a count or [Infinity] ([None]). *)
Record Options : Type := mkOptions {
  minDelay : num;
  maxDelay : num;
  maxAttempts : option nat;
  backoffMultiplier : num;
  resetThreshold : Z
}.

(** Modelled from the spec: [TimeConstants.RECONNECT_MIN_DELAY] and
    [TimeConstants.RECONNECT_MAX_DELAY] come from a package outside the
    sources; the defaults are 100 ms and 30000 ms. *)
Definition defaultOptions : Options :=
  mkOptions (num_of_Z 100) (num_of_Z 30000) None
    (num_div (num_of_Z 3) (num_of_Z 2)) 60000.

Record Metrics : Type := mkMetrics {
  attempts : nat;
  totalAttempts : nat;
  successfulReconnections : nat;
  failedAttempts : nat;
  lastAttempt : option Z;
  lastSuccess : option Z;
  lastReset : Z;
  attemptDurations : list Z;
  currentDelay : num
}.

(** The object that [getMetrics] returns. *)
Record Snapshot : Type := mkSnapshot {
  snap_attempts : nat;
  snap_totalAttempts : nat;
  snap_successfulReconnections : nat;
  snap_failedAttempts : nat;
  snap_lastAttempt : option Z;
  snap_lastSuccess : option Z;
  snap_lastReset : Z;
  averageAttemptDuration : num;
  snap_currentDelay : num
}.

(** What the manager does to its environment: events on the bus of the
    client and the timer of a wait. *)
Inductive Effect : Type :=
| Scheduled (metrics : Snapshot)
| AttemptStarted (attempt : nat) (metrics : Snapshot)
| AttemptFailed (attempt : nat) (metrics : Snapshot)
| MaxAttemptsReached (metrics : Snapshot)
| SetTimeout (delay : num).

(** [timeoutId] and [currentAttempt] are kept as flags: the field holds
    a timer handle, an [AbortController], rather than [null]. *)
Record Manager : Type := mkManager {
  options : Options;
  metrics : Metrics;
  timeoutId : bool;
  active : bool;
  currentAttempt : bool;
  effects : list Effect
}.

Definition initialMetrics (o : Options) (now : Z) : Metrics :=
  mkMetrics 0 0 0 0 None None now [] (minDelay o).

(** [new ReconnectionManager(starling, options)] at clock [now]. *)
Definition new (o : Options) (now : Z) : Manager :=
  mkManager o (initialMetrics o now) false false false [].

Definition set_metrics (x : Metrics) (m : Manager) : Manager :=
  mkManager (options m) x (timeoutId m) (active m) (currentAttempt m)
    (effects m).

Definition set_timeoutId (b : bool) (m : Manager) : Manager :=
  mkManager (options m) (metrics m) b (active m) (currentAttempt m)
    (effects m).

Definition set_active (b : bool) (m : Manager) : Manager :=
  mkManager (options m) (metrics m) (timeoutId m) b (currentAttempt m)
    (effects m).

Definition set_currentAttempt (b : bool) (m : Manager) : Manager :=
  mkManager (options m) (metrics m) (timeoutId m) (active m) b (effects m).

Definition effect (e : Effect) (m : Manager) : Manager :=
  mkManager (options m) (metrics m) (timeoutId m) (active m)
    (currentAttempt m) (effects m ++ [e]).

(** [durations.reduce((a, b) => a + b, 0)]. *)
Definition sum (durations : list Z) : Z := fold_left Z.add durations 0%Z.

(** [getMetrics()]. *)
Definition getMetrics (m : Manager) : Snapshot :=
  let x := metrics m in
  let avgDuration :=
    if 0 <? List.length (attemptDurations x)
    then num_div (num_of_Z (sum (attemptDurations x)))
           (num_of_Z (Z.of_nat (List.length (attemptDurations x))))
    else num_zero in
  mkSnapshot (attempts x) (totalAttempts x) (successfulReconnections x)
    (failedAttempts x) (lastAttempt x) (lastSuccess x) (lastReset x)
    avgDuration (currentDelay x).

(** [stop()]. *)
Definition stop (m : Manager) : Manager :=
  set_currentAttempt false (set_timeoutId false (set_active false m)).

(** Truthiness of a timestamp that may be [null]. *)
Definition truthyTime (t : option Z) : bool :=
  match t with
  | Some z => negb (Z.eqb z 0)
  | None => false
  end.

(** The listener of [starling:connected] that [_bindEvents] installs. *)
Definition onConnected (now : Z) (m : Manager) : Manager :=
  let x := metrics m in
  let durations :=
    if truthyTime (lastAttempt x) then
      let duration :=
        (now - match lastAttempt x with Some t => t | None => 0 end)%Z in
      let pushed := (attemptDurations x ++ [duration])%list in
      if 10 <? List.length pushed then shift pushed else pushed
    else attemptDurations x in
  stop
    (set_metrics
       (mkMetrics (attempts x) (totalAttempts x)
          (S (successfulReconnections x)) (failedAttempts x) (lastAttempt x)
          (Some now) (lastReset x) durations (currentDelay x)) m).

(** [_resetIfNeeded()]. *)
Definition resetIfNeeded (now : Z) (m : Manager) : Manager :=
  let x := metrics m in
  if negb (Z.eqb (lastReset x) 0) &&
     (resetThreshold (options m) <=? now - lastReset x)%Z
  then
    set_metrics
      (mkMetrics 0 (totalAttempts x) (successfulReconnections x)
         (failedAttempts x) (lastAttempt x) (lastSuccess x) now
         (attemptDurations x) (minDelay (options m))) m
  else m.

(** [attempts >= maxAttempts]. *)
Definition reachedMax (m : Manager) : bool :=
  match maxAttempts (options m) with
  | Some cap => cap <=? attempts (metrics m)
  | None => false
  end.

Definition set_currentDelay (d : num) (m : Manager) : Manager :=
  let x := metrics m in
  set_metrics
    (mkMetrics (attempts x) (totalAttempts x) (successfulReconnections x)
       (failedAttempts x) (lastAttempt x) (lastSuccess x) (lastReset x)
       (attemptDurations x) d) m.

(** The delay that [_scheduleNextAttempt] computes. *)
Definition nextDelay (m : Manager) : num :=
  num_min (num_mul (currentDelay (metrics m)) (backoffMultiplier (options m)))
    (maxDelay (options m)).

(** [_scheduleNextAttempt()] up to its [await]: the boolean tells whether
    the loop now waits on the timer. *)
Definition schedule (m : Manager) : Manager * bool :=
  if negb (active m) then (m, false)
  else if reachedMax m
  then (stop (effect (MaxAttemptsReached (getMetrics m)) m), false)
  else
    let delay := nextDelay m in
    let m1 := set_currentDelay delay m in
    let m2 := effect (Scheduled (getMetrics m1)) m1 in
    (set_timeoutId true (effect (SetTimeout delay) m2), true).

(** How a connection attempt ends: [connect()] rejects; the socket opens
    and the listener of [starling:connected] runs at the given clock
    value (it stops the manager, which aborts the attempt); or [stop()] is
    called from outside. *)
Inductive AttemptOutcome : Type :=
| ConnectFailed
| ConnectedAt (now : Z)
| Aborted.

(** One turn of the loop as the environment decides it: [stop()] is called
    during the wait, whose timer is cleared so that the loop never resumes;
    or the wait elapses at clock [now] and the attempt ends as told. *)
Inductive Round : Type :=
| Stopped
| Attempt (now : Z) (outcome : AttemptOutcome).

(** The start of [_attemptReconnection()], up to its [await]. *)
Definition beginAttempt (now : Z) (m : Manager) : Manager :=
  let x := metrics m in
  let m1 :=
    set_metrics
      (mkMetrics (S (attempts x)) (S (totalAttempts x))
         (successfulReconnections x) (failedAttempts x) (Some now)
         (lastSuccess x) (lastReset x) (attemptDurations x) (currentDelay x))
      m in
  set_currentAttempt true
    (effect (AttemptStarted (attempts (metrics m1)) (getMetrics m1)) m1).

(** The [catch] branch of [_attemptReconnection()] for an error other
    than the abort. *)
Definition failAttempt (m : Manager) : Manager :=
  let x := metrics m in
  let m1 :=
    set_metrics
      (mkMetrics (attempts x) (totalAttempts x) (successfulReconnections x)
         (S (failedAttempts x)) (lastAttempt x) (lastSuccess x) (lastReset x)
         (attemptDurations x) (currentDelay x)) m in
  effect (AttemptFailed (attempts (metrics m1)) (getMetrics m1)) m1.

(** [_attemptReconnection()], entered when the wait has elapsed, together
    with the [_scheduleNextAttempt()] that its [catch] branch awaits.  The
    script lists the turns to come.  The boolean tells whether the call
    has returned; it has not when the loop is suspended on a wait whose
    outcome the script does not tell, or whose timer was cleared.  The
    [finally] block runs when the call returns. *)
Fixpoint attemptReconnection (script : list Round) (m : Manager)
  : Manager * bool :=
  if negb (active m) then (m, true)
  else
    match script with
    | Attempt now outcome :: rest =>
        let m1 := beginAttempt now m in
        match outcome with
        | Aborted => (set_currentAttempt false (stop m1), true)
        | ConnectedAt t => (set_currentAttempt false (onConnected t m1), true)
        | ConnectFailed =>
            let (m2, waiting) := schedule (failAttempt m1) in
            if waiting then
              match rest with
              | [] => (m2, false)
              | Stopped :: _ => (stop m2, false)
              | Attempt _ _ :: _ =>
                  let (m3, returned) := attemptReconnection rest m2 in
                  if returned then (set_currentAttempt false m3, true)
                  else (m3, false)
              end
            else (set_currentAttempt false m2, true)
        end
    | _ => (m, false)
    end.

(** [_scheduleNextAttempt()]. *)
Definition scheduleNextAttempt (script : list Round) (m : Manager)
  : Manager * bool :=
  let (m1, waiting) := schedule m in
  if waiting then
    match script with
    | [] => (m1, false)
    | Stopped :: _ => (stop m1, false)
    | Attempt _ _ :: _ => attemptReconnection script m1
    end
  else (m1, true).

(** [start()] at clock [now]. *)
Definition start (now : Z) (script : list Round) (m : Manager) : Manager :=
  if active m then m
  else fst (scheduleNextAttempt script (resetIfNeeded now (set_active true m))).

(** [forceAttempt()]. *)
Definition forceAttempt (script : list Round) (m : Manager) : Manager :=
  let m1 := if currentAttempt m then stop m else m in
  fst (attemptReconnection script (set_active true m1)).

(** [reset()] at clock [now]. *)
Definition reset (now : Z) (m : Manager) : Manager :=
  set_metrics (initialMetrics (options m) now) (stop m).

(** The calls and events that a manager sees. *)
Inductive Op : Type :=
| OpStart (now : Z) (script : list Round)
| OpStop
| OpForceAttempt (script : list Round)
| OpReset (now : Z)
| OpConnected (now : Z).

Definition run_op (o : Op) (m : Manager) : Manager :=
  match o with
  | OpStart now script => start now script m
  | OpStop => stop m
  | OpForceAttempt script => forceAttempt script m
  | OpReset now => reset now m
  | OpConnected now => onConnected now m
  end.

Definition run_ops (ops : list Op) (m : Manager) : Manager :=
  fold_left (fun acc o => run_op o acc) ops m.

(** The delays of the timers set, oldest first. *)
Fixpoint waits (es : list Effect) : list num :=
  match es with
  | [] => []
  | SetTimeout delay :: rest => delay :: waits rest
  | _ :: rest => waits rest
  end.

(** The backoff sequence: [n] delays, each the previous one times the
    multiplier, capped, starting after [d]. *)
Fixpoint backoff (o : Options) (n : nat) (d : num) : list num :=
  match n with
  | 0 => []
  | S n' =>
      let d' := num_min (num_mul d (backoffMultiplier o)) (maxDelay o) in
      d' :: backoff o n' d'
  end.

(** A script of [n] waits that elapse, each followed by an attempt that
    fails. *)
Definition failures (times : list Z) : list Round :=
  map (fun now => Attempt now ConnectFailed) times.

(** [m'] differs from [m] in neither options, current delay nor timers
    set. *)
Definition steady (m m' : Manager) : Prop :=
  options m' = options m /\
  currentDelay (metrics m') = currentDelay (metrics m) /\
  waits (effects m') = waits (effects m).

(** The stored durations are ten at most. *)
Definition durations_bounded (m : Manager) : Prop :=
  List.length (attemptDurations (metrics m)) <= 10.

End WithNumbers.
Arguments Options num : clear implicits.
Arguments Metrics num : clear implicits.
Arguments Snapshot num : clear implicits.
Arguments Effect num : clear implicits.
Arguments Manager num : clear implicits.
End ReconnectionManager.

(** ** StateManager (managers/state.js)

    As for the reconnection manager, [debug] is off.  The protocol requests
    that [refresh] awaits are answered by a script of the environment. *)
Module StateManager.

Record Options : Type := mkOptions {
  refreshInterval : Z;
  minRefreshInterval : Z;
  retryAttempts : nat;
  retryDelay : Z;
  forceRefreshOnReconnect : bool
}.

Definition defaultOptions : Options :=
  mkOptions (5 * 60 * 1000) (60 * 1000) 3 1000 true.

Record Metrics : Type := mkMetrics {
  connectionAttempts : nat;
  reconnections : nat;
  lastDisconnect : option Z;
  totalDowntime : Z;
  refreshes : nat;
  refreshFailures : nat
}.

(** What the manager does to its environment. *)
Inductive Effect : Type :=
| RequestIssued (method : string) (timeout : option Z)
| RefreshTimerSet (interval : Z)
| RefreshTimerCleared
| RetryWait (delay : Z).

(** [refreshTimer] is kept as a flag: the field holds a timer handle. *)
Record Manager : Type := mkManager {
  options : Options;
  token : JsVal;
  lastRefresh : option Z;
  refreshTimer : bool;
  refreshing : bool;
  metrics : Metrics;
  effects : list Effect
}.

(** [new StateManager(starling, options)]. *)
Definition new (o : Options) : Manager :=
  mkManager o JNull None false false (mkMetrics 0 0 None 0 0 0) [].

Definition set_refreshing (b : bool) (m : Manager) : Manager :=
  mkManager (options m) (token m) (lastRefresh m) (refreshTimer m) b
    (metrics m) (effects m).

Definition set_metrics (x : Metrics) (m : Manager) : Manager :=
  mkManager (options m) (token m) (lastRefresh m) (refreshTimer m)
    (refreshing m) x (effects m).

Definition effect (e : Effect) (m : Manager) : Manager :=
  mkManager (options m) (token m) (lastRefresh m) (refreshTimer m)
    (refreshing m) (metrics m) (effects m ++ [e]).

(** The argument of [refresh]. *)
Record RefreshOptions : Type := mkRefreshOptions {
  force : bool;
  timeout : option Z
}.

(** How the promise of an [async] call stands when the script of the
    environment is used up. *)
Inductive Completion : Type :=
| Resolved (value : JsVal)
| Rejected (e : Thrown)
| Suspended.

(** The answer to a protocol request. *)
Inductive RequestOutcome : Type :=
| Responds (response : JsVal)
| Fails (e : Thrown).

Definition inProgressMessage : string := "Refresh already in progress".

(** The message of the minimum-interval error, [remaining] being
    [minRefreshInterval - elapsed]. *)
Definition minIntervalMessage (remaining : Z) : string :=
  "Minimum refresh interval not reached (" ++ showZ (remaining / 1000)
  ++ "s remaining)".

(** Truthiness of a timestamp that may be [null]. *)
Definition truthyTime (t : option Z) : bool :=
  match t with
  | Some z => negb (Z.eqb z 0)
  | None => false
  end.

Definition timeOf (t : option Z) : Z :=
  match t with Some z => z | None => 0%Z end.

(** [_scheduleNextRefresh()]. *)
Definition scheduleNextRefresh (m : Manager) : Manager :=
  let m1 := if refreshTimer m then effect RefreshTimerCleared m else m in
  let m2 := effect (RefreshTimerSet (refreshInterval (options m1))) m1 in
  mkManager (options m2) (token m2) (lastRefresh m2) true (refreshing m2)
    (metrics m2) (effects m2).

(** The statements of the [try] block that follow the [await], up to the
    exception that ends them: reading [token] off a response that is
    [null] or [undefined] throws; otherwise the token and the clock value
    are stored, the counter bumped, the next refresh scheduled, and
    [_emitRefreshSuccess] throws a TypeError on [this.getMetrics()], a
    method that the class does not define. *)
Definition onResponse (now : Z) (response : JsVal) (m : Manager)
  : Manager * Thrown :=
  match getProp response "token" with
  | Throw e => (m, e)
  | Ok tok =>
      let x := metrics m in
      let m1 :=
        mkManager (options m) tok (Some now) (refreshTimer m) (refreshing m)
          (mkMetrics (connectionAttempts x) (reconnections x)
             (lastDisconnect x) (totalDowntime x) (S (refreshes x))
             (refreshFailures x))
          (effects m) in
      (scheduleNextRefresh m1, TypeError)
  end.

Definition countFailure (m : Manager) : Manager :=
  let x := metrics m in
  set_metrics
    (mkMetrics (connectionAttempts x) (reconnections x) (lastDisconnect x)
       (totalDowntime x) (refreshes x) (S (refreshFailures x))) m.

(** The [while] loop of [refresh], entered with [attempts] failures so
    far. *)
Fixpoint refreshLoop (o : RefreshOptions) (now : Z)
  (script : list RequestOutcome) (attempts : nat) (m : Manager)
  : Manager * Completion :=
  if attempts <? retryAttempts (options m) then
    let m1 := effect (RequestIssued "starling:state" (timeout o)) m in
    match script with
    | [] => (m1, Suspended)
    | outcome :: rest =>
        let (m2, e) :=
          match outcome with
          | Responds response => onResponse now response m1
          | Fails e => (m1, e)
          end in
        let m3 := countFailure m2 in
        if retryAttempts (options m3) <=? S attempts then (m3, Rejected e)
        else
          refreshLoop o now rest (S attempts)
            (effect (RetryWait (retryDelay (options m3))) m3)
    end
  else (m, Resolved JUndefined).

(** [refresh(options)] at clock [now]. *)
Definition refresh (o : RefreshOptions) (now : Z)
  (script : list RequestOutcome) (m : Manager) : Manager * Completion :=
  if refreshing m then (m, Rejected (Error inProgressMessage))
  else
    let elapsed := (now - timeOf (lastRefresh m))%Z in
    if negb (force o) && truthyTime (lastRefresh m) &&
       (elapsed <? minRefreshInterval (options m))%Z
    then
      (m, Rejected
            (Error (minIntervalMessage
                      (minRefreshInterval (options m) - elapsed))))
    else
      match refreshLoop o now script 0 (set_refreshing true m) with
      | (m1, Suspended) => (m1, Suspended)
      | (m1, completion) => (set_refreshing false m1, completion)
      end.

(** The listener of [starling:disconnected]. *)
Definition onDisconnected (now : Z) (m : Manager) : Manager :=
  let x := metrics m in
  let m1 :=
    set_metrics
      (mkMetrics (connectionAttempts x) (reconnections x) (Some now)
         (totalDowntime x) (refreshes x) (refreshFailures x)) m in
  if refreshTimer m1
  then
    let m2 := effect RefreshTimerCleared m1 in
    mkManager (options m2) (token m2) (lastRefresh m2) false (refreshing m2)
      (metrics m2) (effects m2)
  else m1.

(** The listener of [starling:connected]; the rejection of the forced
    refresh is swallowed. *)
Definition onConnected (now : Z) (script : list RequestOutcome)
  (m : Manager) : Manager :=
  let x := metrics m in
  if truthyTime (lastDisconnect x) then
    let m1 :=
      set_metrics
        (mkMetrics (connectionAttempts x) (S (reconnections x))
           (lastDisconnect x)
           (totalDowntime x + (now - timeOf (lastDisconnect x)))
           (refreshes x) (refreshFailures x)) m in
    if forceRefreshOnReconnect (options m1)
    then fst (refresh (mkRefreshOptions true None) now script m1)
    else m1
  else m.

(** The protocol requests among the effects. *)
Definition requestsIssued (es : list Effect) : list Effect :=
  filter (fun e => match e with RequestIssued _ _ => true | _ => false end) es.

End StateManager.


(** * Further operations and scenarios *)

From Stdlib Require Import Permutation.

(** ** The send buffer *)

(** The messages of a buffer split by the outcome that the script of the
    socket holds for each write, in the order of the writes: those written
    and those whose write throws. *)
Fixpoint partition_writes (script : list bool) (ms : list BufferedMessage)
  : list BufferedMessage * list BufferedMessage :=
  match ms with
  | [] => ([], [])
  | m :: rest =>
      let (written, kept) := partition_writes (tl script) rest in
      if hd false script then (written, m :: kept) else (m :: written, kept)
  end.

(** What the socket of the client has written so far; nothing without a
    socket. *)
Definition written_on (s : Starling) : list Content :=
  match ws s with
  | Some w => wire w
  | None => []
  end.

Definition is_BufferFlushed (e : BusEvent) : bool :=
  match e with BufferFlushed _ _ => true | _ => false end.

(** ** Requests *)

(** The request as [execute] leaves it: the one that [Starling.request]
    stores in the table and whose timer it schedules. *)
Definition executedRequest (uuid : string) (now : Z) (method : string)
  (payload : JsVal) (o : RequestOptionsArg) : Request :=
  mkRequest uuid method payload (mergeRequestOptions o) now true.


(** What a response settles a request with. *)
Definition responseSettlement (response : Response) : Settlement :=
  if success response then Resolve (data response)
  else Reject (error response).

(** ** Method registry *)

(** The characters that the pattern of method names admits after the first
    one. *)
Definition nameChar (c : ascii) : bool := is_word c || Ascii.eqb c ":".


(** The characters of a string. *)
Fixpoint chars (s : string) : list ascii :=
  match s with
  | EmptyString => []
  | String c rest => c :: chars rest
  end.

(** ** RequestContext and Method.execute *)

(** The context that a handler is given.  [finished] is the flag of the
    source; the other fields are fixed at construction. *)
Record RequestContext : Type := mkRequestContext {
  ctx_payload : JsVal;
  ctx_requestId : string;
  ctx_timestamp : Z;
  ctx_options : JsVal;
  finished : bool
}.

(** [new RequestContext(starling, payload, {requestId, timestamp, options})]. *)
Definition RequestContext_new (pl : JsVal) (rid : string) (ts : Z)
  (opts : JsVal) : RequestContext :=
  mkRequestContext pl rid ts opts false.

(** A handler at work: the client, the context it was given, and [calls],
    the calls of [starling.standard(type, data)] made through the context,
    oldest first. *)
Record Handling : Type := mkHandling {
  client : Starling;
  context : RequestContext;
  calls : list (string * list (string * JsVal))
}.

Definition finishedMessage : string := "Request already finished".

(** [starling.standard(type, data)] from a method of the context. *)
Definition ctx_standard (now : Z) (type : string) (d : list (string * JsVal))
  (finish : bool) (h : Handling) : Handling :=
  let c := context h in
  mkHandling (snd (Starling_standard now type d (client h)))
    (mkRequestContext (ctx_payload c) (ctx_requestId c) (ctx_timestamp c)
       (ctx_options c) (finished c || finish))
    (calls h ++ [(type, d)]).

Definition successData (rid : string) (d : JsVal) : list (string * JsVal) :=
  [("requestId", JStr rid); ("success", JBool true); ("data", d)].

Definition errorData (rid code message : string) : list (string * JsVal) :=
  [("requestId", JStr rid); ("success", JBool false);
   ("error", JObj [("code", JStr code); ("message", JStr message)])].

Definition notificationData (rid : string) (d : JsVal)
  : list (string * JsVal) :=
  [("requestId", JStr rid); ("data", d)].

(** [RequestContext.success(data)]. *)
Definition RequestContext_success (now : Z) (d : JsVal) (h : Handling)
  : Handling * option Thrown :=
  if finished (context h) then (h, Some (Error finishedMessage))
  else
    (ctx_standard now "response" (successData (ctx_requestId (context h)) d)
       true h, None).

(** [RequestContext.error(code, message)]. *)
Definition RequestContext_error (now : Z) (code message : string)
  (h : Handling) : Handling * option Thrown :=
  if finished (context h) then (h, Some (Error finishedMessage))
  else
    (ctx_standard now "response"
       (errorData (ctx_requestId (context h)) code message) true h, None).

(** [RequestContext.notification(data)]. *)
Definition RequestContext_notification (now : Z) (d : JsVal) (h : Handling)
  : Handling * option Thrown :=
  if finished (context h) then (h, Some (Error finishedMessage))
  else
    (ctx_standard now "notification"
       (notificationData (ctx_requestId (context h)) d) false h, None).

(** What the code of a handler does with its context. *)
Inductive ContextCall : Type :=
| CallSuccess (data : JsVal)
| CallError (code message : string)
| CallNotification (data : JsVal).

Definition context_call (now : Z) (c : ContextCall) (h : Handling)
  : Handling * option Thrown :=
  match c with
  | CallSuccess d => RequestContext_success now d h
  | CallError code message => RequestContext_error now code message h
  | CallNotification d => RequestContext_notification now d h
  end.

(** One step of the life of a handler as [Method.execute] sees it: the
    handler calls the context at some clock value; or the race of
    [execute] is decided, by the handler returning, by the handler throwing
    an [Error] with the message given, or by the timer of the method, whose
    error has the message [Method timeout].  A handler that has lost the
    race to the timer, or that has left work behind, may still call the
    context afterwards. *)
Inductive HandlerStep : Type :=
| Calls (now : Z) (c : ContextCall)
| Returns
| Throws (now : Z) (message : string)
| TimesOut (now : Z).

(** Where [execute] stands: awaiting the race, returned, or rejected
    because [context.error] threw in its [catch] block. *)
Inductive ExecuteState : Type :=
| Awaiting
| Fulfilled
| Failed (e : Thrown).

(** The [catch] block of [Method.execute]. *)
Definition execute_catch (now : Z) (message : string) (h : Handling)
  : Handling * ExecuteState :=
  match RequestContext_error now "METHOD_ERROR" message h with
  | (h', None) => (h', Fulfilled)
  | (h', Some e) => (h', Failed e)
  end.

(** [Method.execute(context)] along the steps of its handler.  Only the
    first decision of the race counts. *)
Fixpoint Method_execute (steps : list HandlerStep) (st : ExecuteState)
  (h : Handling) : Handling * ExecuteState :=
  match steps with
  | [] => (h, st)
  | Calls now c :: rest =>
      Method_execute rest st (fst (context_call now c h))
  | Returns :: rest =>
      match st with
      | Awaiting => Method_execute rest Fulfilled h
      | _ => Method_execute rest st h
      end
  | Throws now message :: rest =>
      match st with
      | Awaiting =>
          let (h', st') := execute_catch now message h in
          Method_execute rest st' h'
      | _ => Method_execute rest st h
      end
  | TimesOut now :: rest =>
      match st with
      | Awaiting =>
          let (h', st') := execute_catch now "Method timeout" h in
          Method_execute rest st' h'
      | _ => Method_execute rest st h
      end
  end.

(** The handling of an inbound request for a registered method starts
    here. *)
Definition Handling_new (s : Starling) (pl : JsVal) (rid : string) (ts : Z)
  (opts : JsVal) : Handling :=
  mkHandling s (RequestContext_new pl rid ts opts) [].

Definition is_response (call : string * list (string * JsVal)) : bool :=
  String.eqb (fst call) "response".

(** The context was not finished by the handler before the race is
    decided: no [success] and no [error] among the steps up to the first
    decision. *)
Fixpoint unfinished_until_decision (steps : list HandlerStep) : bool :=
  match steps with
  | [] => false
  | Calls _ (CallNotification _) :: rest => unfinished_until_decision rest
  | Calls _ _ :: _ => false
  | Returns :: _ => false
  | Throws _ _ :: _ => true
  | TimesOut _ :: _ => true
  end.

(** The message of the error that decides the race, if an error does. *)
Fixpoint deciding_error (steps : list HandlerStep) : option string :=
  match steps with
  | [] => None
  | Calls _ _ :: rest => deciding_error rest
  | Returns :: _ => None
  | Throws _ message :: _ => Some message
  | TimesOut _ :: _ => Some "Method timeout"
  end.

Definition notificationCall (rid : string) (d : JsVal)
  : string * list (string * JsVal) :=
  ("notification", notificationData rid d).

(** The calls made through a context so far: notifications, then one
    response when the context is finished and none when it is not. *)
Definition sequenced (h : Handling) : Prop :=
  exists ns response,
    calls h =
      (map (notificationCall (ctx_requestId (context h))) ns ++ response)%list /\
    if finished (context h)
    then exists d, response = [("response", d)] /\
                   lookupProp "requestId" d = JStr (ctx_requestId (context h))
    else response = [].

(** ** Raw frames *)

(** Whether the notification of a valid frame makes its handling throw:
    it is [null] or [undefined], or it announces a token without [data]. *)
Definition throwing_notification (notification : JsVal) : bool :=
  match notification with
  | JUndefined | JNull => true
  | JObj props =>
      strictEqStr (lookupProp "type" props) "starling:token" &&
      match lookupProp "data" props with
      | JUndefined | JNull => true
      | _ => false
      end
  | _ => false
  end.

Definition throws_on (m : ValidMessage) : bool :=
  match m with
  | MNotification notification => throwing_notification notification
  | _ => false
  end.

Definition has_thrown (r : Exec) : bool :=
  match snd r with Some _ => true | None => false end.

Section RawFrames.

(** [JSON.parse], which throws on a text that is not JSON ([None]), and
    [StandardMessageSchema.safeParse], which yields the validated message or
    fails ([None]), belong to the engine and to the schema library. *)
Variable JSON_parse : string -> option JsVal.
Variable safeParse : JsVal -> option ValidMessage.

(** [Starling.handleTextMessage(message)]. *)
Definition Starling_handleTextMessage (message : string) (s : Starling)
  : Starling :=
  hooks_emit (HookText message) s.

(** [Starling.handleJsonMessage(message)] from its start: a message that
    the schema rejects is announced by the event [message:invalid] and
    handed to the [json] hook. *)
Definition Starling_handleParsedMessage (now : Z) (message : JsVal)
  (s : Starling) : Exec :=
  match safeParse message with
  | None => (hooks_emit (HookJson message) (emit (MessageReceived "invalid") s),
             None)
  | Some m => Starling_handleJsonMessage now m s
  end.

(** [Starling.handleMessage(data)] for a string: the [try] block covers
    the parsing and the handling, so an exception of either hands the text
    to [handleTextMessage]. *)
Definition Starling_handleMessage (now : Z) (text : string) (s : Starling)
  : Starling :=
  match JSON_parse text with
  | None => Starling_handleTextMessage text s
  | Some message =>
      match Starling_handleParsedMessage now message s with
      | (s', None) => s'
      | (s', Some _) => Starling_handleTextMessage text s'
      end
  end.

End RawFrames.

(** ** Runs of the reconnection manager *)

Module ReconnectionRuns.
Import ReconnectionManager.
Section WithNumbers.

Context {num : Type} {N : JsNumber num}.

(** The attempt numbers announced by [starling:reconnect:attempt:started],
    oldest first. *)
Fixpoint attemptNumbers (es : list (Effect num)) : list nat :=
  match es with
  | [] => []
  | AttemptStarted attempt _ :: rest => attempt :: attemptNumbers rest
  | _ :: rest => attemptNumbers rest
  end.

(** How often [starling:reconnect:max_attempts] was emitted. *)
Fixpoint capReached (es : list (Effect num)) : nat :=
  match es with
  | [] => 0
  | MaxAttemptsReached _ :: rest => S (capReached rest)
  | _ :: rest => capReached rest
  end.

(** The script of a loop whose attempts fail until one, started at clock
    [now], connects at clock [t]; [rest] is never looked at. *)
Definition failuresThenConnect (times : list Z) (now t : Z)
  (rest : list Round) : list Round :=
  (failures times ++ Attempt now (ConnectedAt t) :: rest)%list.

(** [attempts < maxAttempts] holds after [n] more attempts. *)
Definition belowCap (m : Manager num) (n : nat) : Prop :=
  match maxAttempts (options m) with
  | Some cap => attempts (metrics m) + n < cap
  | None => True
  end.

(** What a run leaves behind, as far as the counters and the events go. *)
Record Progress (m m' : Manager num) (started waited failed capped : nat)
  : Prop := mkProgress {
  pr_options : options m' = options m;
  pr_attempts : attempts (metrics m') = attempts (metrics m) + started;
  pr_total : totalAttempts (metrics m') = totalAttempts (metrics m) + started;
  pr_failed : failedAttempts (metrics m') = failedAttempts (metrics m) + failed;
  pr_numbers : attemptNumbers (effects m') =
               (attemptNumbers (effects m) ++
                seq (S (attempts (metrics m))) started)%list;
  pr_waits : List.length (waits (effects m')) =
             List.length (waits (effects m)) + waited;
  pr_capped : capReached (effects m') = capReached (effects m) + capped
}.

End WithNumbers.



End ReconnectionRuns.

(** ** Runs of the state manager *)

Module StateRuns.
Import StateManager.

(** The exception that ends an attempt of [refresh]: the one of the
    request, or the TypeError that follows every response. *)
Definition rejection (outcome : RequestOutcome) : Thrown :=
  match outcome with
  | Fails e => e
  | Responds _ => TypeError
  end.

(** The token read off the answer of an attempt, if one can be read. *)
Definition readToken (outcome : RequestOutcome) : option JsVal :=
  match outcome with
  | Responds response =>
      match getProp response "token" with
      | Ok tok => Some tok
      | Throw _ => None
      end
  | Fails _ => None
  end.

(** The tokens read off the answers, oldest first. *)
Fixpoint tokensRead (outcomes : list RequestOutcome) : list JsVal :=
  match outcomes with
  | [] => []
  | outcome :: rest =>
      match readToken outcome with
      | Some tok => tok :: tokensRead rest
      | None => tokensRead rest
      end
  end.

(** The waits between attempts among the effects. *)
Definition retryWaits (es : list Effect) : list Effect :=
  filter (fun e => match e with RetryWait _ => true | _ => false end) es.

(** The test of the minimum interval in [refresh]. *)
Definition throttled (o : RefreshOptions) (now : Z) (m : Manager) : bool :=
  negb (force o) && truthyTime (lastRefresh m) &&
  (now - timeOf (lastRefresh m) <? minRefreshInterval (options m))%Z.

(** [ensureFreshToken()]: the clock is read at [now] here and at [now'] in
    the [refresh] it may call. *)
Definition ensureFreshToken (now now' : Z) (script : list RequestOutcome)
  (m : Manager) : Manager * Completion :=
  if negb (truthy (token m)) || negb (truthyTime (lastRefresh m))
  then refresh (mkRefreshOptions true None) now' script m
  else if (refreshInterval (options m) <=? now - timeOf (lastRefresh m))%Z
  then refresh (mkRefreshOptions false None) now' script m
  else (m, Resolved (token m)).

(** Whether [ensureFreshToken] hands out the stored token. *)
Definition fresh (now : Z) (m : Manager) : bool :=
  truthy (token m) && truthyTime (lastRefresh m) &&
  (now - timeOf (lastRefresh m) <? refreshInterval (options m))%Z.

(** One attempt of the loop, from the request to the count of the
    failure. *)
Definition attempt (o : RefreshOptions) (now : Z) (outcome : RequestOutcome)
  (m : Manager) : Manager * Thrown :=
  let m1 := effect (RequestIssued "starling:state" (timeout o)) m in
  let (m2, e) :=
    match outcome with
    | Responds response => onResponse now response m1
    | Fails e => (m1, e)
    end in
  (countFailure m2, e).

(** What [refresh] leaves untouched: the options and the metrics of the
    connection. *)
Definition sameConnection (m m' : Manager) : Prop :=
  options m' = options m /\
  connectionAttempts (metrics m') = connectionAttempts (metrics m) /\
  reconnections (metrics m') = reconnections (metrics m) /\
  lastDisconnect (metrics m') = lastDisconnect (metrics m) /\
  totalDowntime (metrics m') = totalDowntime (metrics m).

(** What the attempts of a [refresh] amount to: [made] lists the answers
    of the attempts made, [waited] counts the waits between them. *)
Record Account (now : Z) (m m' : Manager) (made : list RequestOutcome)
  (issued waited : nat) : Prop := mkAccount {
  acc_connection : sameConnection m m';
  acc_issued : List.length (requestsIssued (effects m')) =
               List.length (requestsIssued (effects m)) + issued;
  acc_waited : List.length (retryWaits (effects m')) =
               List.length (retryWaits (effects m)) + waited;
  acc_failures : refreshFailures (metrics m') =
                 refreshFailures (metrics m) + List.length made;
  acc_refreshes : refreshes (metrics m') =
                  refreshes (metrics m) + List.length (tokensRead made);
  acc_token : token m' = last (tokensRead made) (token m);
  acc_lastRefresh : lastRefresh m' =
                    match tokensRead made with
                    | [] => lastRefresh m
                    | _ :: _ => Some now
                    end
}.

End StateRuns.

(** ** The reconnection manager of the first client *)

(** [src/managers/reconnection.manager.js], the manager that the client of
    [Starling.connect] owns. *)
Module LegacyReconnection.
Section WithNumbers.

Context {num : Type} {N : JsNumber num}.

(** [Math.pow(x, n)] for a count [n]. *)
Variable pow : num -> nat -> num.

(** [maxAttempts] is a count or [Infinity] ([None]). *)
Record Options : Type := mkOptions {
  delay : num;
  maxAttempts : option nat;
  backoffFactor : num
}.

Definition defaultOptions : Options :=
  mkOptions (num_of_Z 1000) (Some 5) (num_div (num_of_Z 3) (num_of_Z 2)).

(** What the manager does to its environment: the events
    [reconnect:scheduled] and [reconnect:failed] on the bus of the client,
    the timer of a wait, and the call of [starling.connect()]. *)
Inductive Effect : Type :=
| ReconnectScheduled (attempt : nat) (delay : num)
| SetTimeout (delay : num)
| ConnectCalled
| ReconnectFailed (attempts : nat).

(** [timeoutId] is kept as a flag: the field holds a timer handle rather
    than [null]. *)
Record Manager : Type := mkManager {
  options : Options;
  attempts : nat;
  timeoutId : bool;
  active : bool;
  effects : list Effect
}.

(** [new ReconnectionManager(starling, options)]. *)
Definition new (o : Options) : Manager := mkManager o 0 false false [].

Definition set_attempts (n : nat) (m : Manager) : Manager :=
  mkManager (options m) n (timeoutId m) (active m) (effects m).

Definition set_timeoutId (b : bool) (m : Manager) : Manager :=
  mkManager (options m) (attempts m) b (active m) (effects m).

Definition set_active (b : bool) (m : Manager) : Manager :=
  mkManager (options m) (attempts m) (timeoutId m) b (effects m).

Definition effect (e : Effect) (m : Manager) : Manager :=
  mkManager (options m) (attempts m) (timeoutId m) (active m)
    (effects m ++ [e]).

(** The getter [currentDelay]. *)
Definition currentDelay (m : Manager) : num :=
  num_mul (delay (options m)) (pow (backoffFactor (options m)) (attempts m)).

(** The getter [canRetry]. *)
Definition canRetry (m : Manager) : bool :=
  match maxAttempts (options m) with
  | Some cap => attempts m <? cap
  | None => true
  end.

(** [stop()]. *)
Definition stop (m : Manager) : Manager :=
  set_timeoutId false (set_active false m).

(** [reset()]. *)
Definition reset (m : Manager) : Manager := stop (set_attempts 0 m).

(** How [starling.connect()] ends. *)
Inductive ConnectOutcome : Type :=
| Connects
| Rejects.

(** One call of [scheduleReconnect] as the environment decides it: the
    client is connected when the call starts; or it is not, and [stop()]
    is called during the wait, whose timer is cleared so that the call
    never resumes; or the wait elapses and the connection ends as told. *)
Inductive Round : Type :=
| AlreadyConnected
| Stopped
| Attempt (outcome : ConnectOutcome).

(** [scheduleReconnect()] up to its first [await]. *)
Definition announce (m : Manager) : Manager :=
  let d := currentDelay m in
  set_timeoutId true
    (effect (SetTimeout d)
       (effect (ReconnectScheduled (S (attempts m)) d) m)).

(** [scheduleReconnect()], together with the call of itself in its
    [catch] block.  The script lists the rounds to come; when it is used
    up the client is not connected and the wait does not elapse. *)
Fixpoint scheduleReconnect (script : list Round) (m : Manager) : Manager :=
  if negb (active m) || negb (canRetry m) then m
  else
    match script with
    | AlreadyConnected :: _ => m
    | [] => announce m
    | Stopped :: _ => stop (announce m)
    | Attempt outcome :: rest =>
        let m1 := announce m in
        let m2 := effect ConnectCalled (set_attempts (S (attempts m1)) m1) in
        match outcome with
        | Connects => reset m2
        | Rejects =>
            if canRetry m2 then scheduleReconnect rest m2
            else reset (effect (ReconnectFailed (attempts m2)) m2)
        end
    end.

(** [start()]. *)
Definition start (script : list Round) (m : Manager) : Manager :=
  if active m then m
  else scheduleReconnect script (set_attempts 0 (set_active true m)).

(** The delays of the timers set, oldest first. *)
Fixpoint waits (es : list Effect) : list num :=
  match es with
  | [] => []
  | SetTimeout d :: rest => d :: waits rest
  | _ :: rest => waits rest
  end.

(** The attempts and delays announced by [reconnect:scheduled]. *)
Fixpoint announced (es : list Effect) : list (nat * num) :=
  match es with
  | [] => []
  | ReconnectScheduled attempt d :: rest => (attempt, d) :: announced rest
  | _ :: rest => announced rest
  end.

(** The attempt counts reported by [reconnect:failed]. *)
Fixpoint givenUp (es : list Effect) : list nat :=
  match es with
  | [] => []
  | ReconnectFailed n :: rest => n :: givenUp rest
  | _ :: rest => givenUp rest
  end.

(** How often [starling.connect()] was called. *)
Fixpoint connectCalls (es : list Effect) : nat :=
  match es with
  | [] => 0
  | ConnectCalled :: rest => S (connectCalls rest)
  | _ :: rest => connectCalls rest
  end.

(** The delay before attempt [i + 1]: the base delay times the [i]-th
    power of the factor. *)
Definition delayOf (o : Options) (i : nat) : num :=
  num_mul (delay o) (pow (backoffFactor o) i).

(** The first [k] delays, from attempt [first + 1] on. *)
Definition delaysFrom (o : Options) (first k : nat) : list num :=
  map (delayOf o) (seq first k).

Definition announcedFrom (o : Options) (first k : nat) : list (nat * num) :=
  map (fun i => (S i, delayOf o i)) (seq first k).

(** A script of [n] waits that elapse, each followed by a connection that
    is rejected. *)
Definition rejections (n : nat) : list Round := repeat (Attempt Rejects) n.

End WithNumbers.
Arguments Options num : clear implicits.
Arguments Effect num : clear implicits.
Arguments Manager num : clear implicits.
End LegacyReconnection.

(** ** The life cycle of the connection *)

(** [Starling.connect], [Starling.disconnect] and the handlers that
    [connect] installs on the socket, for the socket that the client
    holds; the events of a socket that the client has replaced are outside
    the embedding. *)
Module Client.
Section WithNumbers.

Context {num : Type} {N : JsNumber num}.

(** [Math.pow] for the reconnection manager, and the conversion of a value
    that is no string to a string, both of the engine. *)
Variable pow : num -> nat -> num.
Variable ToString : JsVal -> string.

(** The handler in [ws.onclose]: the one that [connect] installs, or the
    one that [disconnect] puts in its place. *)
Inductive CloseHandler : Type :=
| CloseOfConnect
| CloseOfDisconnect.

(** The events [starling:close] and [starling:error] on the bus. *)
Inductive LifeEvent : Type :=
| StarlingClose
| StarlingError.

(** The client with what [connect] and [disconnect] use beside the
    managers: the option [reconnect], the reconnection manager, the query
    of [this.url], the query of the URL of each socket created, oldest
    first, and the handler of the close event. *)
Record Client : Type := mkClient {
  starling : Starling;
  reconnect : bool;
  reconnectionManager : LegacyReconnection.Manager num;
  searchParams : list (string * string);
  opened : list (list (string * string));
  onclose : CloseHandler;
  lifeEvents : list LifeEvent
}.

(** The options of the constructor that matter here. *)
Record ClientOptions : Type := mkClientOptions {
  reconnectDelay : num;
  maxReconnectAttempts : option nat;
  opt_reconnect : bool
}.

Definition defaultClientOptions : ClientOptions :=
  mkClientOptions (num_of_Z 1000) (Some 5) true.

(** [new Starling(url, options)], [query] being the query of [url]. *)
Definition new (query : list (string * string)) (o : ClientOptions) : Client :=
  mkClient Starling_new (opt_reconnect o)
    (LegacyReconnection.new
       (LegacyReconnection.mkOptions (reconnectDelay o)
          (maxReconnectAttempts o)
          (num_div (num_of_Z 3) (num_of_Z 2))))
    query [] CloseOfConnect [].

Definition set_starling (s : Starling) (c : Client) : Client :=
  mkClient s (reconnect c) (reconnectionManager c) (searchParams c)
    (opened c) (onclose c) (lifeEvents c).

(** The getter [connecting]. *)
Definition connecting (s : Starling) : bool :=
  match ws s with
  | Some w => match readyState w with CONNECTING => true | _ => false end
  | None => false
  end.

(** [URLSearchParams.set(name, value)]: the first pair of that name takes
    the value and the others go; without such a pair one is appended. *)
Fixpoint removeParam (name : string) (q : list (string * string))
  : list (string * string) :=
  match q with
  | [] => []
  | (k, v) :: rest =>
      if String.eqb k name then removeParam name rest
      else (k, v) :: removeParam name rest
  end.

Fixpoint setParam (name value : string) (q : list (string * string))
  : list (string * string) :=
  match q with
  | [] => [(name, value)]
  | (k, v) :: rest =>
      if String.eqb k name then (name, value) :: removeParam name rest
      else (k, v) :: setParam name value rest
  end.

(** [URLSearchParams.getAll(name)]. *)
Definition getAllParams (name : string) (q : list (string * string))
  : list string :=
  map snd (filter (fun p => String.eqb (fst p) name) q).

(** The string that [searchParams.set] makes of its argument. *)
Definition stringOf (v : JsVal) : string :=
  match v with
  | JStr s => s
  | _ => ToString v
  end.

Definition alreadyMessage : string := "Already connected or connecting".

(** [connect()] up to the promise it returns; the exception is the reason
    of a rejected promise.  The socket that the constructor yields is
    connecting, [sendScript] tells which of its writes will throw. *)
Definition connect (sendScript : list bool) (c : Client)
  : Client * option Thrown :=
  let s := starling c in
  if connected s || connecting s then (c, Some (Error alreadyMessage))
  else
    let query :=
      if truthy (recoveryToken s)
      then setParam "recover" (stringOf (recoveryToken s)) (searchParams c)
      else searchParams c in
    (mkClient (set_ws (Some (mkWebSocket CONNECTING [] sendScript)) s)
       (reconnect c) (reconnectionManager c) query
       (opened c ++ [query])%list CloseOfConnect (lifeEvents c),
     None).

(** The socket opens: [ws.onopen]. *)
Definition socketOpens (c : Client) : Client :=
  match ws (starling c) with
  | Some w => set_starling (Starling_onopen w (starling c)) c
  | None => c
  end.

(** A frame arrives that the schema accepts: [ws.onmessage]. *)
Definition frameArrives (now : Z) (m : ValidMessage) (c : Client) : Client :=
  set_starling (fst (Starling_handleJsonMessage now m (starling c))) c.

(** The socket closes: its state is [CLOSED] and [ws.onclose] runs.  The
    handler of [connect] emits [starling:close] and, with the option
    [reconnect], starts the reconnection manager, which runs up to its
    first wait; the handler of [disconnect] drops the socket. *)
Definition socketCloses (c : Client) : Client :=
  match ws (starling c) with
  | None => c
  | Some w =>
      let s := set_ws (Some (mkWebSocket CLOSED (wire w) (sendThrows w)))
                 (starling c) in
      match onclose c with
      | CloseOfConnect =>
          mkClient s (reconnect c)
            (if reconnect c
             then LegacyReconnection.start pow [] (reconnectionManager c)
             else reconnectionManager c)
            (searchParams c) (opened c) (onclose c)
            (lifeEvents c ++ [StarlingClose])%list
      | CloseOfDisconnect =>
          mkClient (set_ws None s) (reconnect c) (reconnectionManager c)
            (searchParams c) (opened c) (onclose c) (lifeEvents c)
      end
  end.

(** The socket reports an error: [ws.onerror]. *)
Definition socketErrors (c : Client) : Client :=
  mkClient (starling c) (reconnect c) (reconnectionManager c)
    (searchParams c) (opened c) (onclose c)
    (lifeEvents c ++ [StarlingError])%list.

(** [ws.close()]: a socket that is not closed yet is closing. *)
Definition ws_close (w : WebSocket) : WebSocket :=
  match readyState w with
  | CLOSED => w
  | _ => mkWebSocket CLOSING (wire w) (sendThrows w)
  end.

(** [disconnect()] up to the promise it returns; an exception of
    [cancelAll] leaves the call before the handler is replaced. *)
Definition disconnect (c : Client) : Client * option Thrown :=
  match ws (starling c) with
  | None => (c, None)
  | Some _ =>
      let manager := LegacyReconnection.stop (reconnectionManager c) in
      match RequestsManager_cancelAll "Connection closed" (starling c) with
      | (s1, Some e) =>
          (mkClient s1 (reconnect c) manager (searchParams c) (opened c)
             (onclose c) (lifeEvents c), Some e)
      | (s1, None) =>
          (mkClient
             (set_ws (match ws s1 with
                      | Some w => Some (ws_close w)
                      | None => None
                      end) s1)
             (reconnect c) manager (searchParams c) (opened c)
             CloseOfDisconnect (lifeEvents c), None)
      end
  end.

End WithNumbers.
Arguments Client num : clear implicits.
Arguments ClientOptions num : clear implicits.
End Client.
(** * Properties *)

Local Open Scope list_scope.

(** ** The send buffer *)

Section BufferFacts.

Lemma add_messages now m s :
  messages (messageBuffer (snd (MessageBuffer_add now m s))) =
  (if isFull (messageBuffer s) then shift (messages (messageBuffer s))
   else messages (messageBuffer s)) ++ [mkBufferedMessage m now 0].
Proof.
  unfold MessageBuffer_add. destruct (isFull (messageBuffer s)); reflexivity.
Qed.

Lemma add_maxSize now m s :
  maxSize (messageBuffer (snd (MessageBuffer_add now m s))) =
  maxSize (messageBuffer s).
Proof.
  unfold MessageBuffer_add. destruct (isFull (messageBuffer s)); reflexivity.
Qed.

Lemma add_ws now m s : ws (snd (MessageBuffer_add now m s)) = ws s.
Proof.
  unfold MessageBuffer_add. destruct (isFull (messageBuffer s)); reflexivity.
Qed.

Lemma add_events now m s :
  events (snd (MessageBuffer_add now m s)) =
  events s ++ (if isFull (messageBuffer s) then [BufferFull] else []) ++
  [BufferAdded
     (List.length (messages (messageBuffer (snd (MessageBuffer_add now m s)))))].
Proof.
  unfold MessageBuffer_add.
  destruct (isFull (messageBuffer s)); cbn; rewrite <- ?app_assoc; reflexivity.
Qed.

(** One [add] on a buffer within a positive capacity keeps the newest
    [maxSize] entries. *)
Lemma add_keeps_newest now m s :
  0 < maxSize (messageBuffer s) ->
  List.length (messages (messageBuffer s)) <= maxSize (messageBuffer s) ->
  messages (messageBuffer (snd (MessageBuffer_add now m s))) =
  skipn (List.length (messages (messageBuffer s)) + 1 - maxSize (messageBuffer s))
    (messages (messageBuffer s) ++ [mkBufferedMessage m now 0]).
Proof.
  intros Hpos Hle. rewrite add_messages. unfold isFull.
  destruct (Nat.leb_spec (maxSize (messageBuffer s))
              (List.length (messages (messageBuffer s)))) as [Hfull|Hroom].
  - assert (Heq : List.length (messages (messageBuffer s)) =
                  maxSize (messageBuffer s)) by lia.
    rewrite Heq. replace (maxSize (messageBuffer s) + 1 - _) with 1 by lia.
    destruct (messages (messageBuffer s)) as [|x l]; cbn in *; [lia|reflexivity].
  - replace (_ + 1 - _) with 0 by lia. reflexivity.
Qed.

Lemma add_length_le now m s :
  0 < maxSize (messageBuffer s) ->
  List.length (messages (messageBuffer s)) <= maxSize (messageBuffer s) ->
  List.length (messages (messageBuffer (snd (MessageBuffer_add now m s)))) <=
  maxSize (messageBuffer s).
Proof.
  intros Hpos Hle. rewrite add_messages. unfold isFull, shift.
  rewrite length_app. cbn [List.length].
  destruct (Nat.leb_spec (maxSize (messageBuffer s))
              (List.length (messages (messageBuffer s)))) as [Hfull|Hroom].
  - destruct (messages (messageBuffer s)); cbn in *; lia.
  - lia.
Qed.

Lemma add_all_maxSize fs : forall s,
  maxSize (messageBuffer (add_all fs s)) = maxSize (messageBuffer s).
Proof.
  induction fs as [|[now m] fs IH]; intros s; cbn [add_all]; [reflexivity|].
  rewrite IH. apply add_maxSize.
Qed.

Lemma skipn_app_within {A} n (l1 l2 : list A) :
  n <= List.length l1 -> skipn n (l1 ++ l2) = skipn n l1 ++ l2.
Proof.
  intros Hn. rewrite skipn_app. replace (n - List.length l1) with 0 by lia.
  reflexivity.
Qed.

Lemma add_all_keeps_newest fs : forall s,
  0 < maxSize (messageBuffer s) ->
  List.length (messages (messageBuffer s)) <= maxSize (messageBuffer s) ->
  messages (messageBuffer (add_all fs s)) =
  skipn (List.length (messages (messageBuffer s)) + List.length fs
         - maxSize (messageBuffer s))
    (messages (messageBuffer s) ++ map buffered fs).
Proof.
  induction fs as [|[now m] fs IH]; intros s Hpos Hle; cbn [add_all].
  - cbn. rewrite app_nil_r. replace (_ + 0 - _) with 0 by lia. reflexivity.
  - pose proof (add_length_le now m s Hpos Hle) as Hle'.
    rewrite IH; rewrite ?add_maxSize; auto.
    rewrite (add_keeps_newest now m s Hpos Hle).
    set (l := messages (messageBuffer s)) in *.
    set (C := maxSize (messageBuffer s)) in *.
    change (map buffered ((now, m) :: fs))
      with (mkBufferedMessage m now 0 :: map buffered fs).
    set (x := mkBufferedMessage m now 0).
    replace (l ++ x :: map buffered fs) with ((l ++ [x]) ++ map buffered fs)
      by (rewrite <- app_assoc; reflexivity).
    rewrite <- skipn_app_within by (rewrite length_app; cbn; lia).
    rewrite skipn_skipn. f_equal.
    rewrite length_skipn, length_app. cbn [List.length]. lia.
Qed.

Lemma flush_loop_remaining_length ms : forall w remaining sent,
  List.length (snd (fst (flush_loop w ms remaining sent))) <=
  List.length remaining + List.length ms.
Proof.
  induction ms as [|m ms IH]; intros w remaining sent; cbn [flush_loop].
  - cbn. lia.
  - destruct (ws_send w (content m)) as [w' ok]. destruct ok.
    + specialize (IH w' remaining (S sent)). cbn [List.length]. lia.
    + specialize (IH w' (remaining ++ [m]) sent).
      rewrite length_app in IH. cbn [List.length] in *. lia.
Qed.

Lemma flush_maxSize s :
  maxSize (messageBuffer (MessageBuffer_flush s)) = maxSize (messageBuffer s).
Proof.
  unfold MessageBuffer_flush.
  destruct (negb (connected s)); [reflexivity|].
  destruct (ws s) as [w|]; [|reflexivity].
  destruct (flush_loop w (messages (messageBuffer s)) [] 0) as [[w' rem] sent].
  destruct (0 <? sent); reflexivity.
Qed.

Lemma flush_length_le s :
  List.length (messages (messageBuffer (MessageBuffer_flush s))) <=
  List.length (messages (messageBuffer s)).
Proof.
  unfold MessageBuffer_flush.
  destruct (negb (connected s)); [lia|].
  destruct (ws s) as [w|]; [|lia].
  pose proof (flush_loop_remaining_length (messages (messageBuffer s)) w [] 0)
    as Hlen.
  destruct (flush_loop w (messages (messageBuffer s)) [] 0) as [[w' rem] sent].
  cbn in Hlen. destruct (0 <? sent); cbn; lia.
Qed.

Lemma clear_messages s : messages (messageBuffer (MessageBuffer_clear s)) = [].
Proof.
  unfold MessageBuffer_clear.
  destruct (0 <? List.length (messages (messageBuffer s))); reflexivity.
Qed.

Lemma clear_maxSize s :
  maxSize (messageBuffer (MessageBuffer_clear s)) = maxSize (messageBuffer s).
Proof.
  unfold MessageBuffer_clear.
  destruct (0 <? List.length (messages (messageBuffer s))); reflexivity.
Qed.

(** [send] either writes to the socket and leaves the buffer alone, or is
    an [add] on a client that differs at most in its socket. *)
Lemma send_cases now m s :
  (messageBuffer (snd (Starling_send now m s)) = messageBuffer s) \/
  (exists w, Starling_send now m s = MessageBuffer_add now m (set_ws w s)).
Proof.
  unfold Starling_send. destruct (negb (connected s)).
  - right. exists (ws s). destruct s; reflexivity.
  - destruct (ws s) as [w|] eqn:Hws.
    + destruct (ws_send w m) as [w' ok]. destruct ok.
      * left. reflexivity.
      * right. exists (Some w'). reflexivity.
    + right. exists None. destruct s; cbn in *; subst; reflexivity.
Qed.

Lemma run_op_within_capacity C o s :
  0 < C -> within_capacity C s -> within_capacity C (run_op o s).
Proof.
  intros Hpos [HC Hle]. destruct o as [now m|now m| | |w|w]; cbn [run_op].
  - split; [rewrite add_maxSize; exact HC|].
    rewrite <- HC. apply add_length_le; lia.
  - destruct (send_cases now m s) as [Hsame|[w Hadd]].
    + split; rewrite Hsame; assumption.
    + rewrite Hadd. split; [rewrite add_maxSize; exact HC|].
      pose proof (add_length_le now m (set_ws w s)) as H.
      cbn in H. rewrite <- HC. apply H; lia.
  - split; [rewrite flush_maxSize; exact HC|].
    pose proof (flush_length_le s). lia.
  - split; [rewrite clear_maxSize; exact HC|].
    rewrite clear_messages. cbn. lia.
  - unfold Starling_onopen. split; [rewrite flush_maxSize; exact HC|].
    etransitivity; [apply flush_length_le|]. exact Hle.
  - split; assumption.
Qed.

Lemma run_ops_within_capacity C ops : forall s,
  0 < C -> within_capacity C s -> within_capacity C (run_ops ops s).
Proof.
  unfold run_ops.
  induction ops as [|o ops IH]; intros s Hpos Hinv; cbn [fold_left]; auto.
  apply IH; auto. apply run_op_within_capacity; auto.
Qed.

Lemma add_all_within_capacity C fs : forall s,
  0 < C -> within_capacity C s -> within_capacity C (add_all fs s).
Proof.
  induction fs as [|[now m] fs IH]; intros s Hpos Hinv; cbn [add_all]; auto.
  apply IH; auto. apply (run_op_within_capacity C (OpAdd now m)); auto.
Qed.

(** Offline, [send] is [add]. *)
Lemma send_offline now m s :
  connected s = false -> Starling_send now m s = MessageBuffer_add now m s.
Proof. intros Hoff. unfold Starling_send. rewrite Hoff. reflexivity. Qed.

Lemma add_connected now m s :
  connected (snd (MessageBuffer_add now m s)) = connected s.
Proof. unfold connected. rewrite add_ws. reflexivity. Qed.

Lemma send_all_offline fs : forall s,
  connected s = false -> send_all fs s = add_all fs s.
Proof.
  induction fs as [|[now m] fs IH]; intros s Hoff; cbn [send_all add_all].
  - reflexivity.
  - rewrite send_offline by assumption. apply IH.
    rewrite add_connected. assumption.
Qed.

Lemma add_all_ws fs : forall s, ws (add_all fs s) = ws s.
Proof.
  induction fs as [|[now m] fs IH]; intros s; cbn [add_all]; [reflexivity|].
  rewrite IH. apply add_ws.
Qed.

(** A flush over a socket whose writes all succeed writes every message,
    in the order of the buffer, and retains none. *)
Lemma flush_loop_all_sent ms : forall w remaining sent,
  Forall (fun b => b = false) (sendThrows w) ->
  flush_loop w ms remaining sent =
  (mkWebSocket (readyState w) (wire w ++ map content ms)
     (skipn (List.length ms) (sendThrows w)),
   remaining, sent + List.length ms).
Proof.
  induction ms as [|m ms IH]; intros w remaining sent Hok; cbn [flush_loop].
  - cbn. rewrite app_nil_r, Nat.add_0_r. destruct w; reflexivity.
  - unfold ws_send. destruct (sendThrows w) as [|b script] eqn:Hscript.
    + rewrite IH by (cbn; constructor). cbn.
      rewrite <- app_assoc, skipn_nil. repeat f_equal. lia.
    + inversion Hok as [|? ? Hb Hrest]; subst b.
      rewrite IH by (cbn; assumption). cbn.
      rewrite <- app_assoc. repeat f_equal. lia.
Qed.

End BufferFacts.

(** C2.  A buffer of positive capacity [C] that starts empty and receives any
    sequence of frames through [add]: each [add] drops the oldest entry
    exactly when the buffer is full and appends the new one; the buffer then
    holds exactly the last [C] frames received, in insertion order (all of
    them when fewer than [C] came); and whatever is done to the client
    afterwards, the buffer never holds more than [C] entries. *)
Theorem buffer_drop_oldest_bound (C : nat) (s : Starling)
  (frames : list (Z * Content)) :
  0 < C ->
  maxSize (messageBuffer s) = C ->
  messages (messageBuffer s) = [] ->
  (forall now m s',
     messages (messageBuffer (snd (MessageBuffer_add now m s'))) =
     (if isFull (messageBuffer s') then shift (messages (messageBuffer s'))
      else messages (messageBuffer s')) ++ [buffered (now, m)]) /\
  messages (messageBuffer (add_all frames s)) =
    skipn (List.length frames - C) (map buffered frames) /\
  List.length (messages (messageBuffer (add_all frames s))) =
    Nat.min (List.length frames) C /\
  (forall ops,
     List.length (messages (messageBuffer (run_ops ops (add_all frames s)))) <= C).
Proof.
  intros Hpos HC Hempty.
  assert (Hnewest : messages (messageBuffer (add_all frames s)) =
                    skipn (List.length frames - C) (map buffered frames)).
  { rewrite add_all_keeps_newest; rewrite ?HC, ?Hempty; cbn; auto; lia. }
  repeat split.
  - intros now m s'. apply add_messages.
  - exact Hnewest.
  - rewrite Hnewest, length_skipn, length_map. lia.
  - intros ops.
    apply (run_ops_within_capacity C); auto.
    apply add_all_within_capacity; auto.
    split; [exact HC|]. rewrite Hempty. cbn. lia.
Qed.

(** C2 at capacity 2 with three frames. *)
Lemma buffer_drop_oldest_bound_witness :
  let s := mkStarling None (mkMessageBuffer [] 2) (mkRequestsManager [])
             (mkMethodsManager [] []) JNull [] [] [] [] [] [] in
  let frames := [(1%Z, CText "F1"); (2%Z, CText "F2"); (3%Z, CText "F3")] in
  0 < 2 /\
  maxSize (messageBuffer s) = 2 /\
  messages (messageBuffer s) = [] /\
  messages (messageBuffer (add_all frames s)) =
    [buffered (2%Z, CText "F2"); buffered (3%Z, CText "F3")].
Proof.
  intros s frames.
  split; [lia|]. split; [reflexivity|]. split; [reflexivity|].
  exact (proj1 (proj2 (buffer_drop_oldest_bound 2 s frames
                         ltac:(lia) eq_refl eq_refl))).
Defined.

(** C3.  A client that is not connected and whose buffer is empty is given
    the frames F1..Fn through [send], with n within the buffer's capacity.
    Nothing is written meanwhile; when the socket then opens and every write
    succeeds, the flush writes exactly F1..Fn, in that order, and leaves the
    buffer empty. *)
Theorem offline_sends_flushed_in_order (s : Starling)
  (frames : list (Z * Content)) (w : WebSocket) :
  connected s = false ->
  messages (messageBuffer s) = [] ->
  List.length frames <= maxSize (messageBuffer s) ->
  Forall (fun b => b = false) (sendThrows w) ->
  ws (send_all frames s) = ws s /\
  option_map (@wire) (ws (Starling_onopen w (send_all frames s))) =
    Some (wire w ++ map snd frames) /\
  messages (messageBuffer (Starling_onopen w (send_all frames s))) = [].
Proof.
  intros Hoff Hempty Hfit Hok.
  rewrite send_all_offline by assumption.
  assert (Hbuf : messages (messageBuffer (add_all frames s)) =
                 map buffered frames).
  { destruct frames as [|f frames]; [cbn; assumption|].
    cbn [List.length] in Hfit.
    rewrite add_all_keeps_newest; rewrite ?Hempty; cbn [List.length]; try lia.
    replace (0 + S (List.length frames) - maxSize (messageBuffer s)) with 0
      by lia.
    reflexivity. }
  split; [apply add_all_ws|].
  unfold Starling_onopen, MessageBuffer_flush.
  cbn [connected ws emit set_ws readyState negb messageBuffer].
  rewrite Hbuf.
  rewrite (flush_loop_all_sent (map buffered frames)
             (mkWebSocket OPEN (wire w) (sendThrows w)) [] 0) by exact Hok.
  cbn [wire readyState sendThrows].
  rewrite map_map. cbn [content buffered].
  destruct (0 <? 0 + List.length (map buffered frames)); cbn; auto.
Qed.

(** C3 on three frames and a fresh socket. *)
Lemma offline_sends_flushed_in_order_witness :
  let frames := [(1%Z, CText "F1"); (2%Z, CText "F2"); (3%Z, CText "F3")] in
  let w := mkWebSocket CONNECTING [] [] in
  connected Starling_new = false /\
  messages (messageBuffer Starling_new) = [] /\
  List.length frames <= maxSize (messageBuffer Starling_new) /\
  Forall (fun b => b = false) (sendThrows w) /\
  option_map (@wire) (ws (Starling_onopen w (send_all frames Starling_new))) =
    Some [CText "F1"; CText "F2"; CText "F3"].
Proof.
  intros frames w.
  assert (Hfit : List.length frames <= maxSize (messageBuffer Starling_new))
    by (cbn; lia).
  split; [reflexivity|]. split; [reflexivity|]. split; [exact Hfit|].
  split; [constructor|].
  exact (proj1 (proj2 (offline_sends_flushed_in_order Starling_new frames w
                         eq_refl eq_refl Hfit (Forall_nil _)))).
Defined.

(** C9.  [MessageBuffer.add] returns [true] on every input, and so does
    [send]; a full buffer shows in what [add] emits and keeps (it emits
    [buffer:full] exactly when the buffer was full, and then drops the oldest
    entry), never in the value returned. *)
Theorem add_always_reports_success (now : Z) (m : Content) (s : Starling) :
  fst (MessageBuffer_add now m s) = true /\
  fst (Starling_send now m s) = true /\
  (if connected s then True
   else Starling_send now m s = MessageBuffer_add now m s) /\
  existsb is_BufferFull
    (skipn (List.length (events s)) (events (snd (MessageBuffer_add now m s)))) =
    isFull (messageBuffer s) /\
  messages (messageBuffer (snd (MessageBuffer_add now m s))) =
    (if isFull (messageBuffer s) then shift (messages (messageBuffer s))
     else messages (messageBuffer s)) ++ [buffered (now, m)].
Proof.
  assert (Hsend : fst (Starling_send now m s) = true).
  { unfold Starling_send. destruct (negb (connected s)); [reflexivity|].
    destruct (ws s) as [w|]; [|reflexivity].
    destruct (ws_send w m) as [w' ok]. destruct ok; reflexivity. }
  repeat split.
  - exact Hsend.
  - destruct (connected s) eqn:Hc; [exact I|apply send_offline; exact Hc].
  - rewrite add_events, skipn_app, skipn_all, Nat.sub_diag.
    destruct (isFull (messageBuffer s)); reflexivity.
  - apply add_messages.
Qed.

(** ** The request registry *)

Section MapFacts.
Context {V : Type}.
Implicit Types (m : JsMap V) (k : string) (v : V).

Lemma Map_get_In m k v : Map_get m k = Some v -> In (k, v) m.
Proof.
  induction m as [|[k' v'] m IH]; cbn; [discriminate|].
  destruct (String.eqb_spec k k') as [->|Hne].
  - intros [= ->]. now left.
  - intros H. right. auto.
Qed.

Lemma Map_has_keys m k : Map_has m k = true <-> In k (map fst m).
Proof.
  unfold Map_has. induction m as [|[k' v'] m IH]; cbn.
  - split; [discriminate|tauto].
  - destruct (String.eqb_spec k k') as [->|Hne].
    + split; auto.
    + rewrite IH. split; [auto|]. intros [Heq|Hin]; [congruence|exact Hin].
Qed.

Lemma Map_has_false_keys m k : Map_has m k = false <-> ~ In k (map fst m).
Proof.
  rewrite <- Map_has_keys. destruct (Map_has m k); split; congruence.
Qed.

Lemma Map_has_get_None m k : Map_has m k = false -> Map_get m k = None.
Proof. unfold Map_has. destruct (Map_get m k); [discriminate|reflexivity]. Qed.

Lemma In_Map_has m k v : In (k, v) m -> Map_has m k = true.
Proof.
  intros Hin. apply Map_has_keys. apply (in_map fst) in Hin. exact Hin.
Qed.

Lemma Map_delete_keys m k k' :
  In k' (map fst (Map_delete m k)) <-> In k' (map fst m) /\ k <> k'.
Proof.
  unfold Map_delete. induction m as [|[k0 v0] m IH]; cbn; [tauto|].
  destruct (String.eqb_spec k k0) as [->|Hne]; cbn; rewrite IH.
  - split; [tauto|]. intros [[Heq|Hin] Hk]; [congruence|tauto].
  - split; [|tauto]. intros [Heq|[Hin Hk]]; [subst; tauto|tauto].
Qed.

Lemma Map_delete_has m k k' :
  Map_has (Map_delete m k) k' = Map_has m k' && negb (String.eqb k k').
Proof.
  apply eq_true_iff_eq.
  rewrite andb_true_iff, negb_true_iff, !Map_has_keys, Map_delete_keys.
  destruct (String.eqb_spec k k'); intuition congruence.
Qed.

Lemma Map_delete_In m k e : In e (Map_delete m k) -> In e m.
Proof. unfold Map_delete. rewrite filter_In. tauto. Qed.

Lemma Map_delete_NoDup m k :
  NoDup (map fst m) -> NoDup (map fst (Map_delete m k)).
Proof.
  unfold Map_delete. induction m as [|[k0 v0] m IH]; cbn; [auto|].
  intros Hnd. inversion Hnd as [|? ? Hnot Hrest]; subst.
  destruct (negb (String.eqb k k0)); cbn; auto.
  constructor; auto.
  intros Hin. apply Hnot. apply (Map_delete_keys m k k0). exact Hin.
Qed.

Lemma Map_set_absent m k v : Map_has m k = false -> Map_set m k v = m ++ [(k, v)].
Proof.
  unfold Map_has. induction m as [|[k' v'] m IH]; cbn; [reflexivity|].
  destruct (String.eqb k k'); [discriminate|].
  intros H. rewrite IH by exact H. reflexivity.
Qed.

Lemma Map_set_last m k v v' :
  Map_has m k = false -> Map_set (m ++ [(k, v)]) k v' = m ++ [(k, v')].
Proof.
  unfold Map_has. induction m as [|[k0 v0] m IH]; cbn.
  - rewrite String.eqb_refl. reflexivity.
  - destruct (String.eqb k k0); [discriminate|].
    intros H. rewrite IH by exact H. reflexivity.
Qed.

Lemma Map_has_last m k v : Map_has (m ++ [(k, v)]) k = true.
Proof. apply Map_has_keys. rewrite map_app, in_app_iff. right. now left. Qed.

End MapFacts.

Section RegistryFacts.

(** Clearing timers leaves the remaining ones with distinct ids. *)
Lemma timers_filter_NoDup (keep : Request -> bool) (ts : list Request) :
  NoDup (map (@id) ts) -> NoDup (map (@id) (filter keep ts)).
Proof.
  intros Hnd. induction ts as [|t ts IH]; cbn [filter map]; [constructor|].
  cbn [map] in Hnd. apply NoDup_cons_iff in Hnd. destruct Hnd as [Hfresh Hnd].
  specialize (IH Hnd). destruct (keep t); [|exact IH].
  cbn [map]. apply NoDup_cons; [|exact IH].
  contradict Hfresh. apply in_map_iff in Hfresh.
  destruct Hfresh as (t' & Hid & Hin). rewrite <- Hid.
  apply in_map. apply filter_In in Hin. apply Hin.
Qed.

Lemma NoDup_map_inj {A B} (f : A -> B) (l : list A) a b :
  NoDup (map f l) -> In a l -> In b l -> f a = f b -> a = b.
Proof.
  induction l as [|x l IH]; cbn; [tauto|].
  intros Hnd Ha Hb Hf. inversion Hnd as [|? ? Hnot Hrest]; subst.
  destruct Ha as [->|Ha], Hb as [->|Hb]; auto.
  - exfalso. apply Hnot. rewrite Hf. apply in_map. exact Hb.
  - exfalso. apply Hnot. rewrite <- Hf. apply in_map. exact Ha.
Qed.

Lemma settlements_of_settle rid rid' o s :
  settlements_of rid (settle rid' o s) =
  settlements_of rid s ++ (if String.eqb rid rid' then [o] else []).
Proof.
  unfold settlements_of, settle. cbn [settled].
  rewrite filter_app, map_app. cbn [filter fst].
  destruct (String.eqb rid rid'); reflexivity.
Qed.

Lemma settlements_of_same s s' rid :
  settled s' = settled s -> settlements_of rid s' = settlements_of rid s.
Proof. unfold settlements_of. intros ->. reflexivity. Qed.

Lemma inv_same_registry used s s' :
  same_registry s s' -> requests_inv used s -> requests_inv used s'.
Proof.
  intros (Hr & Ht & Hs) [H1 H2 H3 H4 H5 H6 H7 H8].
  constructor; unfold settlements_of in *; rewrite ?Hr, ?Ht, ?Hs; auto.
Qed.

Lemma inv_weaken used used' s :
  (forall u, In u used -> In u used') ->
  requests_inv used s -> requests_inv used' s.
Proof. intros Hsub [H1 H2 H3 H4 H5 H6 H7 H8]. constructor; auto. Qed.

Lemma same_registry_refl s : same_registry s s.
Proof. repeat split. Qed.

Lemma same_registry_trans s1 s2 s3 :
  same_registry s1 s2 -> same_registry s2 s3 -> same_registry s1 s3.
Proof.
  intros (A1 & A2 & A3) (B1 & B2 & B3). repeat split; congruence.
Qed.

Lemma add_same_registry now m s :
  same_registry s (snd (MessageBuffer_add now m s)).
Proof.
  unfold MessageBuffer_add. destruct (isFull (messageBuffer s)); repeat split.
Qed.

Lemma send_same_registry now m s :
  same_registry s (snd (Starling_send now m s)).
Proof.
  unfold Starling_send. destruct (negb (connected s)).
  - apply add_same_registry.
  - destruct (ws s) as [w|]; [|apply add_same_registry].
    destruct (ws_send w m) as [w' ok]. destruct ok.
    + repeat split.
    + eapply same_registry_trans; [|apply add_same_registry]. repeat split.
Qed.

Lemma standard_same_registry now type data s :
  same_registry s (snd (Starling_standard now type data s)).
Proof. apply send_same_registry. Qed.

Lemma handleNotification_same_registry n s :
  same_registry s (fst (Starling_handleNotification n s)).
Proof.
  unfold Starling_handleNotification.
  destruct (getProp n "type") as [type|e]; [|repeat split].
  destruct (strictEqStr type "starling:token").
  - destruct (getProp n "data") as [data|e]; [|repeat split].
    destruct (getProp data "token"); repeat split.
  - destruct (getProp n "topic") as [topic|e];
      destruct (getProp n "data") as [data|e']; cbn;
      try destruct (truthy topic && truthy data); repeat split.
Qed.

(** The terminal transition of a pending request keeps the invariant,
    records exactly one call of a resolver for it and takes it out of the
    table. *)
Lemma terminate_inv used s request o :
  requests_inv used s ->
  Map_has (pending (requests s)) (id request) = true ->
  requests_inv used (terminate request o s) /\
  settlements_of (id request) (terminate request o s) = [o] /\
  Map_has (pending (requests (terminate request o s))) (id request) = false.
Proof.
  intros [H1 H2 H3 H4 H5 H6 H7 H8] Hpend.
  assert (Hsett : forall rid,
    settlements_of rid (terminate request o s) =
    settlements_of rid s ++ (if String.eqb rid (id request) then [o] else [])).
  { intros rid. unfold terminate, RequestsManager_remove, clearTimeout.
    unfold settlements_of. cbn [settled set_pending set_timers settle].
    rewrite filter_app, map_app. cbn [filter fst].
    destruct (String.eqb rid (id request)); reflexivity. }
  assert (Hpend' : forall rid,
    Map_has (pending (requests (terminate request o s))) rid =
    Map_has (pending (requests s)) rid && negb (String.eqb (id request) rid)).
  { intros rid. unfold terminate, RequestsManager_remove.
    cbn [pending requests set_pending]. apply Map_delete_has. }
  split; [constructor|split].
  - unfold terminate, RequestsManager_remove. cbn [pending requests set_pending].
    apply Map_delete_NoDup. exact H1.
  - intros k r Hin. apply H2.
    unfold terminate, RequestsManager_remove in Hin.
    cbn [pending requests set_pending] in Hin.
    eapply Map_delete_In. exact Hin.
  - intros t Hin. rewrite Hpend'.
    unfold terminate, RequestsManager_remove, clearTimeout in Hin.
    cbn [timers set_pending settle set_timers] in Hin.
    apply filter_In in Hin. destruct Hin as [Hin Hne].
    rewrite (H3 t Hin), Hne. reflexivity.
  - intros rid Hrid. rewrite Hpend' in Hrid.
    apply andb_true_iff in Hrid. destruct Hrid as [Hp Hne].
    rewrite Hsett, (H4 rid Hp).
    apply negb_true_iff in Hne. rewrite String.eqb_sym in Hne. rewrite Hne.
    reflexivity.
  - intros rid. rewrite Hsett.
    destruct (String.eqb_spec rid (id request)) as [->|Hne].
    + rewrite (H4 _ Hpend). cbn. lia.
    + rewrite app_nil_r. apply H5.
  - intros rid Hrid. rewrite Hpend' in Hrid.
    apply andb_true_iff in Hrid. apply H6. tauto.
  - intros rid Hrid. rewrite Hsett in Hrid.
    destruct (String.eqb_spec rid (id request)) as [Heq|Hne].
    + subst rid. apply H6. exact Hpend.
    + rewrite app_nil_r in Hrid. apply H7. exact Hrid.
  - unfold terminate, RequestsManager_remove, clearTimeout.
    cbn [timers set_pending settle set_timers].
    apply timers_filter_NoDup. exact H8.
  - rewrite Hsett, String.eqb_refl, (H4 _ Hpend). reflexivity.
  - rewrite Hpend', String.eqb_refl, andb_false_r. reflexivity.
Qed.

Lemma handleResponse_pending used s response request :
  requests_inv used s ->
  Map_get (pending (requests s)) (requestId response) = Some request ->
  id request = requestId response /\
  RequestsManager_handleResponse response s =
  (terminate request
     (if success response then Resolve (data response)
      else Reject (error response)) s, None).
Proof.
  intros Hinv Hget.
  destruct (inv_entries _ _ Hinv _ _ (Map_get_In _ _ _ Hget)) as [Hid Harmed].
  split; [exact Hid|].
  unfold RequestsManager_handleResponse, Request_handleResponse.
  rewrite Hget, Harmed. destruct (success response); reflexivity.
Qed.

Lemma handleResponse_absent s response :
  Map_has (pending (requests s)) (requestId response) = false ->
  RequestsManager_handleResponse response s = (s, None).
Proof.
  intros Habs. unfold RequestsManager_handleResponse.
  rewrite (Map_has_get_None _ _ Habs). reflexivity.
Qed.

Lemma timer_fires_scheduled used s request :
  requests_inv used s ->
  In request (timers s) ->
  timer_fires (id request) s =
  terminate request (Reject (timeoutError request)) s.
Proof.
  intros Hinv Hin. unfold timer_fires.
  destruct (find (fun t => String.eqb (id request) (id t)) (timers s))
    as [t|] eqn:Hfind.
  - apply find_some in Hfind. destruct Hfind as [Ht Heq].
    apply String.eqb_eq in Heq.
    assert (t = request) as ->
      by (eapply (NoDup_map_inj (@id)); eauto using inv_timer_ids).
    reflexivity.
  - exfalso. apply (find_none _ _ Hfind) in Hin.
    rewrite String.eqb_refl in Hin. discriminate.
Qed.

Lemma timer_fires_cases s rid :
  timer_fires rid s = s \/
  exists request, In request (timers s) /\ id request = rid.
Proof.
  unfold timer_fires.
  destruct (find (fun t => String.eqb rid (id t)) (timers s)) as [t|] eqn:Hfind.
  - right. apply find_some in Hfind. destruct Hfind as [Ht Heq].
    apply String.eqb_eq in Heq. eauto.
  - left. reflexivity.
Qed.

Lemma cancel_pending used s reason request :
  requests_inv used s ->
  In (id request, request) (pending (requests s)) ->
  Request_cancel reason request s =
  (terminate request (Reject (cancelError reason)) s, None).
Proof.
  intros Hinv Hin. unfold Request_cancel.
  destruct (inv_entries _ _ Hinv _ _ Hin) as [_ ->]. reflexivity.
Qed.

(** The loop of [cancelAll] over requests that are all pending, no two
    with the same id. *)
Lemma cancel_each_inv used reason rs : forall s,
  requests_inv used s ->
  (forall r, In r rs -> In (id r, r) (pending (requests s))) ->
  NoDup (map (@id) rs) ->
  snd (cancel_each reason rs s) = None /\
  requests_inv used (fst (cancel_each reason rs s)) /\
  (exists more, settled (fst (cancel_each reason rs s)) = settled s ++ more) /\
  (forall k, In k (map fst (pending (requests (fst (cancel_each reason rs s))))) ->
             ~ In k (map (@id) rs)).
Proof.
  induction rs as [|r rs IH]; intros s Hinv Hpend Hnd; cbn [cancel_each].
  - cbn. split; [reflexivity|]. split; [assumption|]. split; [|tauto].
    exists []. now rewrite app_nil_r.
  - assert (Hr : In (id r, r) (pending (requests s)))
      by (apply Hpend; now left).
    rewrite (cancel_pending _ _ reason r Hinv Hr).
    destruct (terminate_inv _ _ r (Reject (cancelError reason)) Hinv
                (In_Map_has _ _ _ Hr)) as (Hinv' & _ & Hgone).
    inversion Hnd as [|? ? Hnot Hrest]; subst.
    assert (Hpend' : forall r', In r' rs ->
      In (id r', r')
         (pending (requests (terminate r (Reject (cancelError reason)) s)))).
    { intros r' Hr'.
      assert (Hin' : In (id r', r') (pending (requests s)))
        by (apply Hpend; now right).
      unfold terminate, RequestsManager_remove, Map_delete.
      cbn [pending requests set_pending].
      apply filter_In. split; [exact Hin'|]. cbn [fst].
      apply negb_true_iff. apply String.eqb_neq. intros Heq.
      apply Hnot. rewrite Heq. apply in_map. exact Hr'. }
    destruct (IH (terminate r (Reject (cancelError reason)) s) Hinv' Hpend' Hrest)
      as (Hnone & Hinv'' & (more & Hmore) & Hleft).
    split; [exact Hnone|]. split; [exact Hinv''|]. split.
    + exists ((id r, Reject (cancelError reason)) :: more).
      rewrite Hmore. unfold terminate, RequestsManager_remove, clearTimeout.
      cbn [settled set_pending settle set_timers].
      rewrite <- app_assoc. reflexivity.
    + intros k Hk [Heq|Hin]; [|exact (Hleft k Hk Hin)].
      subst k.
      assert (Hsub : forall rs' s',
        (forall k, In k (map fst (pending (requests (fst (cancel_each reason rs' s'))))) ->
                   In k (map fst (pending (requests s'))))).
      { clear. induction rs' as [|r' rs' IH']; intros s' k; cbn [cancel_each].
        - cbn. tauto.
        - unfold Request_cancel. destruct (armed r').
          + intros Hk. apply IH' in Hk.
            unfold RequestsManager_remove in Hk.
            cbn [pending requests set_pending settle clearTimeout set_timers] in Hk.
            apply Map_delete_keys in Hk. tauto.
          + cbn. tauto. }
      apply Hsub in Hk. apply Map_has_keys in Hk. congruence.
Qed.

Lemma set_pending_same s :
  set_pending (pending (requests s)) s = s.
Proof. destruct s as [? ? [?] ? ? ? ? ? ? ? ?]. reflexivity. Qed.

Lemma cancelAll_inv used reason s :
  requests_inv used s ->
  requests_inv used (fst (RequestsManager_cancelAll reason s)) /\
  exists more,
    settled (fst (RequestsManager_cancelAll reason s)) = settled s ++ more.
Proof.
  intros Hinv. unfold RequestsManager_cancelAll.
  assert (Hids : map (@id) (Map_values (pending (requests s))) =
                 map fst (pending (requests s))).
  { unfold Map_values. rewrite map_map. apply map_ext_in.
    intros [k r] Hin. cbn. apply (inv_entries _ _ Hinv _ _ Hin). }
  destruct (cancel_each_inv used reason
              (Map_values (pending (requests s))) s Hinv)
    as (Hnone & Hinv' & (more & Hmore) & Hleft).
  - intros r Hr. unfold Map_values in Hr. apply in_map_iff in Hr.
    destruct Hr as ([k r'] & Heq & Hin). cbn in Heq. subst r'.
    destruct (inv_entries _ _ Hinv _ _ Hin) as [-> _]. exact Hin.
  - rewrite Hids. apply (inv_keys _ _ Hinv).
  - destruct (cancel_each reason (Map_values (pending (requests s))) s)
      as [s1 [e|]] eqn:Hloop; cbn [fst snd] in *; [discriminate|].
    assert (Hempty : pending (requests s1) = []).
    { destruct (pending (requests s1)) as [|[k r] rest] eqn:Hp; [reflexivity|].
      exfalso. apply (Hleft k); [now left|].
      rewrite Hids.
      assert (Hsub : In k (map fst (pending (requests (fst (cancel_each reason
                       (Map_values (pending (requests s))) s)))))).
      { rewrite Hloop. cbn [fst]. rewrite Hp. now left. }
      clear - Hsub. revert Hsub.
      generalize (Map_values (pending (requests s))) as rs. revert s.
      intros s rs. revert s.
      induction rs as [|r' rs' IH']; intros s'; cbn [cancel_each].
      - cbn. tauto.
      - unfold Request_cancel. destruct (armed r').
        + intros Hk. apply IH' in Hk.
          unfold RequestsManager_remove in Hk.
          cbn [pending requests set_pending settle clearTimeout set_timers] in Hk.
          apply Map_delete_keys in Hk. tauto.
        + cbn. tauto. }
    unfold Map_clear. rewrite <- Hempty at 1. rewrite set_pending_same.
    split; [exact Hinv'|]. exists more. exact Hmore.
Qed.

Lemma NoDup_snoc {A} (l : list A) (a : A) :
  NoDup l -> ~ In a l -> NoDup (l ++ [a]).
Proof.
  intros Hnd Hnot. apply NoDup_app; auto.
  - constructor; [tauto|constructor].
  - intros b Hb [Heq|[]]. subst. tauto.
Qed.

(** What [Starling.request] does to the registry when the UUID is not the
    key of a pending request: one armed entry at the end of the table,
    one timer at the end of the scheduler, no call of a resolver. *)
Lemma request_registry uuid now meth pl o s :
  Map_has (pending (requests s)) uuid = false ->
  let request := mkRequest uuid meth pl (mergeRequestOptions o) now true in
  let s' := Starling_request uuid now meth pl o s in
  pending (requests s') = pending (requests s) ++ [(uuid, request)] /\
  timers s' = timers s ++ [request] /\
  settled s' = settled s.
Proof.
  intros Habs request s'. subst s'.
  unfold Starling_request, RequestsManager_create, Request_execute.
  cbn [id Request_new method payload options createdAt].
  match goal with
  | |- context [snd (Starling_standard ?n ?t ?d ?x)] =>
      destruct (standard_same_registry n t d x) as (Hr & Ht & Hs);
      rewrite Hr, Ht, Hs
  end.
  cbn [pending requests set_pending].
  rewrite (Map_set_absent _ _ _ Habs), Map_has_last, Map_set_last by exact Habs.
  repeat split.
Qed.

Lemma request_inv used uuid now method payload o s :
  requests_inv used s ->
  ~ In uuid used ->
  requests_inv (uuid :: used) (Starling_request uuid now method payload o s) /\
  settled (Starling_request uuid now method payload o s) = settled s.
Proof.
  intros Hinv Hfresh.
  assert (Habs : Map_has (pending (requests s)) uuid = false).
  { destruct (Map_has (pending (requests s)) uuid) eqn:Hhas; [|reflexivity].
    exfalso. apply Hfresh. eapply inv_used_pending; eauto. }
  destruct (request_registry uuid now method payload o s Habs)
    as (Hp & Ht & Hs).
  split; [|exact Hs].
  destruct Hinv as [H1 H2 H3 H4 H5 H6 H7 H8].
  assert (Hkeys : forall k,
    Map_has (pending (requests s) ++
             [(uuid, mkRequest uuid method payload (mergeRequestOptions o) now true)]) k
    = true -> Map_has (pending (requests s)) k = true \/ k = uuid).
  { intros k Hk. apply Map_has_keys in Hk.
    rewrite map_app, in_app_iff in Hk. destruct Hk as [Hk|[Hk|[]]].
    - left. apply Map_has_keys. exact Hk.
    - right. cbn in Hk. congruence. }
  assert (Hsett : forall rid,
    settlements_of rid (Starling_request uuid now method payload o s) =
    settlements_of rid s)
    by (intros rid; apply settlements_of_same; exact Hs).
  constructor; rewrite ?Hp, ?Ht.
  - rewrite map_app. cbn [map fst]. apply NoDup_snoc; [exact H1|].
    apply Map_has_false_keys. exact Habs.
  - intros k r Hin. apply in_app_iff in Hin. destruct Hin as [Hin|[Heq|[]]].
    + apply H2. exact Hin.
    + inversion Heq; subst. split; reflexivity.
  - intros t Hin. apply in_app_iff in Hin. apply Map_has_keys.
    rewrite map_app, in_app_iff. destruct Hin as [Hin|[Heq|[]]].
    + left. apply Map_has_keys. apply H3. exact Hin.
    + right. subst t. now left.
  - intros rid Hrid. rewrite Hsett. destruct (Hkeys rid Hrid) as [Hold| ->].
    + apply H4. exact Hold.
    + destruct (settlements_of uuid s) eqn:Hsome; [reflexivity|].
      exfalso. apply Hfresh. apply H7. rewrite Hsome. discriminate.
  - intros rid. rewrite Hsett. apply H5.
  - intros rid Hrid. destruct (Hkeys rid Hrid) as [Hold| ->].
    + right. apply H6. exact Hold.
    + now left.
  - intros rid Hrid. rewrite Hsett in Hrid. right. apply H7. exact Hrid.
  - rewrite map_app. cbn [map id]. apply NoDup_snoc; [exact H8|].
    intros Hin. apply in_map_iff in Hin. destruct Hin as (t & Hid & Hin).
    apply H3 in Hin. rewrite Hid in Hin. congruence.
Qed.

(** Every step keeps the invariant, with the drawn UUID added, and only
    appends to the log of resolver calls. *)
Lemma client_step_inv used e s :
  requests_inv used s ->
  (forall u, In u (uuids [e]) -> ~ In u used) ->
  requests_inv (uuids [e] ++ used) (fst (client_step e s)) /\
  exists more, settled (fst (client_step e s)) = settled s ++ more.
Proof.
  intros Hinv Hfresh.
  destruct e as [uuid now method payload o|now m|rid|reason|w];
    cbn [client_step uuids fst app].
  - destruct (request_inv used uuid now method payload o s Hinv) as [Hi Hs].
    + apply Hfresh. now left.
    + split; [exact Hi|]. exists []. rewrite app_nil_r. exact Hs.
  - unfold Starling_handleJsonMessage.
    set (s1 := emit (MessageReceived (messageType m)) s).
    assert (Hinv1 : requests_inv used s1)
      by (apply (inv_same_registry used s); [repeat split|exact Hinv]).
    assert (Hkeep : forall s',
      same_registry s1 s' ->
      requests_inv used s' /\ exists more, settled s' = settled s ++ more).
    { intros s' Hsame. split; [eapply inv_same_registry; eauto|].
      exists []. rewrite app_nil_r. apply Hsame. }
    destruct m as [requestId method payload timestamp|response|notification|err].
    + destruct (MethodsManager_get method s1); cbn [fst]; apply Hkeep.
      * repeat split.
      * apply standard_same_registry.
    + destruct (Map_get (pending (requests s1)) (requestId response))
        as [request|] eqn:Hget.
      * destruct (handleResponse_pending used s1 response request Hinv1 Hget)
          as [Hid ->]. cbn [fst].
        destruct (terminate_inv used s1 request
                    (if success response then Resolve (data response)
                     else Reject (error response)) Hinv1) as (Hi & _ & _).
        { rewrite Hid. unfold Map_has. rewrite Hget. reflexivity. }
        split; [exact Hi|]. eexists.
        unfold terminate, RequestsManager_remove, clearTimeout.
        cbn [settled set_pending settle set_timers]. reflexivity.
      * unfold RequestsManager_handleResponse. rewrite Hget. cbn [fst].
        apply Hkeep. apply same_registry_refl.
    + apply Hkeep. apply handleNotification_same_registry.
    + cbn [fst]. apply Hkeep. apply same_registry_refl.
  - destruct (timer_fires_cases s rid) as [->|(request & Hin & <-)].
    + split; [exact Hinv|]. exists []. now rewrite app_nil_r.
    + rewrite (timer_fires_scheduled used s request Hinv Hin).
      destruct (terminate_inv used s request (Reject (timeoutError request))
                  Hinv (inv_timers _ _ Hinv _ Hin)) as (Hi & _ & _).
      split; [exact Hi|]. eexists.
      unfold terminate, RequestsManager_remove, clearTimeout.
      cbn [settled set_pending settle set_timers]. reflexivity.
  - apply cancelAll_inv. exact Hinv.
  - split; [|exists []; now rewrite app_nil_r].
    apply (inv_same_registry used s); [repeat split|exact Hinv].
Qed.

Lemma uuids_app es es' : uuids (es ++ es') = uuids es ++ uuids es'.
Proof.
  induction es as [|e es IH]; cbn; [reflexivity|].
  destruct e; cbn; rewrite IH; reflexivity.
Qed.

Lemma client_run_app es es' s :
  client_run (es ++ es') s = client_run es' (client_run es s).
Proof.
  revert s. induction es as [|e es IH]; intros s; cbn; [reflexivity|].
  apply IH.
Qed.

Lemma client_run_inv es : forall used s,
  requests_inv used s ->
  NoDup (uuids es) ->
  (forall u, In u (uuids es) -> ~ In u used) ->
  requests_inv (uuids es ++ used) (client_run es s) /\
  exists more, settled (client_run es s) = settled s ++ more.
Proof.
  induction es as [|e es IH]; intros used s Hinv Hnd Hfresh; cbn [client_run].
  - cbn. split; [exact Hinv|]. exists []. now rewrite app_nil_r.
  - change (e :: es) with ([e] ++ es) in Hnd, Hfresh.
    rewrite uuids_app in Hnd, Hfresh.
    destruct (client_step_inv used e s Hinv) as (Hi & more1 & Hm1).
    { intros u Hu. apply Hfresh. apply in_app_iff. now left. }
    destruct (IH (uuids [e] ++ used) (fst (client_step e s)) Hi)
      as (Hi' & more2 & Hm2).
    + eapply NoDup_app_remove_l. exact Hnd.
    + intros u Hu Hin. apply in_app_iff in Hin. destruct Hin as [Hin|Hin].
      * clear - Hnd Hu Hin. induction (uuids [e]) as [|a l IHl]; [destruct Hin|].
        cbn in Hnd. inversion Hnd as [|? ? Hnot Hrest]; subst.
        destruct Hin as [->|Hin]; [|auto].
        apply Hnot. apply in_app_iff. now right.
      * apply (Hfresh u); [apply in_app_iff; now right|exact Hin].
    + split.
      * eapply inv_weaken; [|exact Hi'].
        intros u Hu. change (e :: es) with ([e] ++ es). rewrite uuids_app.
        rewrite !in_app_iff in *. tauto.
      * exists (more1 ++ more2). rewrite Hm2, Hm1, app_assoc. reflexivity.
Qed.

Lemma Starling_new_inv : requests_inv [] Starling_new.
Proof.
  constructor; cbn; try (intros; discriminate); try constructor; try tauto.
  intros; lia.
Qed.

(** Once a resolver of a request has been called, no later step of a run
    calls one again and the request stays out of the table. *)
Lemma settled_stays used s es rid :
  requests_inv used s ->
  NoDup (uuids es) ->
  (forall u, In u (uuids es) -> ~ In u used) ->
  settlements_of rid s <> [] ->
  settlements_of rid (client_run es s) = settlements_of rid s /\
  Map_has (pending (requests (client_run es s))) rid = false.
Proof.
  intros Hinv Hnd Hfresh Hdone.
  destruct (client_run_inv es used s Hinv Hnd Hfresh) as (Hi & more & Hmore).
  assert (Hsame : settlements_of rid (client_run es s) = settlements_of rid s).
  { pose proof (inv_once _ _ Hi rid) as Hone.
    unfold settlements_of in *. rewrite Hmore, filter_app, map_app in *.
    destruct (map snd (filter (fun e => String.eqb rid (fst e)) (settled s)))
      as [|x l]; [congruence|].
    destruct (map snd (filter (fun e => String.eqb rid (fst e)) more))
      as [|y l']; [now rewrite app_nil_r|].
    rewrite length_app in Hone. cbn in Hone. lia. }
  split; [exact Hsame|].
  destruct (Map_has (pending (requests (client_run es s))) rid) eqn:Hhas;
    [|reflexivity].
  exfalso. apply Hdone. rewrite <- Hsame. apply (inv_pending _ _ Hi). exact Hhas.
Qed.

End RegistryFacts.

(** C1.  In any run of a client whose request UUIDs are pairwise distinct:
    when the timer of a pending request expires, the request is rejected
    with code REQUEST_TIMEOUT and leaves the pending table; whatever happens
    afterwards, a response frame that then arrives with its [requestId] is
    dropped without a trace other than the [message:response] event (the
    registry returns the client unchanged, no resolver is called); and in the
    whole run no request sees more than one call of a resolver. *)
Theorem late_response_dropped (es es' : list ClientEvent) (request : Request)
  (now : Z) (response : Response) :
  NoDup (uuids (es ++ es')) ->
  In request (timers (client_run es Starling_new)) ->
  requestId response = id request ->
  let s := client_run es Starling_new in
  let s1 := timer_fires (id request) s in
  let s2 := client_run es' s1 in
  let s3 := fst (Starling_handleJsonMessage now (MResponse response) s2) in
  settlements_of (id request) s = [] /\
  settlements_of (id request) s1 = [Reject (timeoutError request)] /\
  RequestsManager_get (id request) s1 = None /\
  RequestsManager_handleResponse response s2 = (s2, None) /\
  Starling_handleJsonMessage now (MResponse response) s2 =
    (emit (MessageReceived "response") s2, None) /\
  settlements_of (id request) s3 = [Reject (timeoutError request)] /\
  (forall rid, List.length (settlements_of rid s3) <= 1).
Proof.
  intros Hnd Htimer Hrid s s1 s2 s3.
  rewrite uuids_app in Hnd.
  assert (Hnd1 : NoDup (uuids es)) by (eapply NoDup_app_remove_r; eauto).
  assert (Hnd2 : NoDup (uuids es')) by (eapply NoDup_app_remove_l; eauto).
  destruct (client_run_inv es [] Starling_new Starling_new_inv Hnd1)
    as [Hinv _]; [intros u _ []|].
  fold s in Hinv.
  pose proof (inv_timers _ _ Hinv _ Htimer) as Hpending.
  destruct (terminate_inv _ s request (Reject (timeoutError request)) Hinv Hpending)
    as (Hinv1 & Hone & Hgone).
  rewrite <- (timer_fires_scheduled _ s request Hinv Htimer) in Hinv1, Hone, Hgone.
  fold s1 in Hinv1, Hone, Hgone.
  assert (Hfresh : forall u, In u (uuids es') -> ~ In u (uuids es ++ [])).
  { intros u Hu Hin. rewrite app_nil_r in Hin.
    clear - Hnd Hu Hin. induction (uuids es) as [|a l IHl]; [destruct Hin|].
    cbn in Hnd. inversion Hnd as [|? ? Hnot Hrest]; subst.
    destruct Hin as [->|Hin]; [|auto].
    apply Hnot. apply in_app_iff. now right. }
  destruct (settled_stays _ s1 es' (id request) Hinv1 Hnd2 Hfresh)
    as [Hstay Hout]; [rewrite Hone; discriminate|].
  fold s2 in Hstay, Hout.
  destruct (client_run_inv es' _ s1 Hinv1 Hnd2 Hfresh) as [Hinv2 _].
  fold s2 in Hinv2.
  assert (Hdrop : RequestsManager_handleResponse response s2 = (s2, None))
    by (apply handleResponse_absent; rewrite Hrid; exact Hout).
  assert (Hframe : Starling_handleJsonMessage now (MResponse response) s2 =
                   (emit (MessageReceived "response") s2, None)).
  { unfold Starling_handleJsonMessage. cbn [messageType].
    apply handleResponse_absent. rewrite Hrid. exact Hout. }
  subst s3. rewrite Hframe. cbn [fst].
  split; [apply (inv_pending _ _ Hinv); exact Hpending|].
  split; [exact Hone|].
  split; [unfold RequestsManager_get; apply Map_has_get_None; exact Hgone|].
  split; [exact Hdrop|]. split; [reflexivity|].
  split; [rewrite <- Hone, <- Hstay; reflexivity|].
  intros rid. apply (inv_once _ _ Hinv2 rid).
Qed.

(** C1 on the scenario of a request to [slow] with a timeout of 50 ms that
    times out before its response arrives. *)
Lemma late_response_dropped_witness :
  let es := [EvRequest "00000000-0000-4000-8000-000000000001" 0 "slow"
               (JObj []) (mkRequestOptionsArg (Some 50%Z) None)] in
  let request := mkRequest "00000000-0000-4000-8000-000000000001" "slow"
                   (JObj []) (mkRequestOptions 50 true) 0 true in
  let response := mkResponse "00000000-0000-4000-8000-000000000001" true
                    (JStr "late") JUndefined in
  let s2 := timer_fires (id request) (client_run es Starling_new) in
  NoDup (uuids (es ++ [])) /\
  In request (timers (client_run es Starling_new)) /\
  requestId response = id request /\
  RequestsManager_handleResponse response s2 = (s2, None) /\
  settlements_of (id request) s2 = [Reject (timeoutError request)].
Proof.
  intros es request response s2.
  assert (Hnd : NoDup (uuids (es ++ []))) by (repeat constructor; cbn; tauto).
  assert (Hin : In request (timers (client_run es Starling_new)))
    by (left; reflexivity).
  pose proof (late_response_dropped es [] request 200 response Hnd Hin eq_refl)
    as H.
  cbv zeta in H. cbn [client_run] in H.
  destruct H as (_ & Hrejected & _ & Hdropped & _).
  split; [exact Hnd|]. split; [exact Hin|]. split; [reflexivity|].
  split; [exact Hdropped|exact Hrejected].
Defined.

(** ** The method registry *)

Section MethodFacts.

Lemma split_nonempty sep s : split sep s <> [].
Proof.
  destruct s as [|c s]; cbn; [discriminate|].
  destruct (Ascii.eqb c sep); [discriminate|].
  destruct (split sep s); discriminate.
Qed.

Lemma split_head_length sep s :
  String.length (hd EmptyString (split sep s)) <= String.length s.
Proof.
  induction s as [|c s IH]; cbn; [lia|].
  destruct (Ascii.eqb c sep); cbn; [lia|].
  destruct (split sep s) as [|segment segments]; cbn in *; lia.
Qed.

Lemma namespaceOf_length name :
  String.length (namespaceOf name) <= String.length name.
Proof. apply split_head_length. Qed.

Lemma reserved_length ns :
  Set_has reservedNamespaces ns = true -> 6 <= String.length ns.
Proof.
  unfold Set_has, reservedNamespaces. cbn [existsb].
  repeat match goal with
         | |- context [String.eqb ns ?x] =>
             destruct (String.eqb_spec ns x) as [->|_]; [cbn; lia|]
         end.
  cbn. discriminate.
Qed.

Lemma Map_set_has {V} (m : JsMap V) k v k' :
  Map_has (Map_set m k v) k' = Map_has m k' || String.eqb k k'.
Proof.
  unfold Map_has. induction m as [|[k0 v0] m IH]; cbn.
  - rewrite (String.eqb_sym k' k). destruct (String.eqb k k'); reflexivity.
  - destruct (String.eqb_spec k k0) as [->|Hne]; cbn.
    + destruct (String.eqb_spec k' k0) as [->|Hne'].
      * reflexivity.
      * destruct (String.eqb_spec k0 k'); [congruence|].
        now rewrite orb_false_r.
    + destruct (String.eqb_spec k' k0) as [->|Hne']; [reflexivity|].
      exact IH.
Qed.

Lemma validate_ok_reserved name s n :
  registry_inv s ->
  validateMethodName name s = Ok n ->
  name = JStr n /\ Set_has reservedNamespaces (namespaceOf n) = false.
Proof.
  intros [Hres _]. unfold validateMethodName.
  destruct name as [| |b|q|str|items|props]; try discriminate.
  destruct (negb (truthy (JStr str))); [discriminate|].
  destruct (String.length str <? 3); [discriminate|].
  destruct (negb (methodNamePattern str)); [discriminate|].
  destruct (Map_has (methods (methodsManager s)) str); [discriminate|].
  rewrite Hres.
  destruct (Set_has reservedNamespaces (namespaceOf str)) eqn:Hns;
    [discriminate|].
  intros [= <-]. auto.
Qed.

Lemma method_inv name handler o s s' :
  registry_inv s ->
  Starling_method name handler o s = Ok s' ->
  registry_inv s'.
Proof.
  intros Hinv. unfold Starling_method, MethodsManager_add.
  destruct (validateMethodName name s) as [n|e] eqn:Hval; [|discriminate].
  destruct (validate_ok_reserved name s n Hinv Hval) as [_ Hns].
  intros [= <-]. destruct Hinv as [Hres Hreg]. split; [exact Hres|].
  intros k. cbn [methods methodsManager emit set_methods].
  rewrite Map_set_has. intros Hk. apply orb_true_iff in Hk.
  destruct Hk as [Hk|Hk]; [apply Hreg; exact Hk|].
  apply String.eqb_eq in Hk. subst k. exact Hns.
Qed.

Lemma register_all_inv calls : forall s,
  registry_inv s -> registry_inv (register_all calls s).
Proof.
  induction calls as [|[[name handler] o] calls IH]; intros s Hinv;
    cbn [register_all]; [exact Hinv|].
  destruct (Starling_method name handler o s) as [s1|e] eqn:Hcall.
  - apply IH. eapply method_inv; eauto.
  - apply IH. exact Hinv.
Qed.

Lemma Starling_new_registry_inv : registry_inv Starling_new.
Proof. split; [reflexivity|]. intros n. cbn. discriminate. Qed.

(** Validation of a name of at least three characters, not registered, in
    a registry that satisfies the invariant. *)
Lemma validate_long_unregistered n s :
  registry_inv s ->
  3 <= String.length n ->
  Map_has (methods (methodsManager s)) n = false ->
  validateMethodName (JStr n) s =
  if methodNamePattern n then
    if Set_has reservedNamespaces (namespaceOf n)
    then Throw (Error (reservedMessage (namespaceOf n)))
    else Ok n
  else Throw (Error patternMessage).
Proof.
  intros [Hres _] Hlen Hnew. unfold validateMethodName.
  assert (Htruthy : truthy (JStr n) = true)
    by (destruct n; cbn in *; [lia|reflexivity]).
  rewrite Htruthy. cbn [negb].
  destruct (Nat.ltb_spec (String.length n) 3); [lia|].
  destruct (methodNamePattern n); cbn [negb]; [|reflexivity].
  rewrite Hnew, Hres. reflexivity.
Qed.

End MethodFacts.

(** C8, as the code has it.  After any sequence of registrations, a name
    whose namespace (the part before the first colon, or the whole name) is
    one of system, internal, stream and helios is rejected: with the
    reserved-namespace error when it matches the pattern of method names,
    with the error of the pattern check, which runs first, when it does
    not. *)
Theorem reserved_namespace_rejected (calls : list (JsVal * nat * option Z))
  (name : string) (handler : nat) (o : option Z) :
  Set_has reservedNamespaces (namespaceOf name) = true ->
  Starling_method (JStr name) handler o (register_all calls Starling_new) =
  Throw (Error (if methodNamePattern name
                then reservedMessage (namespaceOf name)
                else patternMessage)).
Proof.
  intros Hns.
  pose proof (register_all_inv calls Starling_new Starling_new_registry_inv)
    as Hinv.
  pose proof (reserved_length _ Hns) as Hlen.
  pose proof (namespaceOf_length name) as Hpre.
  assert (Hnew : Map_has (methods (methodsManager (register_all calls Starling_new)))
                   name = false).
  { destruct (Map_has _ name) eqn:Hhas; [|reflexivity].
    apply (proj2 Hinv) in Hhas. congruence. }
  unfold Starling_method, MethodsManager_add.
  rewrite (validate_long_unregistered name _ Hinv ltac:(lia) Hnew), Hns.
  destruct (methodNamePattern name); reflexivity.
Qed.

(** C8 at [system:x]: the reserved-namespace error. *)
Lemma reserved_namespace_rejected_witness :
  Set_has reservedNamespaces (namespaceOf "system:x") = true /\
  Starling_method (JStr "system:x") 0 None Starling_new =
  Throw (Error (reservedMessage "system")).
Proof.
  split; [reflexivity|].
  exact (reserved_namespace_rejected [] "system:x" 0 None eq_refl).
Defined.

(** C8 as stated fails: [system:a-b] lies in the namespace [system] and is
    rejected with the error of the pattern check, not with the
    reserved-namespace error. *)
Lemma reserved_namespace_error_counterexample :
  Set_has reservedNamespaces (namespaceOf "system:a-b") = true /\
  Starling_method (JStr "system:a-b") 0 None Starling_new =
    Throw (Error patternMessage) /\
  Starling_method (JStr "system:a-b") 0 None Starling_new <>
    Throw (Error (reservedMessage (namespaceOf "system:a-b"))).
Proof.
  split; [reflexivity|]. split; [reflexivity|].
  vm_compute. discriminate.
Qed.

(** C5, as the code has it.  After any sequence of registrations, a name in
    the namespace [starling] that matches the pattern of method names and is
    not registered yet is accepted: the call returns normally, emits
    [method:added] and stores the method, which [get] then finds. *)
Theorem starling_namespace_registrable (calls : list (JsVal * nat * option Z))
  (name : string) (handler : nat) (o : option Z) :
  let s := register_all calls Starling_new in
  let method := mkMethod name handler (mergeMethodOptions o) in
  namespaceOf name = "starling" ->
  methodNamePattern name = true ->
  MethodsManager_get name s = None ->
  Starling_method (JStr name) handler o s =
    Ok (emit (MethodAdded name)
          (set_methods (Map_set (methods (methodsManager s)) name method) s)) /\
  (forall s', Starling_method (JStr name) handler o s = Ok s' ->
              MethodsManager_get name s' = Some method).
Proof.
  intros s method Hns Hpat Hnew.
  pose proof (register_all_inv calls Starling_new Starling_new_registry_inv)
    as Hinv.
  fold s in Hinv.
  pose proof (namespaceOf_length name) as Hpre. rewrite Hns in Hpre.
  cbn [String.length] in Hpre.
  assert (Hhas : Map_has (methods (methodsManager s)) name = false)
    by (unfold Map_has; unfold MethodsManager_get in Hnew; now rewrite Hnew).
  assert (Hcall : Starling_method (JStr name) handler o s =
    Ok (emit (MethodAdded name)
          (set_methods (Map_set (methods (methodsManager s)) name method) s))).
  { unfold Starling_method, MethodsManager_add.
    rewrite (validate_long_unregistered name s Hinv ltac:(lia) Hhas).
    rewrite Hpat, Hns. reflexivity. }
  split; [exact Hcall|].
  intros s' Hs'. rewrite Hcall in Hs'. injection Hs' as <-.
  unfold MethodsManager_get. cbn [methods methodsManager emit set_methods].
  pose proof (Map_set_has (methods (methodsManager s)) name method name) as H.
  rewrite String.eqb_refl, orb_true_r in H. unfold Map_has in H.
  destruct (Map_get (Map_set (methods (methodsManager s)) name method) name)
    as [m|] eqn:Hget; [|discriminate].
  f_equal.
  clear - Hget. revert Hget.
  induction (methods (methodsManager s)) as [|[k v] l IH]; cbn.
  - rewrite String.eqb_refl. congruence.
  - destruct (String.eqb_spec name k) as [->|Hne]; cbn.
    + rewrite String.eqb_refl. congruence.
    + destruct (String.eqb_spec name k); [congruence|]. exact IH.
Qed.

(** C5 at [starling:state] on a new client. *)
Lemma starling_namespace_registrable_witness :
  namespaceOf "starling:state" = "starling" /\
  methodNamePattern "starling:state" = true /\
  MethodsManager_get "starling:state" Starling_new = None /\
  exists s', Starling_method (JStr "starling:state") 0 None Starling_new = Ok s'.
Proof.
  split; [reflexivity|]. split; [reflexivity|]. split; [reflexivity|].
  eexists.
  exact (proj1 (starling_namespace_registrable [] "starling:state" 0 None
                  eq_refl eq_refl eq_refl)).
Defined.

(** C5 as stated fails: registering [starling:state] and [starling:getToken]
    does not throw. *)
Lemma starling_namespace_reserved_counterexample :
  namespaceOf "starling:state" = "starling" /\
  namespaceOf "starling:getToken" = "starling" /\
  (forall e, Starling_method (JStr "starling:state") 0 None Starling_new
             <> Throw e) /\
  (forall e, Starling_method (JStr "starling:getToken") 0 None Starling_new
             <> Throw e).
Proof.
  split; [reflexivity|]. split; [reflexivity|].
  split; intros e; vm_compute; discriminate.
Qed.

(** ** Routing of inbound notifications *)

(** C6, as the code has it.  A valid notification frame whose notification
    is an object of a type other than [starling:token] is dispatched to the
    topic subscribers when its [topic] and its [data] are both truthy, and
    handed to the [onnotification] hook otherwise.  A [requestId] is not
    consulted and the request registry not touched, whether or not the id is
    that of a pending request. *)
Theorem notification_routing (now : Z) (props : list (string * JsVal))
  (s : Starling) :
  let notification := JObj props in
  let topic := lookupProp "topic" props in
  let data := lookupProp "data" props in
  let s1 := emit (MessageReceived "notification") s in
  let result := Starling_handleJsonMessage now (MNotification notification) s in
  strictEqStr (lookupProp "type" props) "starling:token" = false ->
  result =
    (if truthy topic && truthy data
     then topics_emit topic data s1
     else hooks_emit (HookNotification notification) s1, None) /\
  observed_route s result =
    (if truthy topic && truthy data then ToTopic topic data else ToHook) /\
  same_registry s (fst result).
Proof.
  intros notification topic data s1 result Htype.
  assert (Hresult : result =
    (if truthy topic && truthy data
     then topics_emit topic data s1
     else hooks_emit (HookNotification notification) s1, None)).
  { subst result notification topic data s1.
    unfold Starling_handleJsonMessage, Starling_handleNotification.
    cbn [getProp messageType]. rewrite Htype.
    destruct (truthy (lookupProp "topic" props) &&
              truthy (lookupProp "data" props)); reflexivity. }
  rewrite Hresult. split; [reflexivity|].
  destruct (truthy topic && truthy data); unfold observed_route;
    cbn [topics hooks topics_emit hooks_emit emit s1 fst];
    rewrite !skipn_app, !skipn_all, !Nat.sub_diag; cbn;
    repeat split.
Qed.

(** C6 on a progress notification for a pending request. *)
Lemma notification_routing_witness :
  let s := Starling_request "00000000-0000-4000-8000-000000000001" 0 "download"
             (JObj []) (mkRequestOptionsArg None None) Starling_new in
  let props := [("requestId", JStr "00000000-0000-4000-8000-000000000001");
                ("data", JObj [("percent", JNum 50)])] in
  strictEqStr (lookupProp "type" props) "starling:token" = false /\
  observed_route s (Starling_handleJsonMessage 1 (MNotification (JObj props)) s)
  = ToHook.
Proof.
  intros s props. split; [reflexivity|].
  exact (proj1 (proj2 (notification_routing 1 props s eq_refl))).
Defined.

(** C6 as stated fails.  A notification that carries the [requestId] of a
    pending request, and no topic, is to reach that request's stream; the
    code hands it to the [onnotification] hook and leaves the request alone.
    A notification with a topic and without data is to reach the topic's
    subscribers; the code hands it to the hook as well. *)
Lemma notification_routing_counterexample :
  let rid := "00000000-0000-4000-8000-000000000001" in
  let s := Starling_request rid 0 "download" (JObj [])
             (mkRequestOptionsArg None None) Starling_new in
  let progress := JObj [("requestId", JStr rid);
                        ("data", JObj [("percent", JNum 50)])] in
  let bare := JObj [("topic", JStr "ping")] in
  Map_has (pending (requests s)) rid = true /\
  spec_route progress s = ToRequestStream rid /\
  observed_route s (Starling_handleJsonMessage 1 (MNotification progress) s)
    = ToHook /\
  hooks (fst (Starling_handleJsonMessage 1 (MNotification progress) s))
    = [HookNotification progress] /\
  settlements_of rid (fst (Starling_handleJsonMessage 1 (MNotification progress) s))
    = [] /\
  spec_route bare s = ToTopic (JStr "ping") JUndefined /\
  observed_route s (Starling_handleJsonMessage 1 (MNotification bare) s)
    = ToHook /\
  spec_route progress s <>
    observed_route s (Starling_handleJsonMessage 1 (MNotification progress) s).
Proof.
  cbv zeta. repeat split; try reflexivity.
  vm_compute. discriminate.
Qed.

(** ** The reconnection scheduler *)

Section ReconnectionFacts.
Import ReconnectionManager.
Context {num : Type} {N : JsNumber num}.
Implicit Types (m : Manager num) (script : list Round).

Lemma waits_app (a b : list (Effect num)) : waits (a ++ b) = waits a ++ waits b.
Proof.
  induction a as [|e a IH]; cbn; [reflexivity|].
  destruct e; cbn; rewrite IH; reflexivity.
Qed.

Lemma backoff_length (o : Options num) n d : List.length (backoff o n d) = n.
Proof. revert d. induction n as [|n IH]; intros d; cbn; auto. Qed.

Lemma steady_refl m : steady m m.
Proof. repeat split. Qed.

Lemma steady_trans m1 m2 m3 : steady m1 m2 -> steady m2 m3 -> steady m1 m3.
Proof. intros (A & B & C) (D & E & F). repeat split; congruence. Qed.

Lemma stop_steady m : steady m (stop m).
Proof. repeat split. Qed.

Lemma set_currentAttempt_steady b m : steady m (set_currentAttempt b m).
Proof. repeat split. Qed.

Lemma onConnected_steady now m : steady m (onConnected now m).
Proof. repeat split. Qed.

Lemma beginAttempt_steady now m : steady m (beginAttempt now m).
Proof.
  repeat split. unfold beginAttempt. cbn [effects set_currentAttempt effect].
  rewrite waits_app. cbn. now rewrite app_nil_r.
Qed.

Lemma failAttempt_steady m : steady m (failAttempt m).
Proof.
  repeat split. unfold failAttempt. cbn [effects effect].
  rewrite waits_app. cbn. now rewrite app_nil_r.
Qed.

Lemma beginAttempt_active now m : active (beginAttempt now m) = active m.
Proof. reflexivity. Qed.

Lemma failAttempt_active m : active (failAttempt m) = active m.
Proof. reflexivity. Qed.

(** [schedule] either sets no timer and keeps the current delay, or sets
    one timer for the next delay, which becomes the current one. *)
Lemma schedule_cases m :
  (snd (schedule m) = false /\ steady m (fst (schedule m))) \/
  (snd (schedule m) = true /\
   options (fst (schedule m)) = options m /\
   active (fst (schedule m)) = true /\
   currentDelay (metrics (fst (schedule m))) = nextDelay m /\
   waits (effects (fst (schedule m))) = waits (effects m) ++ [nextDelay m]).
Proof.
  unfold schedule. destruct (active m) eqn:Hact; cbn [negb].
  - destruct (reachedMax m).
    + left. split; [reflexivity|]. repeat split. cbn.
      rewrite waits_app. cbn. now rewrite app_nil_r.
    + right. cbn. rewrite Hact, !waits_app. cbn.
      rewrite app_nil_r. repeat split.
  - left. split; [reflexivity|apply steady_refl].
Qed.

(** From any manager, the timers that a run of the loop sets are a
    backoff sequence that continues from the manager's current delay. *)
Lemma attemptReconnection_waits script : forall m,
  options (fst (attemptReconnection script m)) = options m /\
  exists k,
    waits (effects (fst (attemptReconnection script m))) =
    waits (effects m) ++ backoff (options m) k (currentDelay (metrics m)).
Proof.
  induction script as [|r rest IH]; intros m; cbn [attemptReconnection].
  - destruct (negb (active m)); cbn; (split; [reflexivity|]);
      exists 0; cbn; now rewrite app_nil_r.
  - destruct (negb (active m));
      [cbn; split; [reflexivity|]; exists 0; cbn; now rewrite app_nil_r|].
    destruct r as [|now outcome];
      [cbn; split; [reflexivity|]; exists 0; cbn; now rewrite app_nil_r|].
    pose proof (beginAttempt_steady now m) as (Ho1 & Hd1 & Hw1).
    destruct outcome as [|t|].
    + pose proof (failAttempt_steady (beginAttempt now m)) as (Ho2 & Hd2 & Hw2).
      destruct (schedule_cases (failAttempt (beginAttempt now m)))
        as [(Hno & Ho3 & Hd3 & Hw3)|(Hyes & Ho3 & Hact & Hd3 & Hw3)];
        destruct (schedule (failAttempt (beginAttempt now m))) as [m2 waiting];
        cbn [fst snd] in *; subst waiting.
      * cbn. split; [congruence|]. exists 0. cbn.
        rewrite app_nil_r. congruence.
      * assert (Hnext : nextDelay (failAttempt (beginAttempt now m)) =
                        num_min (num_mul (currentDelay (metrics m))
                                   (backoffMultiplier (options m)))
                          (maxDelay (options m))).
        { unfold nextDelay. rewrite Hd2, Hd1, Ho2, Ho1. reflexivity. }
        assert (Hone : waits (effects m2) =
                       waits (effects m) ++
                       backoff (options m) 1 (currentDelay (metrics m))).
        { cbn. rewrite Hw3, Hw2, Hw1, Hnext. reflexivity. }
        destruct rest as [|[|now' outcome'] rest'].
        -- cbn. split; [congruence|]. exists 1. exact Hone.
        -- cbn. split; [congruence|]. exists 1. exact Hone.
        -- destruct (IH m2) as (Ho4 & k & Hk).
           destruct (attemptReconnection (Attempt now' outcome' :: rest') m2)
             as [m3 returned]; cbn [fst] in *.
           assert (Hall : waits (effects m3) =
                          waits (effects m) ++
                          backoff (options m) (S k) (currentDelay (metrics m))).
           { rewrite Hk, Hw3, Hw2, Hw1, Hd3, Hnext, Ho3, Ho2, Ho1.
             cbn. rewrite <- app_assoc. reflexivity. }
           destruct returned; cbn; (split; [congruence|]); exists (S k);
             exact Hall.
    + cbn. split; [reflexivity|]. exists 0. cbn. rewrite app_nil_r.
      rewrite waits_app. cbn. now rewrite app_nil_r.
    + cbn. split; [reflexivity|]. exists 0. cbn. rewrite app_nil_r.
      rewrite waits_app. cbn. now rewrite app_nil_r.
Qed.

Lemma scheduleNextAttempt_waits script m :
  exists k,
    waits (effects (fst (scheduleNextAttempt script m))) =
    waits (effects m) ++ backoff (options m) k (currentDelay (metrics m)).
Proof.
  unfold scheduleNextAttempt.
  destruct (schedule_cases m)
    as [(Hno & Ho & Hd & Hw)|(Hyes & Ho & Hact & Hd & Hw)];
    destruct (schedule m) as [m1 waiting]; cbn [fst snd] in *; subst waiting.
  - exists 0. cbn. rewrite app_nil_r. exact Hw.
  - assert (Hone : waits (effects m1) =
                   waits (effects m) ++
                   backoff (options m) 1 (currentDelay (metrics m)))
      by (cbn; rewrite Hw; reflexivity).
    destruct script as [|[|now outcome] rest].
    + exists 1. exact Hone.
    + exists 1. exact Hone.
    + destruct (attemptReconnection_waits (Attempt now outcome :: rest) m1)
        as (_ & k & Hk).
      exists (S k). rewrite Hk, Hw, Hd, Ho. cbn. rewrite <- app_assoc.
      reflexivity.
Qed.

(** With no cap on the attempts, a loop whose attempts all fail sets one
    timer more than it has seen failures. *)
Lemma attemptReconnection_failures times : forall m,
  active m = true ->
  maxAttempts (options m) = None ->
  waits (effects (fst (attemptReconnection (failures times) m))) =
  waits (effects m) ++
  backoff (options m) (List.length times) (currentDelay (metrics m)).
Proof.
  induction times as [|now times IH]; intros m Hact Hcap;
    cbn [failures map attemptReconnection]; rewrite Hact; cbn [negb].
  - cbn. now rewrite app_nil_r.
  - pose proof (beginAttempt_steady now m) as (Ho1 & Hd1 & Hw1).
    pose proof (failAttempt_steady (beginAttempt now m)) as (Ho2 & Hd2 & Hw2).
    set (m1 := failAttempt (beginAttempt now m)) in *.
    assert (Hsched : schedule m1 =
      (set_timeoutId true
         (effect (SetTimeout (nextDelay m1))
            (effect (Scheduled (getMetrics (set_currentDelay (nextDelay m1) m1)))
               (set_currentDelay (nextDelay m1) m1))), true)).
    { unfold schedule, reachedMax.
      replace (active m1) with true by (symmetry; exact Hact).
      rewrite Ho2, Ho1, Hcap. reflexivity. }
    rewrite Hsched.
    set (m2 := set_timeoutId true _) in *.
    assert (Hnext : nextDelay m1 =
                    num_min (num_mul (currentDelay (metrics m))
                               (backoffMultiplier (options m)))
                      (maxDelay (options m))).
    { unfold nextDelay. rewrite Hd2, Hd1, Ho2, Ho1. reflexivity. }
    assert (Hw3 : waits (effects m2) = waits (effects m) ++ [nextDelay m1]).
    { subst m2. cbn. rewrite !waits_app. cbn. rewrite !app_nil_r.
      reflexivity. }
    assert (Ho3 : options m2 = options m) by (subst m2; cbn; congruence).
    assert (Hd3 : currentDelay (metrics m2) = nextDelay m1) by reflexivity.
    assert (Hact3 : active m2 = true) by exact Hact.
    clearbody m2. clear Hsched.
    destruct times as [|now' times'].
    + cbn [map fst List.length backoff]. rewrite Hw3, Hnext. reflexivity.
    + change (map (fun now0 => Attempt now0 ConnectFailed) (now' :: times'))
        with (Attempt now' ConnectFailed ::
              map (fun now0 => Attempt now0 ConnectFailed) times').
      cbv iota.
      change (Attempt now' ConnectFailed ::
              map (fun now0 => Attempt now0 ConnectFailed) times')
        with (failures (now' :: times')).
      specialize (IH m2 Hact3 ltac:(rewrite Ho3; exact Hcap)).
      destruct (attemptReconnection (failures (now' :: times')) m2)
        as [m3 returned]; cbn [fst] in *.
      assert (Hall : waits (effects m3) =
                     waits (effects m) ++
                     backoff (options m) (S (List.length (now' :: times')))
                       (currentDelay (metrics m))).
      { rewrite IH, Hw3, Hd3, Hnext, Ho3.
        cbn [backoff]. rewrite <- app_assoc. reflexivity. }
      destruct returned; cbn [fst set_currentAttempt effects]; exact Hall.
Qed.

Lemma schedule_durations m :
  attemptDurations (metrics (fst (schedule m))) = attemptDurations (metrics m).
Proof.
  unfold schedule. destruct (negb (active m)); [reflexivity|].
  destruct (reachedMax m); reflexivity.
Qed.

Lemma onConnected_bounded now m :
  durations_bounded m -> durations_bounded (onConnected now m).
Proof.
  unfold durations_bounded, onConnected.
  cbn [metrics stop set_metrics set_active set_timeoutId set_currentAttempt
       attemptDurations].
  intros Hle. destruct (truthyTime (lastAttempt (metrics m))); [|exact Hle].
  destruct (Nat.ltb_spec 10
              (List.length (attemptDurations (metrics m) ++
                 [(now - match lastAttempt (metrics m) with
                         | Some t => t
                         | None => 0
                         end)%Z]))) as [Hover|Hfit].
  - unfold shift. rewrite length_app in Hover. cbn in Hover.
    destruct (attemptDurations (metrics m)) as [|d ds]; cbn in *; [lia|].
    rewrite length_app. cbn. lia.
  - exact Hfit.
Qed.

Lemma attemptReconnection_bounded script : forall m,
  durations_bounded m -> durations_bounded (fst (attemptReconnection script m)).
Proof.
  induction script as [|r rest IH]; intros m Hb; cbn [attemptReconnection].
  - destruct (negb (active m)); exact Hb.
  - destruct (negb (active m)); [exact Hb|].
    destruct r as [|now outcome]; [exact Hb|].
    destruct outcome as [|t|].
    + pose proof (schedule_durations (failAttempt (beginAttempt now m))) as Hs.
      destruct (schedule (failAttempt (beginAttempt now m))) as [m2 waiting].
      cbn [fst] in Hs.
      assert (Hb2 : durations_bounded m2)
        by (unfold durations_bounded in *; rewrite Hs; exact Hb).
      destruct waiting; [|exact Hb2].
      destruct rest as [|[|now' outcome'] rest']; try exact Hb2.
      specialize (IH m2 Hb2).
      destruct (attemptReconnection (Attempt now' outcome' :: rest') m2)
        as [m3 returned].
      destruct returned; exact IH.
    + apply (onConnected_bounded t (beginAttempt now m)). exact Hb.
    + exact Hb.
Qed.

Lemma resetIfNeeded_bounded now m :
  durations_bounded m -> durations_bounded (resetIfNeeded now m).
Proof.
  unfold resetIfNeeded.
  destruct (negb (Z.eqb (lastReset (metrics m)) 0) &&
            (resetThreshold (options m) <=? now - lastReset (metrics m))%Z);
    auto.
Qed.

Lemma run_op_bounded o m :
  durations_bounded m -> durations_bounded (run_op o m).
Proof.
  intros Hb. destruct o as [now script| |script|now|now]; cbn [run_op].
  - unfold start. destruct (active m); [exact Hb|].
    unfold scheduleNextAttempt.
    pose proof (resetIfNeeded_bounded now (set_active true m) Hb) as Hb1.
    pose proof (schedule_durations (resetIfNeeded now (set_active true m)))
      as Hs.
    destruct (schedule (resetIfNeeded now (set_active true m)))
      as [m1 waiting]. cbn [fst] in Hs.
    assert (Hb2 : durations_bounded m1)
      by (unfold durations_bounded in *; rewrite Hs; exact Hb1).
    destruct waiting; [|exact Hb2].
    destruct script as [|[|now' outcome'] rest']; try exact Hb2.
    apply attemptReconnection_bounded. exact Hb2.
  - exact Hb.
  - unfold forceAttempt. apply attemptReconnection_bounded.
    destruct (currentAttempt m); exact Hb.
  - unfold durations_bounded. cbn. lia.
  - apply onConnected_bounded. exact Hb.
Qed.

Lemma run_ops_bounded ops : forall m,
  durations_bounded m -> durations_bounded (run_ops ops m).
Proof.
  unfold run_ops. induction ops as [|o ops IH]; intros m Hb; cbn [fold_left].
  - exact Hb.
  - apply IH. apply run_op_bounded. exact Hb.
Qed.

End ReconnectionFacts.

(** C4.  A manager starts with its current delay at [minDelay].  In the
    scheduling loop that [start] runs on a new manager, whatever the
    environment does, the timers set are a backoff sequence from [minDelay]:
    each delay is the minimum of the previous one times the multiplier and
    of [maxDelay], the first being computed from [minDelay] itself, so that
    the first wait is [min(minDelay * backoffMultiplier, maxDelay)].  With
    no cap on the attempts, a loop that sees [n] failed attempts has set
    [n + 1] such timers. *)
Theorem backoff_recurrence {num : Type} {N : JsNumber num}
  (o : ReconnectionManager.Options num) (t0 now : Z)
  (script : list ReconnectionManager.Round) (times : list Z) :
  let new := ReconnectionManager.new in
  let start := ReconnectionManager.start in
  let waits m := ReconnectionManager.waits (ReconnectionManager.effects m) in
  let uncapped :=
    ReconnectionManager.mkOptions (ReconnectionManager.minDelay o)
      (ReconnectionManager.maxDelay o) None
      (ReconnectionManager.backoffMultiplier o)
      (ReconnectionManager.resetThreshold o) in
  ReconnectionManager.currentDelay (ReconnectionManager.metrics (new o t0)) =
    ReconnectionManager.minDelay o /\
  waits (start now script (new o t0)) =
    ReconnectionManager.backoff o
      (List.length (waits (start now script (new o t0))))
      (ReconnectionManager.minDelay o) /\
  waits (start now (ReconnectionManager.failures times) (new uncapped t0)) =
    ReconnectionManager.backoff uncapped (S (List.length times))
      (ReconnectionManager.minDelay o) /\
  hd_error (waits (start now (ReconnectionManager.failures times)
                     (new uncapped t0))) =
    Some (num_min (num_mul (ReconnectionManager.minDelay o)
                     (ReconnectionManager.backoffMultiplier o))
            (ReconnectionManager.maxDelay o)).
Proof.
  intros new start waits uncapped.
  assert (Hreset : forall o' : ReconnectionManager.Options num,
    let m := ReconnectionManager.resetIfNeeded now
               (ReconnectionManager.set_active true (new o' t0)) in
    ReconnectionManager.options m = o' /\
    ReconnectionManager.currentDelay (ReconnectionManager.metrics m) =
      ReconnectionManager.minDelay o' /\
    ReconnectionManager.effects m = [] /\
    ReconnectionManager.active m = true).
  { intros o'. unfold ReconnectionManager.resetIfNeeded. cbn.
    destruct (negb (t0 =? 0)%Z &&
              (ReconnectionManager.resetThreshold o' <=? now - t0)%Z);
      repeat split. }
  assert (Hfail :
    waits (start now (ReconnectionManager.failures times) (new uncapped t0)) =
    ReconnectionManager.backoff uncapped (S (List.length times))
      (ReconnectionManager.minDelay o)).
  { subst waits start. cbv beta. unfold ReconnectionManager.start.
    cbn [ReconnectionManager.active new ReconnectionManager.new].
    destruct (Hreset uncapped) as (Ho & Hd & He & Ha).
    set (m := ReconnectionManager.resetIfNeeded now _) in *.
    unfold ReconnectionManager.scheduleNextAttempt.
    assert (Hsched : ReconnectionManager.schedule m =
      (ReconnectionManager.set_timeoutId true
         (ReconnectionManager.effect
            (ReconnectionManager.SetTimeout (ReconnectionManager.nextDelay m))
            (ReconnectionManager.effect
               (ReconnectionManager.Scheduled
                  (ReconnectionManager.getMetrics
                     (ReconnectionManager.set_currentDelay
                        (ReconnectionManager.nextDelay m) m)))
               (ReconnectionManager.set_currentDelay
                  (ReconnectionManager.nextDelay m) m))), true)).
    { unfold ReconnectionManager.schedule, ReconnectionManager.reachedMax.
      rewrite Ha, Ho. reflexivity. }
    rewrite Hsched.
    set (m1 := ReconnectionManager.set_timeoutId true _).
    assert (Hw1 : ReconnectionManager.waits (ReconnectionManager.effects m1) =
                  [ReconnectionManager.nextDelay m])
      by (subst m1; cbn; rewrite He; reflexivity).
    assert (Ho1 : ReconnectionManager.options m1 = uncapped)
      by (subst m1; cbn; exact Ho).
    assert (Ha1 : ReconnectionManager.active m1 = true)
      by (subst m1; cbn; exact Ha).
    assert (Hd1 : ReconnectionManager.currentDelay
                    (ReconnectionManager.metrics m1) =
                  ReconnectionManager.nextDelay m) by reflexivity.
    assert (Hnext : ReconnectionManager.nextDelay m =
      num_min (num_mul (ReconnectionManager.minDelay o)
                 (ReconnectionManager.backoffMultiplier o))
        (ReconnectionManager.maxDelay o)).
    { unfold ReconnectionManager.nextDelay. rewrite Hd, Ho. reflexivity. }
    clearbody m1.
    destruct times as [|t times].
    - cbn. rewrite Hw1, Hnext. reflexivity.
    - cbn [ReconnectionManager.failures map]. cbv iota.
      pose proof (attemptReconnection_failures (t :: times) m1 Ha1
                    ltac:(rewrite Ho1; reflexivity)) as Hloop.
      cbn [ReconnectionManager.failures map] in Hloop.
      rewrite Hloop, Hw1, Hd1, Ho1, Hnext. reflexivity. }
  split; [reflexivity|]. split; [|split; [exact Hfail|]].
  - subst waits start. cbv beta. unfold ReconnectionManager.start.
    cbn [ReconnectionManager.active new ReconnectionManager.new].
    destruct (Hreset o) as (Ho & Hd & He & Ha).
    destruct (scheduleNextAttempt_waits script
                (ReconnectionManager.resetIfNeeded now
                   (ReconnectionManager.set_active true (new o t0))))
      as (k & Hk).
    rewrite He, Hd, Ho in Hk. cbn [ReconnectionManager.waits app] in Hk.
    subst new. rewrite Hk, backoff_length. reflexivity.
  - rewrite Hfail. reflexivity.
Qed.

(** C4 with rationals: the defaults, three failed attempts, four waits. *)
Lemma backoff_recurrence_witness :
  let o := ReconnectionManager.defaultOptions (num := Q) in
  let m := ReconnectionManager.start 1000
             (ReconnectionManager.failures [1150; 1400; 1750]%Z)
             (ReconnectionManager.new o 0) in
  hd_error (ReconnectionManager.waits (ReconnectionManager.effects m)) =
    Some (Qmin (100 * (3 / 2)) 30000) /\
  Forall2 Qeq (ReconnectionManager.waits (ReconnectionManager.effects m))
    [150; 225; 337.5; 506.25]%Q.
Proof.
  intros o m. split.
  - exact (proj2 (proj2 (proj2
             (backoff_recurrence o 0 1000 [] [1150; 1400; 1750]%Z)))).
  - vm_compute. repeat constructor.
Defined.

(** C10.  Whatever calls and events a manager has seen since its
    construction, it stores ten durations at most, and [getMetrics] reports
    an average of [0] when it stores none and otherwise their sum divided by
    their number. *)
Theorem average_attempt_duration {num : Type} {N : JsNumber num}
  (o : ReconnectionManager.Options num) (t0 : Z)
  (ops : list ReconnectionManager.Op) :
  let m := ReconnectionManager.run_ops ops (ReconnectionManager.new o t0) in
  let durations :=
    ReconnectionManager.attemptDurations (ReconnectionManager.metrics m) in
  List.length durations <= 10 /\
  ReconnectionManager.averageAttemptDuration (ReconnectionManager.getMetrics m) =
    match durations with
    | [] => num_zero
    | _ :: _ =>
        num_div (num_of_Z (fold_left Z.add durations 0%Z))
          (num_of_Z (Z.of_nat (List.length durations)))
    end.
Proof.
  intros m durations. split.
  - apply (run_ops_bounded ops). unfold ReconnectionManager.durations_bounded.
    cbn. lia.
  - unfold ReconnectionManager.getMetrics.
    cbn [ReconnectionManager.averageAttemptDuration]. fold durations.
    destruct durations; reflexivity.
Qed.

(** ** The state manager *)

Section StateFacts.
Import StateManager.

Lemma scheduleNextRefresh_spec m :
  options (scheduleNextRefresh m) = options m /\
  exists more, effects (scheduleNextRefresh m) = effects m ++ more.
Proof.
  unfold scheduleNextRefresh. destruct (refreshTimer m); cbn.
  - split; [reflexivity|]. rewrite <- app_assoc. eexists. reflexivity.
  - split; [reflexivity|]. eexists. reflexivity.
Qed.

Lemma onResponse_spec now response m :
  options (fst (onResponse now response m)) = options m /\
  exists more, effects (fst (onResponse now response m)) = effects m ++ more.
Proof.
  unfold onResponse. destruct (getProp response "token") as [tok|e]; cbn [fst].
  - match goal with
    | |- context [scheduleNextRefresh ?x] =>
        destruct (scheduleNextRefresh_spec x) as (Ho & more & He)
    end.
    rewrite Ho, He. cbn. split; [reflexivity|]. eexists. reflexivity.
  - split; [reflexivity|]. exists []. now rewrite app_nil_r.
Qed.

(** A loop entered below [retryAttempts] issues the protocol request
    before anything else. *)
Lemma refreshLoop_issues o now script : forall attempts m,
  attempts < retryAttempts (options m) ->
  exists more,
    effects (fst (refreshLoop o now script attempts m)) =
    effects m ++ RequestIssued "starling:state" (timeout o) :: more.
Proof.
  induction script as [|outcome rest IH]; intros attempts m Hlt;
    cbn [refreshLoop];
    destruct (Nat.ltb_spec attempts (retryAttempts (options m))); try lia.
  - exists []. reflexivity.
  - set (m1 := effect (RequestIssued "starling:state" (timeout o)) m).
    assert (Hstep : exists m2 e more,
      (match outcome with
       | Responds response => onResponse now response m1
       | Fails e => (m1, e)
       end) = (m2, e) /\
      options m2 = options m /\ effects m2 = effects m1 ++ more).
    { destruct outcome as [response|e].
      - destruct (onResponse_spec now response m1) as (Ho & more & He).
        destruct (onResponse now response m1) as [m2 e]. cbn [fst] in *.
        exists m2, e, more. repeat split; assumption.
      - exists m1, e, []. rewrite app_nil_r. repeat split. }
    destruct Hstep as (m2 & e & more & -> & Ho2 & He2).
    unfold countFailure. cbn [set_metrics options].
    destruct (retryAttempts (options m2) <=? S attempts) eqn:Hlast.
    + cbn [fst effects set_metrics]. rewrite He2. subst m1.
      cbn [effects effect]. rewrite <- app_assoc. eexists. reflexivity.
    + apply Nat.leb_gt in Hlast.
      match goal with
      | |- context [refreshLoop o now rest (S attempts) ?x] =>
          destruct (IH (S attempts) x) as (more' & Hmore');
            [cbn; exact Hlast|]; rewrite Hmore'
      end.
      cbn [effects effect set_metrics]. rewrite He2. subst m1.
      cbn [effects effect]. rewrite <- !app_assoc. eexists. cbn. reflexivity.
Qed.

End StateFacts.

(** C7, as the code has it.  A call of [refresh] made while no refresh is in
    progress, without [force], after a refresh has stored its clock value
    and less than [minRefreshInterval] later, rejects with the
    minimum-interval error, issues no protocol request and leaves the
    manager, token and [lastRefresh] included, as it was.  With [force] the
    same call is not stopped by the interval: it sets [refreshing] and, when
    [retryAttempts] is positive, issues the request [starling:state].  While
    a refresh is in progress every call rejects with the in-progress error,
    forced or not. *)
Theorem refresh_throttled (m : StateManager.Manager) (now last : Z)
  (timeout : option Z) (script : list StateManager.RequestOutcome) :
  let unforced := StateManager.mkRefreshOptions false timeout in
  let forced := StateManager.mkRefreshOptions true timeout in
  let busy := StateManager.set_refreshing true m in
  StateManager.refreshing m = false ->
  StateManager.lastRefresh m = Some last ->
  last <> 0%Z ->
  (now - last < StateManager.minRefreshInterval (StateManager.options m))%Z ->
  StateManager.refresh unforced now script m =
    (m, StateManager.Rejected
          (Error (StateManager.minIntervalMessage
                    (StateManager.minRefreshInterval (StateManager.options m)
                     - (now - last))))) /\
  StateManager.refresh forced now script m =
    (match StateManager.refreshLoop forced now script 0 busy with
     | (m1, StateManager.Suspended) => (m1, StateManager.Suspended)
     | (m1, completion) => (StateManager.set_refreshing false m1, completion)
     end) /\
  (if 0 <? StateManager.retryAttempts (StateManager.options m)
   then hd_error (StateManager.requestsIssued
                    (skipn (List.length (StateManager.effects m))
                       (StateManager.effects
                          (fst (StateManager.refresh forced now script m)))))
        = Some (StateManager.RequestIssued "starling:state" timeout)
   else fst (StateManager.refresh forced now script m) = m) /\
  StateManager.refresh unforced now script busy =
    (busy, StateManager.Rejected (Error StateManager.inProgressMessage)) /\
  StateManager.refresh forced now script busy =
    (busy, StateManager.Rejected (Error StateManager.inProgressMessage)).
Proof.
  intros unforced forced busy Hidle Hlast Hnz Hsoon.
  assert (Htruthy : StateManager.truthyTime (StateManager.lastRefresh m) = true).
  { rewrite Hlast. cbn. apply negb_true_iff. apply Z.eqb_neq. exact Hnz. }
  assert (Hforced : StateManager.refresh forced now script m =
    (match StateManager.refreshLoop forced now script 0 busy with
     | (m1, StateManager.Suspended) => (m1, StateManager.Suspended)
     | (m1, completion) => (StateManager.set_refreshing false m1, completion)
     end)).
  { unfold StateManager.refresh. rewrite Hidle. reflexivity. }
  split; [|split; [exact Hforced|split; [|split; reflexivity]]].
  - unfold StateManager.refresh. rewrite Hidle, Htruthy, Hlast.
    cbn [StateManager.force unforced negb andb StateManager.timeOf].
    destruct (Z.ltb_spec (now - last)
                (StateManager.minRefreshInterval (StateManager.options m)));
      [reflexivity|lia].
  - rewrite Hforced.
    destruct (Nat.ltb_spec 0 (StateManager.retryAttempts (StateManager.options m)))
      as [Hpos|Hzero].
    + pose proof (refreshLoop_issues forced now) as Hgrow.
      destruct (Hgrow script 0 busy Hpos) as (more & Hmore).
      cbn [StateManager.timeout forced] in Hmore.
      assert (Heff : StateManager.effects
                (fst (match StateManager.refreshLoop forced now script 0 busy with
                      | (m1, StateManager.Suspended) =>
                          (m1, StateManager.Suspended)
                      | (m1, completion) =>
                          (StateManager.set_refreshing false m1, completion)
                      end)) =
              StateManager.effects m ++
              StateManager.RequestIssued "starling:state" timeout :: more).
      { destruct (StateManager.refreshLoop forced now script 0 busy)
          as [m1 [v|e|]]; cbn [fst] in *; exact Hmore. }
      rewrite Heff, skipn_app, skipn_all, Nat.sub_diag. reflexivity.
    + assert (Hnone : StateManager.retryAttempts (StateManager.options m) = 0)
        by lia.
      destruct script; cbn [StateManager.refreshLoop busy StateManager.options
                            StateManager.set_refreshing];
        rewrite Hnone; cbn; destruct m; cbn in *; subst; reflexivity.
Qed.

(** C7 on a manager that refreshed at clock 1000 and is asked again at
    clock 2000. *)
Lemma refresh_throttled_witness :
  let m := StateManager.mkManager StateManager.defaultOptions (JStr "TOK")
             (Some 1000%Z) true false
             (StateManager.mkMetrics 0 0 None 0 1 0) [] in
  StateManager.refreshing m = false /\
  StateManager.lastRefresh m = Some 1000%Z /\
  1000%Z <> 0%Z /\
  (2000 - 1000 < StateManager.minRefreshInterval (StateManager.options m))%Z /\
  StateManager.refresh (StateManager.mkRefreshOptions false None) 2000 [] m =
    (m, StateManager.Rejected
          (Error "Minimum refresh interval not reached (59s remaining)")).
Proof.
  intros m.
  assert (H1 : (1000 <> 0)%Z) by discriminate.
  assert (H2 : (2000 - 1000 <
                StateManager.minRefreshInterval (StateManager.options m))%Z)
    by reflexivity.
  split; [reflexivity|]. split; [reflexivity|].
  split; [exact H1|]. split; [exact H2|].
  exact (proj1 (refresh_throttled m 2000 1000 None [] eq_refl eq_refl H1 H2)).
Defined.

(** C7 as stated fails.  A refresh whose response carries a token stores it
    with the clock value 1000; at clock 2000 a forced refresh starts and
    awaits its response; a call without [force] at clock 3000, within the
    minimum interval, is then rejected with the in-progress error, not with
    the minimum-interval error. *)
Lemma refresh_throttled_counterexample :
  let answer := StateManager.Responds (JObj [("token", JStr "TOK")]) in
  let m0 := fst (StateManager.refresh (StateManager.mkRefreshOptions false None)
                   1000 [answer; answer; answer]
                   (StateManager.new StateManager.defaultOptions)) in
  let m1 := fst (StateManager.refresh (StateManager.mkRefreshOptions true None)
                   2000 [] m0) in
  let result := StateManager.refresh (StateManager.mkRefreshOptions false None)
                  3000 [] m1 in
  StateManager.lastRefresh m1 = Some 1000%Z /\
  StateManager.token m1 = JStr "TOK" /\
  StateManager.refreshing m1 = true /\
  (3000 - 1000 < StateManager.minRefreshInterval (StateManager.options m1))%Z /\
  result = (m1, StateManager.Rejected (Error "Refresh already in progress")) /\
  snd result <>
    StateManager.Rejected
      (Error (StateManager.minIntervalMessage
                (StateManager.minRefreshInterval (StateManager.options m1)
                 - (3000 - 1000)))).
Proof.
  cbv zeta.
  split; [vm_compute; reflexivity|]. split; [vm_compute; reflexivity|].
  split; [vm_compute; reflexivity|]. split; [vm_compute; reflexivity|].
  split; [vm_compute; reflexivity|].
  vm_compute. discriminate.
Qed.

(** * Further properties *)

(** ** The send buffer *)

Lemma partition_writes_lengths script ms :
  List.length (fst (partition_writes script ms)) +
  List.length (snd (partition_writes script ms)) = List.length ms.
Proof.
  revert script. induction ms as [|m ms IH]; intros script; cbn; [reflexivity|].
  specialize (IH (tl script)).
  destruct (partition_writes (tl script) ms) as [written kept].
  destruct (hd false script); cbn in *; lia.
Qed.

Lemma partition_writes_perm script ms :
  Permutation ms
    (fst (partition_writes script ms) ++ snd (partition_writes script ms)).
Proof.
  revert script. induction ms as [|m ms IH]; intros script; cbn; [constructor|].
  specialize (IH (tl script)).
  destruct (partition_writes (tl script) ms) as [written kept].
  destruct (hd false script); cbn in *.
  - apply Permutation_cons_app. exact IH.
  - constructor. exact IH.
Qed.

(** The loop of [flush] against the partition of the buffer. *)
Lemma flush_loop_partition ms : forall w remaining sent,
  flush_loop w ms remaining sent =
  (mkWebSocket (readyState w)
     (wire w ++ map content (fst (partition_writes (sendThrows w) ms)))
     (skipn (List.length ms) (sendThrows w)),
   remaining ++ snd (partition_writes (sendThrows w) ms),
   sent + List.length (fst (partition_writes (sendThrows w) ms))).
Proof.
  induction ms as [|m ms IH]; intros w remaining sent; cbn [flush_loop].
  - cbn. rewrite !app_nil_r, Nat.add_0_r. destruct w; reflexivity.
  - unfold ws_send. destruct (sendThrows w) as [|[|] script] eqn:Hscript;
      rewrite IH; cbn [sendThrows wire readyState partition_writes hd tl].
    + destruct (partition_writes [] ms) as [wr kp].
      cbn [fst snd map List.length skipn].
      rewrite <- app_assoc, skipn_nil. cbn [app]. f_equal. lia.
    + destruct (partition_writes script ms) as [wr kp].
      cbn [fst snd map List.length skipn].
      rewrite <- app_assoc. reflexivity.
    + destruct (partition_writes script ms) as [wr kp].
      cbn [fst snd map List.length skipn].
      rewrite <- app_assoc. cbn [app]. f_equal. lia.
Qed.

Lemma flush_connected_partition (s : Starling) (w : WebSocket) :
  let ms := messages (messageBuffer s) in
  let written := fst (partition_writes (sendThrows w) ms) in
  let kept := snd (partition_writes (sendThrows w) ms) in
  ws s = Some w ->
  connected s = true ->
  written_on (MessageBuffer_flush s) = wire w ++ map content written /\
  messages (messageBuffer (MessageBuffer_flush s)) = kept /\
  Permutation ms (written ++ kept) /\
  events (MessageBuffer_flush s) =
    events s ++
    (if 0 <? List.length written
     then [BufferFlushed (List.length written) (List.length kept)]
     else []).
Proof.
  intros ms written kept Hws Hconn. subst written kept ms.
  unfold MessageBuffer_flush, written_on. rewrite Hconn, Hws. cbn [negb].
  rewrite (flush_loop_partition (messages (messageBuffer s)) w [] 0).
  set (written := fst (partition_writes (sendThrows w) (messages (messageBuffer s)))).
  set (kept := snd (partition_writes (sendThrows w) (messages (messageBuffer s)))).
  cbn [app Nat.add].
  split; [|split; [|split]].
  - destruct (0 <? List.length written); reflexivity.
  - destruct (0 <? List.length written); reflexivity.
  - apply partition_writes_perm.
  - destruct (0 <? List.length written); cbn; [reflexivity|].
    now rewrite app_nil_r.
Qed.

(** X1.  A flush on a connected client writes the buffered messages whose
    write succeeds, in the order of the buffer, and retains exactly those
    whose write throws, in the order of the buffer; no message is lost or
    duplicated, and [buffer:flushed] is emitted, with both counts, exactly
    when at least one write succeeded. *)
Theorem flush_partitions_buffer (s : Starling) (w : WebSocket) :
  let ms := messages (messageBuffer s) in
  let written := fst (partition_writes (sendThrows w) ms) in
  let kept := snd (partition_writes (sendThrows w) ms) in
  ws s = Some w ->
  connected s = true ->
  written_on (MessageBuffer_flush s) = wire w ++ map content written /\
  messages (messageBuffer (MessageBuffer_flush s)) = kept /\
  Permutation ms (written ++ kept) /\
  events (MessageBuffer_flush s) =
    events s ++
    (if 0 <? List.length written
     then [BufferFlushed (List.length written) (List.length kept)]
     else []).
Proof.
  exact (flush_connected_partition s w).
Qed.

(** X1 on three messages of which the second write throws. *)
Lemma flush_partitions_buffer_witness :
  let w := mkWebSocket OPEN [] [false; true; false] in
  let s := set_ws (Some w)
             (add_all [(1%Z, CText "a"); (2%Z, CText "b"); (3%Z, CText "c")]
                Starling_new) in
  ws s = Some w /\
  connected s = true /\
  written_on (MessageBuffer_flush s) = [CText "a"; CText "c"] /\
  messages (messageBuffer (MessageBuffer_flush s)) = [buffered (2%Z, CText "b")].
Proof.
  intros w s.
  destruct (flush_partitions_buffer s w eq_refl eq_refl) as (Hw & Hk & _).
  split; [reflexivity|]. split; [reflexivity|]. split; [exact Hw|exact Hk].
Defined.



Lemma partition_writes_no_script ms : partition_writes [] ms = (ms, []).
Proof.
  induction ms as [|m ms IH]; cbn; [reflexivity|]. rewrite IH. reflexivity.
Qed.

(** X3.  Frames sent while the client is not connected, more of them than
    the buffer holds or not, then the socket opening with every write
    succeeding: the frames written are exactly the newest [maxSize] of the
    frames sent, in the order they were sent, and the buffer is left
    empty; the older ones are gone. *)
Theorem offline_overflow_flushes_newest (s : Starling)
  (frames : list (Z * Content)) (w : WebSocket) :
  connected s = false ->
  messages (messageBuffer s) = [] ->
  0 < maxSize (messageBuffer s) ->
  Forall (fun b => b = false) (sendThrows w) ->
  written_on (Starling_onopen w (send_all frames s)) =
    wire w ++
    skipn (List.length frames - maxSize (messageBuffer s)) (map snd frames) /\
  messages (messageBuffer (Starling_onopen w (send_all frames s))) = [].
Proof.
  intros Hoff Hempty Hpos Hok.
  rewrite send_all_offline by assumption.
  assert (Hbuf : messages (messageBuffer (add_all frames s)) =
                 skipn (List.length frames - maxSize (messageBuffer s))
                   (map buffered frames)).
  { rewrite add_all_keeps_newest; rewrite ?Hempty; cbn; auto; lia. }
  unfold Starling_onopen, MessageBuffer_flush, written_on.
  cbn [connected ws emit set_ws readyState negb messageBuffer].
  rewrite Hbuf.
  rewrite (flush_loop_all_sent _ (mkWebSocket OPEN (wire w) (sendThrows w)) [] 0)
    by exact Hok.
  cbn [wire readyState sendThrows].
  assert (Hcontents : map content
            (skipn (List.length frames - maxSize (messageBuffer s))
               (map buffered frames)) =
          skipn (List.length frames - maxSize (messageBuffer s)) (map snd frames)).
  { rewrite <- skipn_map, map_map. reflexivity. }
  rewrite Hcontents.
  match goal with |- context [if ?c then _ else _] => destruct c end; cbn; auto.
Qed.

(** X3 with a capacity of two and three frames. *)
Lemma offline_overflow_flushes_newest_witness :
  let s := mkStarling None (mkMessageBuffer [] 2) (mkRequestsManager [])
             (mkMethodsManager [] []) JNull [] [] [] [] [] [] in
  let frames := [(1%Z, CText "F1"); (2%Z, CText "F2"); (3%Z, CText "F3")] in
  let w := mkWebSocket CONNECTING [] [] in
  connected s = false /\
  messages (messageBuffer s) = [] /\
  0 < maxSize (messageBuffer s) /\
  Forall (fun b => b = false) (sendThrows w) /\
  written_on (Starling_onopen w (send_all frames s)) = [CText "F2"; CText "F3"].
Proof.
  intros s frames w.
  assert (Hpos : 0 < maxSize (messageBuffer s)) by (cbn; lia).
  split; [reflexivity|]. split; [reflexivity|]. split; [exact Hpos|].
  split; [constructor|].
  exact (proj1 (offline_overflow_flushes_newest s frames w eq_refl eq_refl
                  Hpos (Forall_nil _))).
Defined.

(** X4.  When the writes that throw are among the first writes of a flush,
    as many as the buffer has messages at most, a second flush writes what
    the first one retained: after both, the buffer is empty and every
    message has been written exactly once, those that went through at first
    before those that were retried. *)
Theorem second_flush_retries (s : Starling) (w : WebSocket) :
  let ms := messages (messageBuffer s) in
  let written := fst (partition_writes (sendThrows w) ms) in
  let kept := snd (partition_writes (sendThrows w) ms) in
  let s2 := MessageBuffer_flush (MessageBuffer_flush s) in
  ws s = Some w ->
  connected s = true ->
  List.length (sendThrows w) <= List.length ms ->
  messages (messageBuffer s2) = [] /\
  written_on s2 = wire w ++ map content written ++ map content kept /\
  Permutation (map content ms) (skipn (List.length (wire w)) (written_on s2)).
Proof.
  intros ms written kept s2 Hws Hconn Hlen. subst s2.
  assert (Hready : readyState w = OPEN).
  { unfold connected in Hconn. rewrite Hws in Hconn.
    destruct (readyState w); congruence. }
  set (w1 := mkWebSocket OPEN (wire w ++ map content written) []).
  assert (Hfirst : ws (MessageBuffer_flush s) = Some w1 /\
                   messages (messageBuffer (MessageBuffer_flush s)) = kept).
  { unfold MessageBuffer_flush. rewrite Hconn, Hws. cbn [negb].
    rewrite (flush_loop_partition (messages (messageBuffer s)) w [] 0).
    fold ms written kept. rewrite Hready, (skipn_all2 _ Hlen).
    destruct (0 <? 0 + List.length written); cbn; auto. }
  destruct Hfirst as [Hws1 Hkept].
  destruct (flush_connected_partition (MessageBuffer_flush s) w1 Hws1)
    as (Hw2 & Hk2 & _ & _).
  { unfold connected. rewrite Hws1. reflexivity. }
  rewrite Hkept in Hw2, Hk2. cbn [sendThrows w1 wire] in Hw2, Hk2.
  rewrite partition_writes_no_script in Hw2, Hk2. cbn [fst snd] in Hw2, Hk2.
  split; [exact Hk2|]. rewrite Hw2, <- app_assoc. split; [reflexivity|].
  rewrite skipn_app, skipn_all, Nat.sub_diag. cbn [app skipn].
  rewrite <- map_app. apply Permutation_map. apply partition_writes_perm.
Qed.

(** X4 on three messages of which the first write throws. *)
Lemma second_flush_retries_witness :
  let w := mkWebSocket OPEN [] [true] in
  let s := set_ws (Some w)
             (add_all [(1%Z, CText "a"); (2%Z, CText "b"); (3%Z, CText "c")]
                Starling_new) in
  ws s = Some w /\
  connected s = true /\
  List.length (sendThrows w) <= List.length (messages (messageBuffer s)) /\
  written_on (MessageBuffer_flush (MessageBuffer_flush s)) =
    [CText "b"; CText "c"; CText "a"].
Proof.
  intros w s.
  assert (Hlen : List.length (sendThrows w) <=
                 List.length (messages (messageBuffer s))) by (cbn; lia).
  split; [reflexivity|]. split; [reflexivity|]. split; [exact Hlen|].
  exact (proj1 (proj2 (second_flush_retries s w eq_refl eq_refl Hlen))).
Defined.

(** ** The request registry *)

Lemma Map_get_set_same {V} (m : JsMap V) k v : Map_get (Map_set m k v) k = Some v.
Proof.
  induction m as [|[k' v'] m IH]; cbn.
  - now rewrite String.eqb_refl.
  - destruct (String.eqb_spec k k') as [->|Hne]; cbn.
    + now rewrite String.eqb_refl.
    + destruct (String.eqb_spec k k'); [congruence|exact IH].
Qed.

Lemma client_run_reachable es :
  NoDup (uuids es) ->
  requests_inv (uuids es ++ []) (client_run es Starling_new).
Proof.
  intros Hnd.
  destruct (client_run_inv es [] Starling_new Starling_new_inv Hnd) as [H _];
    [intros u _ []|exact H].
Qed.

(** X5.  In any run with pairwise distinct UUIDs, the response to a pending
    request calls exactly one resolver of it, [resolve] with the data when
    [success] holds and [reject] with the error otherwise, takes the request
    out of the table and clears its timer: the timeout that was scheduled
    for it then does nothing when its time comes, and a second response
    with the same id is dropped. *)
Theorem response_settles_once (es : list ClientEvent) (request : Request)
  (now : Z) (response : Response) :
  NoDup (uuids es) ->
  In request (timers (client_run es Starling_new)) ->
  requestId response = id request ->
  let s := client_run es Starling_new in
  let s1 := fst (Starling_handleJsonMessage now (MResponse response) s) in
  snd (Starling_handleJsonMessage now (MResponse response) s) = None /\
  settlements_of (id request) s1 = [responseSettlement response] /\
  RequestsManager_get (id request) s1 = None /\
  ~ In request (timers s1) /\
  timer_fires (id request) s1 = s1 /\
  RequestsManager_handleResponse response s1 = (s1, None).
Proof.
  intros Hnd Htimer Hrid s s1.
  pose proof (client_run_reachable es Hnd) as Hinv. fold s in Hinv.
  set (s0 := emit (MessageReceived "response") s).
  assert (Hinv0 : requests_inv (uuids es ++ []) s0)
    by (apply (inv_same_registry _ s); [repeat split|exact Hinv]).
  assert (Hpending : Map_has (pending (requests s0)) (id request) = true)
    by (apply (inv_timers _ _ Hinv); exact Htimer).
  destruct (Map_get (pending (requests s0)) (requestId response))
    as [stored|] eqn:Hget;
    [|unfold Map_has in Hpending; rewrite <- Hrid, Hget in Hpending; discriminate].
  destruct (handleResponse_pending _ s0 response stored Hinv0 Hget)
    as [Hid Hcall].
  assert (Hframe : Starling_handleJsonMessage now (MResponse response) s =
                   (terminate stored (responseSettlement response) s0, None))
    by exact Hcall.
  destruct (terminate_inv _ s0 stored (responseSettlement response) Hinv0)
    as (Hinv1 & Hone & Hgone); [rewrite Hid, Hrid; exact Hpending|].
  subst s1. rewrite Hframe. cbn [fst snd].
  rewrite Hid, Hrid in Hone, Hgone.
  assert (Hnot : forall t, In t (timers (terminate stored
                                 (responseSettlement response) s0)) ->
                           id t <> id request).
  { intros t Ht Heq. apply (inv_timers _ _ Hinv1) in Ht.
    rewrite Heq in Ht. congruence. }
  split; [reflexivity|]. split; [exact Hone|].
  split; [unfold RequestsManager_get; apply Map_has_get_None; exact Hgone|].
  split; [intros Hin; exact (Hnot request Hin eq_refl)|].
  split.
  - destruct (timer_fires_cases
                (terminate stored (responseSettlement response) s0) (id request))
      as [Hsame|(t & Ht & Hidt)]; [exact Hsame|].
    exfalso. exact (Hnot t Ht Hidt).
  - apply handleResponse_absent. rewrite Hrid. exact Hgone.
Qed.

(** X5 on a request answered with a failure. *)
Lemma response_settles_once_witness :
  let es := [EvRequest "00000000-0000-4000-8000-000000000002" 0 "fetch"
               (JObj []) (mkRequestOptionsArg None None)] in
  let request := executedRequest "00000000-0000-4000-8000-000000000002" 0
                   "fetch" (JObj []) (mkRequestOptionsArg None None) in
  let response := mkResponse "00000000-0000-4000-8000-000000000002" false
                    JUndefined (JObj [("code", JStr "E"); ("message", JStr "no")]) in
  NoDup (uuids es) /\
  In request (timers (client_run es Starling_new)) /\
  requestId response = id request /\
  settlements_of (id request)
    (fst (Starling_handleJsonMessage 5 (MResponse response)
            (client_run es Starling_new))) =
  [Reject (JObj [("code", JStr "E"); ("message", JStr "no")])].
Proof.
  intros es request response.
  assert (Hnd : NoDup (uuids es)) by (repeat constructor; cbn; tauto).
  assert (Hin : In request (timers (client_run es Starling_new)))
    by (left; reflexivity).
  split; [exact Hnd|]. split; [exact Hin|]. split; [reflexivity|].
  exact (proj1 (proj2 (response_settles_once es request 5 response Hnd Hin
                         eq_refl))).
Defined.

(** The resolver calls of the loop of [cancelAll], request by request. *)
Lemma cancel_each_settled used reason rs : forall s,
  requests_inv used s ->
  (forall r, In r rs -> In (id r, r) (pending (requests s))) ->
  NoDup (map (@id) rs) ->
  settled (fst (cancel_each reason rs s)) =
  settled s ++ map (fun r => (id r, Reject (cancelError reason))) rs.
Proof.
  induction rs as [|r rs IH]; intros s Hinv Hpend Hnd; cbn [cancel_each map].
  - cbn. now rewrite app_nil_r.
  - assert (Hr : In (id r, r) (pending (requests s)))
      by (apply Hpend; now left).
    rewrite (cancel_pending _ _ reason r Hinv Hr).
    destruct (terminate_inv _ _ r (Reject (cancelError reason)) Hinv
                (In_Map_has _ _ _ Hr)) as (Hinv' & _ & _).
    inversion Hnd as [|? ? Hnot Hrest]; subst.
    rewrite IH; auto.
    + unfold terminate, RequestsManager_remove, clearTimeout.
      cbn [settled set_pending settle set_timers].
      rewrite <- app_assoc. reflexivity.
    + intros r' Hr'.
      assert (Hin' : In (id r', r') (pending (requests s)))
        by (apply Hpend; now right).
      unfold terminate, RequestsManager_remove, Map_delete.
      cbn [pending requests set_pending].
      apply filter_In. split; [exact Hin'|]. cbn [fst].
      apply negb_true_iff. apply String.eqb_neq. intros Heq.
      apply Hnot. rewrite Heq. apply in_map. exact Hr'.
Qed.

Lemma cancelAll_reachable (es : list ClientEvent) (reason : string) :
  NoDup (uuids es) ->
  let s := client_run es Starling_new in
  let s1 := fst (RequestsManager_cancelAll reason s) in
  snd (RequestsManager_cancelAll reason s) = None /\
  settled s1 =
    settled s ++
    map (fun r => (id r, Reject (cancelError reason)))
      (Map_values (pending (requests s))) /\
  pending (requests s1) = [] /\
  timers s1 = [] /\
  (forall r, In r (Map_values (pending (requests s))) ->
             settlements_of (id r) s1 = [Reject (cancelError reason)]).
Proof.
  intros Hnd s s1.
  pose proof (client_run_reachable es Hnd) as Hinv. fold s in Hinv.
  assert (Hids : map (@id) (Map_values (pending (requests s))) =
                 map fst (pending (requests s))).
  { unfold Map_values. rewrite map_map. apply map_ext_in.
    intros [k r] Hin. cbn. apply (inv_entries _ _ Hinv _ _ Hin). }
  assert (Hall : forall r, In r (Map_values (pending (requests s))) ->
                           In (id r, r) (pending (requests s))).
  { intros r Hr. unfold Map_values in Hr. apply in_map_iff in Hr.
    destruct Hr as ([k r'] & Heq & Hin). cbn in Heq. subst r'.
    destruct (inv_entries _ _ Hinv _ _ Hin) as [-> _]. exact Hin. }
  assert (Hdistinct : NoDup (map (@id) (Map_values (pending (requests s)))))
    by (rewrite Hids; apply (inv_keys _ _ Hinv)).
  destruct (cancel_each_inv _ reason _ s Hinv Hall Hdistinct)
    as (Hnone & _ & _ & _).
  pose proof (cancel_each_settled _ reason _ s Hinv Hall Hdistinct) as Hlog.
  destruct (cancelAll_inv _ reason s Hinv) as [Hinv1 _]. fold s1 in Hinv1.
  assert (Hshape : RequestsManager_cancelAll reason s =
    (set_pending []
       (fst (cancel_each reason (Map_values (pending (requests s))) s)), None)).
  { unfold RequestsManager_cancelAll.
    destruct (cancel_each reason (Map_values (pending (requests s))) s)
      as [s' [e|]]; cbn [fst snd] in *; [discriminate|reflexivity]. }
  assert (Hsettled : settled s1 =
    settled s ++
    map (fun r => (id r, Reject (cancelError reason)))
      (Map_values (pending (requests s))))
    by (subst s1; rewrite Hshape; exact Hlog).
  assert (Hpending : pending (requests s1) = [])
    by (subst s1; rewrite Hshape; reflexivity).
  split; [rewrite Hshape; reflexivity|]. split; [exact Hsettled|].
  split; [exact Hpending|]. split.
  - destruct (timers s1) as [|t ts] eqn:Ht; [reflexivity|]. exfalso.
    pose proof (inv_timers _ _ Hinv1 t) as Hhas. rewrite Ht, Hpending in Hhas.
    specialize (Hhas (or_introl eq_refl)). discriminate.
  - intros r Hr.
    pose proof (inv_once _ _ Hinv1 (id r)) as Hone.
    pose proof (inv_pending _ _ Hinv (id r) (In_Map_has _ _ _ (Hall r Hr)))
      as Hbefore.
    unfold settlements_of in *. rewrite Hsettled, filter_app, map_app in *.
    rewrite Hbefore in *. cbn [app] in *.
    apply in_split in Hr. destruct Hr as (l1 & l2 & Hsplit).
    rewrite Hsplit, map_app, filter_app, map_app in *. cbn [map filter fst] in *.
    rewrite String.eqb_refl in *. cbn [map snd] in *.
    rewrite length_app in Hone. cbn [List.length] in Hone.
    destruct (map snd (filter (fun e => String.eqb (id r) (fst e))
                (map (fun r0 => (id r0, Reject (cancelError reason))) l1)))
      as [|x xs]; [|cbn in Hone; lia].
    destruct (map snd (filter (fun e => String.eqb (id r) (fst e))
                (map (fun r0 => (id r0, Reject (cancelError reason))) l2)))
      as [|y ys]; [reflexivity|cbn in Hone; lia].
Qed.

(** X6.  In any run with pairwise distinct UUIDs, [cancelAll] does not
    throw; it rejects every pending request once with code
    REQUEST_CANCELLED and the reason given, in the order in which the
    requests were issued, and leaves the table and the scheduler empty, so
    that no timeout and no response can reach these requests afterwards. *)
Theorem cancelAll_rejects_each_once (es : list ClientEvent) (reason : string) :
  NoDup (uuids es) ->
  let s := client_run es Starling_new in
  let s1 := fst (RequestsManager_cancelAll reason s) in
  snd (RequestsManager_cancelAll reason s) = None /\
  settled s1 =
    settled s ++
    map (fun r => (id r, Reject (cancelError reason)))
      (Map_values (pending (requests s))) /\
  pending (requests s1) = [] /\
  timers s1 = [] /\
  (forall r, In r (Map_values (pending (requests s))) ->
             settlements_of (id r) s1 = [Reject (cancelError reason)]).
Proof.
  intros Hnd. exact (cancelAll_reachable es reason Hnd).
Qed.

(** X6 on two pending requests. *)
Lemma cancelAll_rejects_each_once_witness :
  let es := [EvRequest "00000000-0000-4000-8000-00000000000a" 0 "a" JNull
               (mkRequestOptionsArg None None);
             EvRequest "00000000-0000-4000-8000-00000000000b" 1 "b" JNull
               (mkRequestOptionsArg None None)] in
  NoDup (uuids es) /\
  settled (fst (RequestsManager_cancelAll "Connection closed"
                  (client_run es Starling_new))) =
  [("00000000-0000-4000-8000-00000000000a",
    Reject (cancelError "Connection closed"));
   ("00000000-0000-4000-8000-00000000000b",
    Reject (cancelError "Connection closed"))].
Proof.
  intros es.
  assert (Hnd : NoDup (uuids es)).
  { repeat constructor; cbn; [|tauto]. intros [H|[]]. discriminate. }
  split; [exact Hnd|].
  exact (proj1 (proj2 (cancelAll_rejects_each_once es "Connection closed" Hnd))).
Defined.


(** ** The method registry *)

Lemma Map_get_set_other {V} (m : JsMap V) k v k' :
  k <> k' -> Map_get (Map_set m k v) k' = Map_get m k'.
Proof.
  intros Hne. induction m as [|[k0 v0] m IH]; cbn.
  - destruct (String.eqb_spec k' k); [congruence|reflexivity].
  - destruct (String.eqb_spec k k0) as [->|Hk]; cbn.
    + destruct (String.eqb_spec k' k0); [congruence|reflexivity].
    + destruct (String.eqb_spec k' k0); [reflexivity|exact IH].
Qed.

(** What a registration that returns normally has checked and done. *)
Lemma method_ok_inv name handler o s s' :
  Starling_method name handler o s = Ok s' ->
  exists n,
    name = JStr n /\
    3 <= String.length n /\
    methodNamePattern n = true /\
    Map_has (methods (methodsManager s)) n = false /\
    Set_has (reservedNames (methodsManager s)) (namespaceOf n) = false /\
    s' = emit (MethodAdded n)
           (set_methods
              (Map_set (methods (methodsManager s)) n
                 (mkMethod n handler (mergeMethodOptions o))) s).
Proof.
  unfold Starling_method, MethodsManager_add, validateMethodName.
  destruct name as [| |b|q|n|items|props]; try discriminate.
  destruct (negb (truthy (JStr n))); [discriminate|].
  destruct (Nat.ltb_spec (String.length n) 3); [discriminate|].
  destruct (methodNamePattern n) eqn:Hpat; [|discriminate]. cbn [negb].
  destruct (Map_has (methods (methodsManager s)) n) eqn:Hhas; [discriminate|].
  destruct (Set_has (reservedNames (methodsManager s)) (namespaceOf n)) eqn:Hns;
    [discriminate|].
  intros [= <-]. exists n. repeat split; auto.
Qed.

Lemma methodNamePattern_chars n :
  methodNamePattern n = true ->
  exists c rest, n = String c rest /\ is_alpha c = true /\
                 Forall (fun x => nameChar x = true) (chars rest).
Proof.
  destruct n as [|c rest]; cbn; [discriminate|].
  intros H. apply andb_true_iff in H. destruct H as [Hc Hrest].
  exists c, rest. split; [reflexivity|]. split; [exact Hc|].
  induction rest as [|x rest IH]; cbn in *; [constructor|].
  apply andb_true_iff in Hrest. destruct Hrest as [Hx Hrest].
  constructor; [exact Hx|apply IH; exact Hrest].
Qed.

Lemma is_alpha_nameChar c : is_alpha c = true -> nameChar c = true.
Proof. unfold nameChar, is_word. intros ->. reflexivity. Qed.

(** X8.  Whatever registrations were attempted on a new client, every
    method that the registry holds is stored under its own name, and that
    name has at least three characters, starts with a letter, consists of
    letters, digits, underscores and colons only, and lies in no reserved
    namespace. *)
Theorem registered_names_wellformed (calls : list (JsVal * nat * option Z))
  (n : string) (m : Method) :
  MethodsManager_get n (register_all calls Starling_new) = Some m ->
  name m = n /\
  3 <= String.length n /\
  (exists c rest, n = String c rest /\ is_alpha c = true) /\
  Forall (fun x => nameChar x = true) (chars n) /\
  Set_has reservedNamespaces (namespaceOf n) = false.
Proof.
  assert (Hgen : forall s,
    (reservedNames (methodsManager s) = reservedNamespaces /\
     forall k v, Map_get (methods (methodsManager s)) k = Some v ->
       name v = k /\ 3 <= String.length k /\ methodNamePattern k = true /\
       Set_has reservedNamespaces (namespaceOf k) = false) ->
    forall k v,
      Map_get (methods (methodsManager (register_all calls s))) k = Some v ->
      name v = k /\ 3 <= String.length k /\ methodNamePattern k = true /\
      Set_has reservedNamespaces (namespaceOf k) = false).
  { induction calls as [|[[nm h] o] calls IH]; intros s [Hres Hall];
      cbn [register_all]; [exact Hall|].
    destruct (Starling_method nm h o s) as [s1|e] eqn:Hcall;
      [|apply IH; split; assumption].
    apply IH. destruct (method_ok_inv nm h o s s1 Hcall)
      as (k0 & -> & Hlen & Hpat & Hnew & Hns & ->).
    split; [exact Hres|]. intros k v.
    cbn [methods methodsManager emit set_methods].
    destruct (String.eqb_spec k0 k) as [<-|Hne].
    - rewrite Map_get_set_same. intros [= <-]. rewrite Hres in Hns. auto.
    - rewrite Map_get_set_other by exact Hne. apply Hall. }
  intros Hget. unfold MethodsManager_get in Hget.
  destruct (Hgen Starling_new) with (k := n) (v := m) as (Hn & Hlen & Hpat & Hns);
    [split; [reflexivity|intros k v; cbn; discriminate]|exact Hget|].
  destruct (methodNamePattern_chars n Hpat) as (c & rest & -> & Hc & Hrest).
  split; [exact Hn|]. split; [exact Hlen|]. split; [eauto|].
  split; [|exact Hns].
  cbn [chars]. constructor; [apply is_alpha_nameChar; exact Hc|exact Hrest].
Qed.

(** X8 on a registry with one method. *)
Lemma registered_names_wellformed_witness :
  let calls := [(JStr "super:echo", 7, None)] in
  MethodsManager_get "super:echo" (register_all calls Starling_new) =
    Some (mkMethod "super:echo" 7 30000) /\
  Set_has reservedNamespaces (namespaceOf "super:echo") = false.
Proof.
  intros calls.
  assert (Hget : MethodsManager_get "super:echo" (register_all calls Starling_new)
                 = Some (mkMethod "super:echo" 7 30000)) by reflexivity.
  split; [exact Hget|].
  exact (proj2 (proj2 (proj2 (proj2
           (registered_names_wellformed calls "super:echo" _ Hget))))).
Defined.

(** X9.  A registration that succeeds stores the method with the handler
    given and the timeout given, 30000 ms by default, under the name, emits
    one [method:added] event, and changes the lookup of no other name; a
    second registration under the same name throws the already-exists
    error, whatever its handler, so the first method stays. *)
Theorem registration_round_trip (n : string) (handler handler' : nat)
  (o o' : option Z) (s s' : Starling) :
  Starling_method (JStr n) handler o s = Ok s' ->
  MethodsManager_get n s' = Some (mkMethod n handler (mergeMethodOptions o)) /\
  (forall k, k <> n -> MethodsManager_get k s' = MethodsManager_get k s) /\
  events s' = events s ++ [MethodAdded n] /\
  Starling_method (JStr n) handler' o' s' = Throw (Error (existsMessage n)).
Proof.
  intros Hcall.
  destruct (method_ok_inv _ _ _ _ _ Hcall)
    as (k0 & [= <-] & Hlen & Hpat & Hnew & Hns & ->).
  unfold MethodsManager_get. cbn [methods methodsManager emit set_methods events].
  split; [apply Map_get_set_same|].
  split; [intros k Hk; apply Map_get_set_other; congruence|].
  split; [reflexivity|].
  unfold Starling_method, MethodsManager_add, validateMethodName.
  assert (Htruthy : truthy (JStr n) = true)
    by (destruct n; cbn in *; [lia|reflexivity]).
  rewrite Htruthy. cbn [negb].
  destruct (Nat.ltb_spec (String.length n) 3); [lia|].
  rewrite Hpat. cbn [negb methods methodsManager emit set_methods].
  unfold Map_has. rewrite Map_get_set_same. reflexivity.
Qed.

(** X9 on a new client. *)
Lemma registration_round_trip_witness :
  exists s',
    Starling_method (JStr "chat:receive") 1 (Some 500%Z) Starling_new = Ok s' /\
    MethodsManager_get "chat:receive" s' = Some (mkMethod "chat:receive" 1 500) /\
    Starling_method (JStr "chat:receive") 2 None s' =
      Throw (Error (existsMessage "chat:receive")).
Proof.
  eexists. split; [reflexivity|].
  pose proof (registration_round_trip "chat:receive" 1 2 (Some 500%Z) None
                Starling_new _ eq_refl) as (Hget & _ & _ & Hdup).
  split; [exact Hget|exact Hdup].
Defined.

(** X10.  No value that is not a string, no string shorter than three
    characters, and no name with a character other than a letter, a digit,
    an underscore or a colon can be registered: the call throws and the
    client stays as it was. *)
Theorem malformed_names_rejected (v : JsVal) (handler : nat) (o : option Z)
  (s : Starling) :
  (forall n, v = JStr n ->
             String.length n < 3 \/
             Exists (fun x => nameChar x = false) (chars n)) ->
  exists message, Starling_method v handler o s = Throw (Error message).
Proof.
  intros Hbad. unfold Starling_method, MethodsManager_add, validateMethodName.
  destruct v as [| |b|q|n|items|props]; try (eexists; reflexivity).
  destruct (negb (truthy (JStr n))); [eexists; reflexivity|].
  destruct (Nat.ltb_spec (String.length n) 3); [eexists; reflexivity|].
  destruct (methodNamePattern n) eqn:Hpat; [|eexists; reflexivity].
  exfalso. destruct (Hbad n eq_refl) as [Hshort|Hchar]; [lia|].
  destruct (methodNamePattern_chars n Hpat) as (c & rest & -> & Hc & Hrest).
  cbn [chars] in Hchar. apply Exists_cons in Hchar.
  destruct Hchar as [Hx|Hx].
  - rewrite (is_alpha_nameChar c Hc) in Hx. discriminate.
  - apply Exists_exists in Hx. destruct Hx as (x & Hin & Hx).
    rewrite Forall_forall in Hrest. rewrite (Hrest x Hin) in Hx. discriminate.
Qed.

(** X10 on a name with a hyphen. *)
Lemma malformed_names_rejected_witness :
  exists message,
    Starling_method (JStr "a-b") 0 None Starling_new = Throw (Error message).
Proof.
  apply malformed_names_rejected. intros n [= <-]. right.
  apply Exists_cons_tl. apply Exists_cons_hd. reflexivity.
Defined.


(** ** RequestContext and Method.execute *)

Lemma context_call_requestId now c h :
  ctx_requestId (context (fst (context_call now c h))) =
  ctx_requestId (context h).
Proof.
  destruct c; cbn [context_call]; unfold RequestContext_success,
    RequestContext_error, RequestContext_notification;
    destruct (finished (context h)); reflexivity.
Qed.

Lemma context_call_sequenced now c h :
  sequenced h -> sequenced (fst (context_call now c h)).
Proof.
  intros (ns & response & Hcalls & Hshape).
  destruct c as [d|code message|d]; cbn [context_call];
    unfold RequestContext_success, RequestContext_error,
      RequestContext_notification;
    destruct (finished (context h)) eqn:Hfin; cbn [fst];
    try (exists ns, response; rewrite Hfin; auto).
  - subst response. rewrite app_nil_r in Hcalls.
    exists ns, [("response", successData (ctx_requestId (context h)) d)].
    cbn. rewrite Hfin, Hcalls. split; [reflexivity|]. eexists. split; reflexivity.
  - subst response. rewrite app_nil_r in Hcalls.
    exists ns, [("response", errorData (ctx_requestId (context h)) code message)].
    cbn. rewrite Hfin, Hcalls. split; [reflexivity|]. eexists. split; reflexivity.
  - subst response. rewrite app_nil_r in Hcalls.
    exists (ns ++ [d]), []. cbn. rewrite Hfin, Hcalls, map_app, app_nil_r.
    split; reflexivity.
Qed.

Lemma execute_catch_sequenced now message h :
  sequenced h -> sequenced (fst (execute_catch now message h)).
Proof.
  intros Hseq. unfold execute_catch.
  pose proof (context_call_sequenced now (CallError "METHOD_ERROR" message) h Hseq)
    as H. cbn [context_call] in H.
  destruct (RequestContext_error now "METHOD_ERROR" message h) as [h' [e|]];
    exact H.
Qed.

Lemma Method_execute_sequenced steps : forall st h,
  sequenced h -> sequenced (fst (Method_execute steps st h)).
Proof.
  induction steps as [|step steps IH]; intros st h Hseq; cbn [Method_execute];
    [exact Hseq|].
  destruct step as [now c| |now message|now].
  - apply IH. apply context_call_sequenced. exact Hseq.
  - destruct st; apply IH; exact Hseq.
  - destruct st; try (apply IH; exact Hseq).
    pose proof (execute_catch_sequenced now message h Hseq) as H.
    destruct (execute_catch now message h) as [h' st']. apply IH. exact H.
  - destruct st; try (apply IH; exact Hseq).
    pose proof (execute_catch_sequenced now "Method timeout" h Hseq) as H.
    destruct (execute_catch now "Method timeout" h) as [h' st']. apply IH. exact H.
Qed.

Lemma Method_execute_requestId steps : forall st h,
  ctx_requestId (context (fst (Method_execute steps st h))) =
  ctx_requestId (context h).
Proof.
  assert (Hcatch : forall now message h,
    ctx_requestId (context (fst (execute_catch now message h))) =
    ctx_requestId (context h)).
  { intros now message h. unfold execute_catch, RequestContext_error.
    destruct (finished (context h)); reflexivity. }
  induction steps as [|step steps IH]; intros st h; cbn [Method_execute];
    [reflexivity|].
  destruct step as [now c| |now message|now].
  - rewrite IH. apply context_call_requestId.
  - destruct st; apply IH.
  - destruct st; try apply IH.
    specialize (Hcatch now message h).
    destruct (execute_catch now message h) as [h' st']. rewrite IH. exact Hcatch.
  - destruct st; try apply IH.
    specialize (Hcatch now "Method timeout" h).
    destruct (execute_catch now "Method timeout" h) as [h' st'].
    rewrite IH. exact Hcatch.
Qed.

(** X12.  Whatever a handler does with its context and however the race
    of [execute] ends, the messages sent through the context are
    notifications followed by one response at most, all carrying the
    [requestId] of the request: once [success], [error] or the [catch]
    block of [execute] has sent a response, nothing more is sent, and the
    context is finished exactly when a response went out. *)
Theorem context_responds_once (steps : list HandlerStep) (s : Starling)
  (pl : JsVal) (rid : string) (ts : Z) (opts : JsVal) :
  let h := fst (Method_execute steps Awaiting (Handling_new s pl rid ts opts)) in
  exists ns response,
    calls h = map (notificationCall rid) ns ++ response /\
    List.length (filter is_response (calls h)) = List.length response /\
    if finished (context h)
    then exists d, response = [("response", d)] /\
                   lookupProp "requestId" d = JStr rid
    else response = [].
Proof.
  intros h.
  assert (Hseq : sequenced h).
  { apply Method_execute_sequenced. exists [], []. split; reflexivity. }
  assert (Hrid : ctx_requestId (context h) = rid)
    by (subst h; rewrite Method_execute_requestId; reflexivity).
  destruct Hseq as (ns & response & Hcalls & Hshape). rewrite Hrid in *.
  exists ns, response. split; [exact Hcalls|]. split; [|exact Hshape].
  rewrite Hcalls, filter_app.
  assert (Hnone : filter is_response (map (notificationCall rid) ns) = []).
  { clear. induction ns as [|d ns IH]; cbn; [reflexivity|exact IH]. }
  rewrite Hnone. cbn [app].
  destruct (finished (context h)).
  - destruct Hshape as (d & -> & _). reflexivity.
  - subst response. reflexivity.
Qed.

(** The handler finishes nothing before an error decides the race. *)
Lemma execute_failure_calls steps : forall h message,
  finished (context h) = false ->
  unfinished_until_decision steps = true ->
  deciding_error steps = Some message ->
  snd (Method_execute steps Awaiting h) = Fulfilled /\
  filter is_response (calls (fst (Method_execute steps Awaiting h))) =
    filter is_response (calls h) ++
    [("response", errorData (ctx_requestId (context h)) "METHOD_ERROR" message)].
Proof.
  assert (Hafter : forall l st h,
    finished (context h) = true -> st <> Awaiting ->
    snd (Method_execute l st h) = st /\
    calls (fst (Method_execute l st h)) = calls h).
  { induction l as [|step l IH]; intros st h Hfin Hst;
      cbn [Method_execute]; [auto|].
    destruct step as [now c| |now message|now].
    - assert (Hsame : fst (context_call now c h) = h).
      { destruct c; cbn [context_call]; unfold RequestContext_success,
          RequestContext_error, RequestContext_notification;
          rewrite Hfin; reflexivity. }
      rewrite Hsame. apply IH; assumption.
    - destruct st; try congruence; apply IH; assumption.
    - destruct st; try congruence; apply IH; assumption.
    - destruct st; try congruence; apply IH; assumption. }
  assert (Hdecide : forall l now message h,
    finished (context h) = false ->
    let r := Method_execute l (snd (execute_catch now message h))
               (fst (execute_catch now message h)) in
    snd r = Fulfilled /\
    filter is_response (calls (fst r)) =
      filter is_response (calls h) ++
      [("response", errorData (ctx_requestId (context h)) "METHOD_ERROR" message)]).
  { intros l now message h Hfin. cbv zeta.
    unfold execute_catch, RequestContext_error. rewrite Hfin. cbn [fst snd].
    match goal with
    | |- context [Method_execute l Fulfilled ?x] =>
        destruct (Hafter l Fulfilled x) as [Hst Hcalls];
          [cbn; now rewrite orb_true_r|discriminate|]
    end.
    rewrite Hst, Hcalls. cbn [calls ctx_standard].
    rewrite filter_app. split; reflexivity. }
  induction steps as [|step steps IH]; intros h message Hfin Hun Hdec;
    cbn [unfinished_until_decision deciding_error] in *; [discriminate|].
  destruct step as [now c| |now m|now]; cbn [Method_execute].
  - destruct c as [d|code m|d]; try discriminate.
    cbn [context_call]. unfold RequestContext_notification. rewrite Hfin.
    cbn [fst].
    match goal with
    | |- context [Method_execute steps Awaiting ?x] =>
        destruct (IH x message) as [Hst Hcalls];
          [cbn; rewrite Hfin; reflexivity|assumption|assumption|]
    end.
    split; [exact Hst|]. rewrite Hcalls. cbn [calls ctx_standard context
      ctx_requestId]. rewrite filter_app. cbn. now rewrite app_nil_r.
  - discriminate.
  - injection Hdec as <-.
    pose proof (Hdecide steps now m h Hfin) as H. cbv zeta in H.
    destruct (execute_catch now m h) as [h' st']. exact H.
  - injection Hdec as <-.
    pose proof (Hdecide steps now "Method timeout" h Hfin) as H. cbv zeta in H.
    destruct (execute_catch now "Method timeout" h) as [h' st']. exact H.
Qed.

(** X13.  When the handler of a method throws an [Error], or the timer of
    the method expires, before the handler has called [success] or [error],
    [execute] answers the request itself: the one response sent is a
    failure with code METHOD_ERROR and the message of the error, [Method
    timeout] for the timer, and [execute] returns normally; what the handler
    tries to send afterwards throws and is not sent. *)
Theorem execute_reports_failure (steps : list HandlerStep) (s : Starling)
  (pl : JsVal) (rid : string) (ts : Z) (opts : JsVal) (message : string) :
  let result := Method_execute steps Awaiting (Handling_new s pl rid ts opts) in
  unfinished_until_decision steps = true ->
  deciding_error steps = Some message ->
  snd result = Fulfilled /\
  filter is_response (calls (fst result)) =
    [("response", errorData rid "METHOD_ERROR" message)].
Proof.
  intros result Hun Hdec.
  exact (execute_failure_calls steps (Handling_new s pl rid ts opts) message
           eq_refl Hun Hdec).
Qed.

(** X13 on a handler that reports progress, is overtaken by the timer and
    then tries to succeed. *)
Lemma execute_reports_failure_witness :
  let steps := [Calls 1 (CallNotification (JStr "50%")); TimesOut 30001;
                Calls 30002 (CallSuccess (JStr "late")); Returns] in
  let result := Method_execute steps Awaiting
                  (Handling_new Starling_new JNull "r" 0 (JObj [])) in
  unfinished_until_decision steps = true /\
  deciding_error steps = Some "Method timeout" /\
  filter is_response (calls (fst result)) =
    [("response", errorData "r" "METHOD_ERROR" "Method timeout")].
Proof.
  intros steps result.
  split; [reflexivity|]. split; [reflexivity|].
  exact (proj2 (execute_reports_failure steps Starling_new JNull "r" 0 (JObj [])
                  "Method timeout" eq_refl eq_refl)).
Defined.

(** ** Raw frames *)

Lemma handleJson_throws (es : list ClientEvent) (now : Z) (m : ValidMessage) :
  NoDup (uuids es) ->
  let s := client_run es Starling_new in
  has_thrown (Starling_handleJsonMessage now m s) = throws_on m /\
  (if throws_on m
   then Starling_handleJsonMessage now m s =
        (emit (MessageReceived "notification") s, Some TypeError)
   else True).
Proof.
  intros Hnd s.
  pose proof (client_run_reachable es Hnd) as Hinv. fold s in Hinv.
  destruct m as [rid meth pl ts|response|n|err]; cbn [throws_on].
  - split; [|exact I]. unfold has_thrown, Starling_handleJsonMessage.
    cbn [messageType].
    destruct (MethodsManager_get meth (emit (MessageReceived "request") s));
      reflexivity.
  - split; [|exact I]. unfold has_thrown, Starling_handleJsonMessage.
    cbn [messageType].
    set (s0 := emit (MessageReceived "response") s).
    assert (Hinv0 : requests_inv (uuids es ++ []) s0)
      by (apply (inv_same_registry _ s); [repeat split|exact Hinv]).
    destruct (Map_get (pending (requests s0)) (requestId response))
      as [stored|] eqn:Hget.
    + destruct (handleResponse_pending _ s0 response stored Hinv0 Hget)
        as [_ ->]. reflexivity.
    + unfold RequestsManager_handleResponse. rewrite Hget. reflexivity.
  - unfold has_thrown, Starling_handleJsonMessage, Starling_handleNotification.
    cbn [messageType].
    destruct n as [| |b|q|str|items|props]; cbn; auto.
    destruct (strictEqStr (lookupProp "type" props) "starling:token"); cbn.
    + destruct (lookupProp "data" props); cbn; auto.
    + destruct (truthy (lookupProp "topic" props) &&
                truthy (lookupProp "data" props)); cbn; auto.
  - cbn. auto.
Qed.


(** X14.  In any run with pairwise distinct UUIDs, the handling of a valid
    frame throws for notifications only, and exactly for those whose
    notification is [null] or [undefined] or announces a token without
    [data]; the exception is a TypeError, and nothing but the event
    [message:notification] has happened before it.  Requests, responses and
    error frames never make the handling throw. *)
Theorem handling_throws_on (es : list ClientEvent) (now : Z) (m : ValidMessage) :
  NoDup (uuids es) ->
  let s := client_run es Starling_new in
  has_thrown (Starling_handleJsonMessage now m s) = throws_on m /\
  (if throws_on m
   then Starling_handleJsonMessage now m s =
        (emit (MessageReceived "notification") s, Some TypeError)
   else True).
Proof.
  intros Hnd s. exact (handleJson_throws es now m Hnd).
Qed.

(** X14 on a notification frame without notification. *)
Lemma handling_throws_on_witness :
  NoDup (uuids []) /\
  has_thrown (Starling_handleJsonMessage 0 (MNotification JUndefined)
                Starling_new) = true.
Proof.
  split; [constructor|].
  exact (proj1 (handling_throws_on [] 0 (MNotification JUndefined)
                  (NoDup_nil _))).
Defined.

(** X15.  A text frame reaches the [text] hook, with the text as received,
    in two cases: when it is not JSON, and when it is a valid protocol frame
    whose handling throws, that is, in a run with distinct UUIDs, a
    notification frame whose notification is [null] or [undefined] or
    announces a token without [data].  A JSON frame that the schema rejects
    reaches the [json] hook instead, after the event [message:invalid], and
    for every other valid frame the client is left as the handling of the
    frame leaves it. *)
Theorem raw_frame_routing (JSON_parse : string -> option JsVal)
  (safeParse : JsVal -> option ValidMessage) (es : list ClientEvent) (now : Z)
  (text : string) :
  NoDup (uuids es) ->
  let s := client_run es Starling_new in
  Starling_handleMessage JSON_parse safeParse now text s =
  match JSON_parse text with
  | None => hooks_emit (HookText text) s
  | Some message =>
      match safeParse message with
      | None => hooks_emit (HookJson message) (emit (MessageReceived "invalid") s)
      | Some m =>
          if throws_on m
          then hooks_emit (HookText text)
                 (emit (MessageReceived "notification") s)
          else fst (Starling_handleJsonMessage now m s)
      end
  end.
Proof.
  intros Hnd s. unfold Starling_handleMessage, Starling_handleParsedMessage,
    Starling_handleTextMessage.
  destruct (JSON_parse text) as [message|]; [|reflexivity].
  destruct (safeParse message) as [m|]; [|reflexivity].
  destruct (handleJson_throws es now m Hnd) as [Hthrown Hstate]. fold s in Hthrown, Hstate.
  destruct (throws_on m).
  - rewrite Hstate. reflexivity.
  - unfold has_thrown in Hthrown.
    destruct (Starling_handleJsonMessage now m s) as [s' [e|]];
      cbn in *; [discriminate|reflexivity].
Qed.

(** X15 on a text that is no JSON. *)
Lemma raw_frame_routing_witness :
  NoDup (uuids []) /\
  Starling_handleMessage (fun _ => None) (fun _ => None) 0 "hello" Starling_new =
  hooks_emit (HookText "hello") Starling_new.
Proof.
  split; [constructor|].
  exact (raw_frame_routing (fun _ => None) (fun _ => None) [] 0 "hello"
           (NoDup_nil _)).
Defined.

(** ** Runs of the reconnection manager *)

Section ReconnectionRunFacts.
Import ReconnectionManager ReconnectionRuns.
Context {num : Type} {N : JsNumber num}.

Lemma attemptNumbers_app (a b : list (Effect num)) :
  attemptNumbers (a ++ b) = attemptNumbers a ++ attemptNumbers b.
Proof.
  induction a as [|e a IH]; [reflexivity|].
  destruct e; cbn; rewrite IH; reflexivity.
Qed.

Lemma capReached_app (a b : list (Effect num)) :
  capReached (a ++ b) = capReached a + capReached b.
Proof.
  induction a as [|e a IH]; [reflexivity|].
  destruct e; cbn; rewrite IH; reflexivity.
Qed.

(** A loop whose attempts all fail runs into the cap. *)
Lemma loop_capped times : forall (m : Manager num) cap,
  active m = true ->
  maxAttempts (options m) = Some cap ->
  attempts (metrics m) < cap ->
  cap - attempts (metrics m) <= List.length times ->
  let m' := fst (attemptReconnection (failures times) m) in
  Progress m m' (cap - attempts (metrics m)) (cap - attempts (metrics m) - 1)
    (cap - attempts (metrics m)) 1 /\
  active m' = false /\ timeoutId m' = false /\ currentAttempt m' = false.
Proof.
  induction times as [|now times IH]; intros m cap Hact Hcap Hlt Hlen;
    [cbn in Hlen; lia|].
  cbv zeta.
  cbn [failures map attemptReconnection]. rewrite Hact. cbn [negb].
  unfold schedule.
  change (active (failAttempt (beginAttempt now m))) with (active m).
  rewrite Hact. cbn [negb]. unfold reachedMax.
  change (options (failAttempt (beginAttempt now m))) with (options m).
  rewrite Hcap.
  change (attempts (metrics (failAttempt (beginAttempt now m))))
    with (S (attempts (metrics m))).
  destruct (Nat.leb_spec cap (S (attempts (metrics m)))) as [Hle|Hgt].
  - assert (Hone : cap - attempts (metrics m) = 1) by lia.
    rewrite Hone. cbn [fst]. split; [|repeat split].
    split; cbn; rewrite ?attemptNumbers_app, ?waits_app, ?capReached_app,
      ?length_app; cbn; rewrite ?app_nil_r; try reflexivity; try lia.
  - set (m2 := set_timeoutId true _).
    destruct times as [|now' times']; [cbn in Hlen; lia|].
    change (map (fun now0 => Attempt now0 ConnectFailed) (now' :: times'))
      with (Attempt now' ConnectFailed ::
            map (fun now0 => Attempt now0 ConnectFailed) times').
    cbv iota.
    change (Attempt now' ConnectFailed ::
            map (fun now0 => Attempt now0 ConnectFailed) times')
      with (failures (now' :: times')).
    assert (Hact2 : active m2 = true) by exact Hact.
    assert (Hcap2 : maxAttempts (options m2) = Some cap) by exact Hcap.
    assert (Ha2 : attempts (metrics m2) = S (attempts (metrics m)))
      by reflexivity.
    destruct (IH m2 cap Hact2 Hcap2 ltac:(lia) ltac:(cbn in *; lia))
      as ([Ho Hat Htot Hf Hn Hw Hc] & Hna & Hnt & Hnc).
    assert (Hw2 : waits (effects m2) =
                  waits (effects m) ++
                  [nextDelay (failAttempt (beginAttempt now m))]).
    { subst m2. cbn. rewrite !waits_app. cbn. rewrite !app_nil_r.
      reflexivity. }
    assert (Hn2 : attemptNumbers (effects m2) =
                  attemptNumbers (effects m) ++ [S (attempts (metrics m))]).
    { subst m2. cbn. rewrite !attemptNumbers_app. cbn. rewrite !app_nil_r.
      reflexivity. }
    assert (Hc2 : capReached (effects m2) = capReached (effects m)).
    { subst m2. cbn. rewrite !capReached_app. cbn. lia. }
    assert (Hf2 : failedAttempts (metrics m2) = S (failedAttempts (metrics m)))
      by reflexivity.
    assert (Ht2 : totalAttempts (metrics m2) = S (totalAttempts (metrics m)))
      by reflexivity.
    assert (Ho2 : options m2 = options m) by reflexivity.
    clearbody m2.
    assert (Hseq : seq (S (attempts (metrics m))) (cap - attempts (metrics m)) =
                   S (attempts (metrics m)) ::
                   seq (S (S (attempts (metrics m))))
                     (cap - S (attempts (metrics m)))).
    { replace (cap - attempts (metrics m))
        with (S (cap - S (attempts (metrics m)))) by lia.
      reflexivity. }
    destruct (attemptReconnection (failures (now' :: times')) m2)
      as [m3 returned]. cbn [fst] in *.
    assert (Hprog : Progress m m3 (cap - attempts (metrics m))
                      (cap - attempts (metrics m) - 1)
                      (cap - attempts (metrics m)) 1).
    { split.
      - congruence.
      - rewrite Hat, Ha2. lia.
      - rewrite Htot, Ht2, Ha2. lia.
      - rewrite Hf, Hf2, Ha2. lia.
      - rewrite Hn, Hn2, Ha2, Hseq, <- app_assoc. reflexivity.
      - rewrite Hw, Hw2, length_app, Ha2. cbn. lia.
      - rewrite Hc, Hc2. reflexivity. }
    assert (Hflat : set_currentAttempt false m3 = m3).
    { destruct m3 as [o x ti ac ca ef]. cbn in Hnc. subst ca. reflexivity. }
    destruct returned; cbn [fst]; rewrite ?Hflat;
      (split; [exact Hprog|repeat split; assumption]).
Qed.

(** A loop whose attempts fail below the cap until one connects ends with
    the listener of [starling:connected]. *)
Lemma loop_connects times : forall (m : Manager num) now t rest,
  active m = true ->
  belowCap m (List.length times) ->
  let m' := fst (attemptReconnection (failuresThenConnect times now t rest) m) in
  Progress m m' (S (List.length times)) (List.length times)
    (List.length times) 0 /\
  active m' = false /\ timeoutId m' = false /\ currentAttempt m' = false /\
  successfulReconnections (metrics m') = S (successfulReconnections (metrics m)) /\
  lastSuccess (metrics m') = Some t /\
  lastAttempt (metrics m') = Some now /\
  m' = fst (attemptReconnection (failuresThenConnect times now t []) m).
Proof.
  induction times as [|now0 times IH]; intros m now t rest Hact Hbelow;
    cbv zeta.
  - unfold failuresThenConnect. cbn [failures map app attemptReconnection].
    rewrite Hact. cbn [negb fst]. split; [|repeat split].
    split; cbn; rewrite ?attemptNumbers_app, ?waits_app, ?capReached_app,
      ?length_app; cbn; rewrite ?app_nil_r; try reflexivity; lia.
  - unfold failuresThenConnect.
    cbn [failures map app attemptReconnection]. rewrite Hact. cbn [negb].
    unfold schedule.
    change (active (failAttempt (beginAttempt now0 m))) with (active m).
    rewrite Hact. cbn [negb].
    assert (Hmax : reachedMax (failAttempt (beginAttempt now0 m)) = false).
    { unfold reachedMax, belowCap in *.
      change (options (failAttempt (beginAttempt now0 m))) with (options m).
      destruct (maxAttempts (options m)) as [cap|]; [|reflexivity].
      change (attempts (metrics (failAttempt (beginAttempt now0 m))))
        with (S (attempts (metrics m))).
      apply Nat.leb_gt. cbn in Hbelow. lia. }
    rewrite Hmax.
    set (m2 := set_timeoutId true _).
    assert (Hact2 : active m2 = true) by exact Hact.
    assert (Ha2 : attempts (metrics m2) = S (attempts (metrics m)))
      by reflexivity.
    assert (Hbelow2 : belowCap m2 (List.length times)).
    { unfold belowCap in *.
      change (options m2) with (options m).
      destruct (maxAttempts (options m)); [|exact I].
      rewrite Ha2. cbn in Hbelow. lia. }
    assert (Hw2 : waits (effects m2) =
                  waits (effects m) ++
                  [nextDelay (failAttempt (beginAttempt now0 m))]).
    { subst m2. cbn. rewrite !waits_app. cbn. rewrite !app_nil_r.
      reflexivity. }
    assert (Hn2 : attemptNumbers (effects m2) =
                  attemptNumbers (effects m) ++ [S (attempts (metrics m))]).
    { subst m2. cbn. rewrite !attemptNumbers_app. cbn. rewrite !app_nil_r.
      reflexivity. }
    assert (Hc2 : capReached (effects m2) = capReached (effects m)).
    { subst m2. cbn. rewrite !capReached_app. cbn. lia. }
    assert (Hf2 : failedAttempts (metrics m2) = S (failedAttempts (metrics m)))
      by reflexivity.
    assert (Ht2 : totalAttempts (metrics m2) = S (totalAttempts (metrics m)))
      by reflexivity.
    assert (Hs2 : successfulReconnections (metrics m2) =
                  successfulReconnections (metrics m)) by reflexivity.
    assert (Ho2 : options m2 = options m) by reflexivity.
    clearbody m2.
    fold (failures times).
    change (failures times ++ Attempt now (ConnectedAt t) :: rest)
      with (failuresThenConnect times now t rest).
    change (failures times ++ [Attempt now (ConnectedAt t)])
      with (failuresThenConnect times now t []).
    pose proof (IH m2 now t rest Hact2 Hbelow2)
      as ([Ho Hat Htot Hf Hn Hw Hc] & Hna & Hnt & Hnc & Hs & Hls & Hla & Heq).
    assert (Hshape : forall tail, exists r' tail',
      failuresThenConnect times now t tail = Attempt (fst r') (snd r') :: tail').
    { intros tail. unfold failuresThenConnect.
      destruct times as [|a l]; cbn; eexists (_, _), _; reflexivity. }
    destruct (Hshape rest) as ([n1 o1] & tail1 & Hs1).
    destruct (Hshape []) as ([n2 o2] & tail2 & Hs2').
    cbn [fst snd] in Hs1, Hs2'.
    rewrite Hs1, Hs2'. cbv iota. rewrite <- Hs1, <- Hs2'.
    destruct (attemptReconnection (failuresThenConnect times now t rest) m2)
      as [m3 returned].
    destruct (attemptReconnection (failuresThenConnect times now t []) m2)
      as [m3' returned'].
    cbn [fst] in *. subst m3'.
    assert (Hprog : Progress m m3 (S (List.length (now0 :: times)))
                      (List.length (now0 :: times))
                      (List.length (now0 :: times)) 0).
    { split.
      - congruence.
      - rewrite Hat, Ha2. cbn [List.length]. lia.
      - rewrite Htot, Ht2. cbn [List.length]. lia.
      - rewrite Hf, Hf2. cbn [List.length]. lia.
      - rewrite Hn, Hn2, Ha2, <- app_assoc. reflexivity.
      - rewrite Hw, Hw2, length_app. cbn. lia.
      - rewrite Hc, Hc2. reflexivity. }
    assert (Hflat : set_currentAttempt false m3 = m3).
    { destruct m3 as [o x ti ac ca ef]. cbn in Hnc. subst ca. reflexivity. }
    destruct returned, returned'; cbn [fst]; rewrite ?Hflat;
      (split; [exact Hprog|]); repeat split; try assumption; congruence.
Qed.

Lemma resetIfNeeded_facts now (m : Manager num) :
  options (resetIfNeeded now m) = options m /\
  active (resetIfNeeded now m) = active m /\
  effects (resetIfNeeded now m) = effects m /\
  totalAttempts (metrics (resetIfNeeded now m)) = totalAttempts (metrics m) /\
  failedAttempts (metrics (resetIfNeeded now m)) = failedAttempts (metrics m) /\
  successfulReconnections (metrics (resetIfNeeded now m)) =
    successfulReconnections (metrics m) /\
  forall b, resetIfNeeded now (set_active b m) =
            set_active b (resetIfNeeded now m).
Proof.
  unfold resetIfNeeded.
  destruct (negb (lastReset (metrics m) =? 0)%Z &&
            (resetThreshold (options m) <=? now - lastReset (metrics m))%Z)
    eqn:Hreset; repeat split; intros b; cbn; rewrite Hreset; reflexivity.
Qed.

Lemma scheduleNextAttempt_options script (m : Manager num) :
  options (fst (scheduleNextAttempt script m)) = options m.
Proof.
  unfold scheduleNextAttempt.
  destruct (schedule_cases m)
    as [(Hno & Ho & _)|(Hyes & Ho & _)];
    destruct (schedule m) as [m1 waiting]; cbn [fst snd] in *; subst waiting;
    [exact Ho|].
  destruct script as [|[|now outcome] rest]; try exact Ho.
  destruct (attemptReconnection_waits (Attempt now outcome :: rest) m1)
    as (Ho' & _).
  congruence.
Qed.

(** Every operation keeps the options and extends the waits by a backoff
    sequence. *)
Lemma run_op_waits o (m : Manager num) :
  options (run_op o m) = options m /\
  exists k d,
    waits (effects (run_op o m)) =
    waits (effects m) ++ backoff (options m) k d.
Proof.
  assert (Hnone : exists k d,
    waits (effects m) = waits (effects m) ++ backoff (options m) k d)
    by (exists 0, (currentDelay (metrics m)); cbn; now rewrite app_nil_r).
  destruct o as [now script| |script|now|now]; cbn [run_op].
  - unfold start. destruct (active m); [split; [reflexivity|exact Hnone]|].
    destruct (resetIfNeeded_facts now (set_active true m))
      as (Ho & _ & He & _).
    split; [rewrite scheduleNextAttempt_options; exact Ho|].
    destruct (scheduleNextAttempt_waits script
                (resetIfNeeded now (set_active true m))) as (k & Hk).
    rewrite He, Ho in Hk. eexists k, _. exact Hk.
  - split; [reflexivity|exact Hnone].
  - unfold forceAttempt.
    destruct (attemptReconnection_waits script
                (set_active true (if currentAttempt m then stop m else m)))
      as (Ho & k & Hk).
    assert (Hsame : options (set_active true
                      (if currentAttempt m then stop m else m)) = options m /\
                    effects (set_active true
                      (if currentAttempt m then stop m else m)) = effects m)
      by (destruct (currentAttempt m); split; reflexivity).
    destruct Hsame as (Ho0 & He0).
    split; [congruence|]. rewrite He0, Ho0 in Hk. eexists k, _. exact Hk.
  - split; [reflexivity|exact Hnone].
  - split; [reflexivity|exact Hnone].
Qed.

End ReconnectionRunFacts.

(** X16.  A manager with a finite [maxAttempts] whose attempts all fail
    gives up exactly at the cap: a [start] on an inactive manager that
    counts [a] attempts (after the reset that [start] may do) sets
    [maxAttempts - a] timers, starts that many attempts, numbered from
    [a + 1] on, counts each as failed, emits the event of the cap once, and
    leaves the manager inactive without timer or attempt.  When the count
    is at the cap already, no attempt is made at all. *)
Theorem attempts_stop_at_cap {num : Type} {N : JsNumber num}
  (m : ReconnectionManager.Manager num) (now : Z) (cap : nat)
  (times : list Z) :
  let a := ReconnectionManager.attempts
             (ReconnectionManager.metrics
                (ReconnectionManager.resetIfNeeded now m)) in
  let m' := ReconnectionManager.start now
              (ReconnectionManager.failures times) m in
  ReconnectionManager.active m = false ->
  ReconnectionManager.maxAttempts (ReconnectionManager.options m) = Some cap ->
  cap - a <= List.length times ->
  ReconnectionRuns.attemptNumbers (ReconnectionManager.effects m') =
    ReconnectionRuns.attemptNumbers (ReconnectionManager.effects m) ++
    seq (S a) (cap - a) /\
  List.length (ReconnectionManager.waits (ReconnectionManager.effects m')) =
    List.length (ReconnectionManager.waits (ReconnectionManager.effects m)) +
    (cap - a) /\
  ReconnectionRuns.capReached (ReconnectionManager.effects m') =
    S (ReconnectionRuns.capReached (ReconnectionManager.effects m)) /\
  ReconnectionManager.failedAttempts (ReconnectionManager.metrics m') =
    ReconnectionManager.failedAttempts (ReconnectionManager.metrics m) +
    (cap - a) /\
  ReconnectionManager.active m' = false /\
  ReconnectionManager.timeoutId m' = false /\
  ReconnectionManager.currentAttempt m' = false.
Proof.
  intros a m' Hact Hcap Hlen. subst m'.
  unfold ReconnectionManager.start. rewrite Hact.
  destruct (resetIfNeeded_facts now m) as (Ho & _ & He & _ & Hf & _ & Hcomm).
  rewrite (Hcomm true).
  set (m0 := ReconnectionManager.set_active true
               (ReconnectionManager.resetIfNeeded now m)).
  assert (Ho0 : ReconnectionManager.options m0 = ReconnectionManager.options m)
    by exact Ho.
  assert (He0 : ReconnectionManager.effects m0 = ReconnectionManager.effects m)
    by exact He.
  assert (Hf0 : ReconnectionManager.failedAttempts
                  (ReconnectionManager.metrics m0) =
                ReconnectionManager.failedAttempts
                  (ReconnectionManager.metrics m)) by exact Hf.
  assert (Ha0 : ReconnectionManager.attempts
                  (ReconnectionManager.metrics m0) = a) by reflexivity.
  assert (Hact0 : ReconnectionManager.active m0 = true) by reflexivity.
  clearbody m0 a.
  unfold ReconnectionManager.scheduleNextAttempt, ReconnectionManager.schedule.
  rewrite Hact0. cbn [negb]. unfold ReconnectionManager.reachedMax.
  rewrite Ho0, Hcap, Ha0.
  destruct (Nat.leb_spec cap a) as [Hle|Hgt].
  - replace (cap - a) with 0 by lia. cbn [fst].
    cbn. rewrite attemptNumbers_app, waits_app,
      capReached_app, He0, Hf0. cbn.
    rewrite !app_nil_r, !Nat.add_0_r, Nat.add_1_r. repeat split.
  - set (m1 := ReconnectionManager.set_timeoutId true _).
    destruct times as [|t times]; [cbn in Hlen; lia|].
    change (ReconnectionManager.failures (t :: times))
      with (ReconnectionManager.Attempt t ReconnectionManager.ConnectFailed ::
            ReconnectionManager.failures times).
    cbv iota.
    change (ReconnectionManager.Attempt t ReconnectionManager.ConnectFailed ::
            ReconnectionManager.failures times)
      with (ReconnectionManager.failures (t :: times)).
    assert (Ha1 : ReconnectionManager.attempts
                    (ReconnectionManager.metrics m1) = a) by exact Ha0.
    assert (Hf1 : ReconnectionManager.failedAttempts
                    (ReconnectionManager.metrics m1) =
                  ReconnectionManager.failedAttempts
                    (ReconnectionManager.metrics m)) by exact Hf0.
    assert (Hn1 : ReconnectionRuns.attemptNumbers
                    (ReconnectionManager.effects m1) =
                  ReconnectionRuns.attemptNumbers
                    (ReconnectionManager.effects m)).
    { subst m1. cbn. rewrite !attemptNumbers_app, He0. cbn.
      now rewrite !app_nil_r. }
    assert (Hw1 : List.length (ReconnectionManager.waits
                                 (ReconnectionManager.effects m1)) =
                  S (List.length (ReconnectionManager.waits
                                    (ReconnectionManager.effects m)))).
    { subst m1. cbn. rewrite !waits_app, He0. cbn.
      rewrite app_nil_r, length_app. cbn. lia. }
    assert (Hc1 : ReconnectionRuns.capReached
                    (ReconnectionManager.effects m1) =
                  ReconnectionRuns.capReached
                    (ReconnectionManager.effects m)).
    { subst m1. cbn. rewrite !capReached_app, He0. cbn. lia. }
    destruct (loop_capped (t :: times) m1 cap)
      as ([_ _ _ Pf Pn Pw Pc] & Hna & Hnt & Hnc).
    + exact Hact0.
    + subst m1. cbn. rewrite Ho0. exact Hcap.
    + rewrite Ha1. exact Hgt.
    + rewrite Ha1. exact Hlen.
    + rewrite Ha1 in *. rewrite Pn, Pw, Pc, Pf, Hn1, Hw1, Hc1, Hf1.
      repeat split; try assumption; lia.
Qed.

(** X16 on a manager capped at two attempts. *)
Lemma attempts_stop_at_cap_witness :
  let o := ReconnectionManager.mkOptions 100%Q 30000%Q (Some 2)
             (3 # 2)%Q 60000 in
  let m := ReconnectionManager.new o 1000 in
  let m' := ReconnectionManager.start 2000
              (ReconnectionManager.failures [2150; 2375; 2700]%Z) m in
  ReconnectionManager.active m = false /\
  ReconnectionManager.maxAttempts (ReconnectionManager.options m) = Some 2 /\
  ReconnectionRuns.attemptNumbers (ReconnectionManager.effects m') = [1; 2] /\
  ReconnectionRuns.capReached (ReconnectionManager.effects m') = 1.
Proof.
  intros o m m'.
  pose proof (attempts_stop_at_cap m 2000 2 [2150; 2375; 2700]%Z
                eq_refl eq_refl ltac:(cbn; lia)) as (Hn & _ & Hc & _).
  split; [reflexivity|]. split; [reflexivity|]. split; [exact Hn|exact Hc].
Defined.

(** X17.  The loop ends at the first attempt that connects: when the
    attempts of a [start] on an inactive manager fail, below the cap, until
    one started at clock [tn] connects at clock [t], the manager has set one
    timer and started one attempt for each failure and one more for the
    success, has counted the failures and one successful reconnection, has
    noted [tn] and [t] as times of the last attempt and the last success,
    and is inactive without timer or attempt; the event of the cap is not
    emitted, and whatever the environment would have done next plays no
    part. *)
Theorem connect_ends_the_loop {num : Type} {N : JsNumber num}
  (m : ReconnectionManager.Manager num) (now : Z) (times : list Z)
  (tn t : Z) (rest : list ReconnectionManager.Round) :
  let a := ReconnectionManager.attempts
             (ReconnectionManager.metrics
                (ReconnectionManager.resetIfNeeded now m)) in
  let m' := ReconnectionManager.start now
              (ReconnectionRuns.failuresThenConnect times tn t rest) m in
  ReconnectionManager.active m = false ->
  ReconnectionRuns.belowCap (ReconnectionManager.resetIfNeeded now m)
    (List.length times) ->
  ReconnectionRuns.attemptNumbers (ReconnectionManager.effects m') =
    ReconnectionRuns.attemptNumbers (ReconnectionManager.effects m) ++
    seq (S a) (S (List.length times)) /\
  List.length (ReconnectionManager.waits (ReconnectionManager.effects m')) =
    List.length (ReconnectionManager.waits (ReconnectionManager.effects m)) +
    S (List.length times) /\
  ReconnectionRuns.capReached (ReconnectionManager.effects m') =
    ReconnectionRuns.capReached (ReconnectionManager.effects m) /\
  ReconnectionManager.failedAttempts (ReconnectionManager.metrics m') =
    ReconnectionManager.failedAttempts (ReconnectionManager.metrics m) +
    List.length times /\
  ReconnectionManager.successfulReconnections
    (ReconnectionManager.metrics m') =
    S (ReconnectionManager.successfulReconnections
         (ReconnectionManager.metrics m)) /\
  ReconnectionManager.lastAttempt (ReconnectionManager.metrics m') = Some tn /\
  ReconnectionManager.lastSuccess (ReconnectionManager.metrics m') = Some t /\
  ReconnectionManager.active m' = false /\
  ReconnectionManager.timeoutId m' = false /\
  ReconnectionManager.currentAttempt m' = false /\
  m' = ReconnectionManager.start now
         (ReconnectionRuns.failuresThenConnect times tn t []) m.
Proof.
  intros a m' Hact Hbelow. subst m'.
  unfold ReconnectionManager.start. rewrite Hact.
  destruct (resetIfNeeded_facts now m) as (Ho & _ & He & _ & Hf & Hs & Hcomm).
  rewrite (Hcomm true).
  set (m0 := ReconnectionManager.set_active true
               (ReconnectionManager.resetIfNeeded now m)).
  assert (Hbelow0 : ReconnectionRuns.belowCap m0 (List.length times))
    by exact Hbelow.
  assert (He0 : ReconnectionManager.effects m0 = ReconnectionManager.effects m)
    by exact He.
  assert (Hf0 : ReconnectionManager.failedAttempts
                  (ReconnectionManager.metrics m0) =
                ReconnectionManager.failedAttempts
                  (ReconnectionManager.metrics m)) by exact Hf.
  assert (Hs0 : ReconnectionManager.successfulReconnections
                  (ReconnectionManager.metrics m0) =
                ReconnectionManager.successfulReconnections
                  (ReconnectionManager.metrics m)) by exact Hs.
  assert (Ha0 : ReconnectionManager.attempts
                  (ReconnectionManager.metrics m0) = a) by reflexivity.
  assert (Hact0 : ReconnectionManager.active m0 = true) by reflexivity.
  clearbody m0 a. clear Hbelow Ho He Hf Hs Hcomm.
  unfold ReconnectionManager.scheduleNextAttempt, ReconnectionManager.schedule.
  rewrite Hact0. cbn [negb].
  assert (Hmax : ReconnectionManager.reachedMax m0 = false).
  { unfold ReconnectionManager.reachedMax, ReconnectionRuns.belowCap in *.
    destruct (ReconnectionManager.maxAttempts (ReconnectionManager.options m0));
      [apply Nat.leb_gt; lia|reflexivity]. }
  rewrite Hmax.
  set (m1 := ReconnectionManager.set_timeoutId true _).
  assert (Hshape : forall tail, exists n1 o1 tail1,
    ReconnectionRuns.failuresThenConnect times tn t tail =
    ReconnectionManager.Attempt n1 o1 :: tail1).
  { intros tail. unfold ReconnectionRuns.failuresThenConnect.
    destruct times as [|x l]; cbn; eexists _, _, _; reflexivity. }
  destruct (Hshape rest) as (n1 & o1 & tail1 & Hs1).
  destruct (Hshape []) as (n2 & o2 & tail2 & Hs2).
  rewrite Hs1, Hs2. cbv iota. rewrite <- Hs1, <- Hs2.
  assert (Ha1 : ReconnectionManager.attempts
                  (ReconnectionManager.metrics m1) = a) by exact Ha0.
  assert (Hf1 : ReconnectionManager.failedAttempts
                  (ReconnectionManager.metrics m1) =
                ReconnectionManager.failedAttempts
                  (ReconnectionManager.metrics m)) by exact Hf0.
  assert (Hsu1 : ReconnectionManager.successfulReconnections
                   (ReconnectionManager.metrics m1) =
                 ReconnectionManager.successfulReconnections
                   (ReconnectionManager.metrics m)) by exact Hs0.
  assert (Hn1 : ReconnectionRuns.attemptNumbers
                  (ReconnectionManager.effects m1) =
                ReconnectionRuns.attemptNumbers
                  (ReconnectionManager.effects m)).
  { subst m1. cbn. rewrite !attemptNumbers_app, He0. cbn.
    now rewrite !app_nil_r. }
  assert (Hw1 : List.length (ReconnectionManager.waits
                               (ReconnectionManager.effects m1)) =
                S (List.length (ReconnectionManager.waits
                                  (ReconnectionManager.effects m)))).
  { subst m1. cbn. rewrite !waits_app, He0. cbn.
    rewrite app_nil_r, length_app. cbn. lia. }
  assert (Hc1 : ReconnectionRuns.capReached
                  (ReconnectionManager.effects m1) =
                ReconnectionRuns.capReached
                  (ReconnectionManager.effects m)).
  { subst m1. cbn. rewrite !capReached_app, He0. cbn. lia. }
  destruct (loop_connects times m1 tn t rest)
    as ([_ _ _ Pf Pn Pw Pc] & Hna & Hnt & Hnc & Hsu & Hls & Hla & Heq).
  - exact Hact0.
  - unfold ReconnectionRuns.belowCap in *.
    change (ReconnectionManager.options m1)
      with (ReconnectionManager.options m0).
    rewrite Ha1, <- Ha0. exact Hbelow0.
  - rewrite Ha1 in *. rewrite Pn, Pw, Pc, Pf, Hn1, Hw1, Hc1, Hf1, Hsu, Hsu1.
    repeat split; try assumption; lia.
Qed.

(** X17 on a loop whose second attempt connects. *)
Lemma connect_ends_the_loop_witness :
  let o := ReconnectionManager.mkOptions 100%Q 30000%Q (Some 5)
             (3 # 2)%Q 60000 in
  let m := ReconnectionManager.new o 1000 in
  let m' := ReconnectionManager.start 2000
              (ReconnectionRuns.failuresThenConnect [2150%Z] 2400 2450
                 [ReconnectionManager.Stopped]) m in
  ReconnectionManager.active m = false /\
  ReconnectionRuns.belowCap (ReconnectionManager.resetIfNeeded 2000 m) 1 /\
  ReconnectionRuns.attemptNumbers (ReconnectionManager.effects m') = [1; 2] /\
  ReconnectionManager.lastSuccess (ReconnectionManager.metrics m') =
    Some 2450%Z.
Proof.
  intros o m m'.
  assert (Hbelow : ReconnectionRuns.belowCap
                     (ReconnectionManager.resetIfNeeded 2000 m) 1)
    by (cbn; lia).
  pose proof (connect_ends_the_loop m 2000 [2150%Z] 2400 2450
                [ReconnectionManager.Stopped] eq_refl Hbelow)
    as (Hn & _ & _ & _ & _ & _ & Hls & _).
  split; [reflexivity|]. split; [exact Hbelow|].
  split; [exact Hn|exact Hls].
Defined.

Section DelayFacts.
Import ReconnectionManager ReconnectionRuns.

Lemma backoff_capped (o : Options Q) k : forall d,
  Forall (fun x => (x <= maxDelay o)%Q) (backoff o k d).
Proof.
  induction k as [|k IH]; intros d; cbn [backoff]; constructor.
  - apply Q.le_min_r.
  - apply IH.
Qed.

Lemma run_ops_capped (ops : list Op) : forall m : Manager Q,
  Forall (fun x => (x <= maxDelay (options m))%Q) (waits (effects m)) ->
  options (run_ops ops m) = options m /\
  Forall (fun x => (x <= maxDelay (options m))%Q)
    (waits (effects (run_ops ops m))).
Proof.
  induction ops as [|o ops IH]; intros m Hm; [split; [reflexivity|exact Hm]|].
  unfold run_ops. cbn [fold_left]. fold (run_ops ops (run_op o m)).
  destruct (run_op_waits o m) as (Ho & k & d & Hw).
  destruct (IH (run_op o m)) as (Ho' & Hall).
  - rewrite Ho, Hw. apply Forall_app. split; [exact Hm|apply backoff_capped].
  - rewrite Ho in *. split; [exact Ho'|exact Hall].
Qed.









End DelayFacts.

(** X18.  Over exact arithmetic, no timer of the manager waits longer than
    [maxDelay]: whatever is done to a manager, each delay it has set is at
    most [maxDelay]. *)
Theorem waits_never_exceed_maxDelay (o : ReconnectionManager.Options Q)
  (t0 : Z) (ops : list ReconnectionManager.Op) :
  Forall (fun d => (d <= ReconnectionManager.maxDelay o)%Q)
    (ReconnectionManager.waits
       (ReconnectionManager.effects
          (ReconnectionManager.run_ops ops (ReconnectionManager.new o t0)))).
Proof.
  exact (proj2 (run_ops_capped ops (ReconnectionManager.new o t0)
                  (Forall_nil _))).
Qed.



(** X20.  A successful connection resets neither the attempt counter nor
    the current delay, and the next [start] resets them only when
    [resetThreshold] milliseconds have passed since the last reset: the
    delays that a [start] on an inactive manager adds are a backoff
    sequence that continues from the delay the manager had, unless the
    threshold has passed, in which case it starts over from [minDelay]. *)
Theorem restart_continues_backoff {num : Type} {N : JsNumber num}
  (m : ReconnectionManager.Manager num) (t now : Z)
  (script : list ReconnectionManager.Round) :
  let x := ReconnectionManager.metrics m in
  let o := ReconnectionManager.options m in
  let m1 := ReconnectionManager.onConnected t m in
  let waits y := ReconnectionManager.waits (ReconnectionManager.effects y) in
  let thresholdPassed :=
    negb (ReconnectionManager.lastReset x =? 0)%Z &&
    (ReconnectionManager.resetThreshold o <=?
     now - ReconnectionManager.lastReset x)%Z in
  ReconnectionManager.active m1 = false /\
  ReconnectionManager.attempts (ReconnectionManager.metrics m1) =
    ReconnectionManager.attempts x /\
  ReconnectionManager.currentDelay (ReconnectionManager.metrics m1) =
    ReconnectionManager.currentDelay x /\
  exists k,
    waits (ReconnectionManager.start now script m1) =
    waits m ++
    ReconnectionManager.backoff o k
      (if thresholdPassed then ReconnectionManager.minDelay o
       else ReconnectionManager.currentDelay x).
Proof.
  intros x o m1 waits thresholdPassed.
  split; [reflexivity|]. split; [reflexivity|]. split; [reflexivity|].
  subst waits. cbv beta. unfold ReconnectionManager.start.
  change (ReconnectionManager.active m1) with false. cbv iota.
  destruct (scheduleNextAttempt_waits script
              (ReconnectionManager.resetIfNeeded now
                 (ReconnectionManager.set_active true m1))) as (k & Hk).
  exists k. rewrite Hk.
  destruct (resetIfNeeded_facts now (ReconnectionManager.set_active true m1))
    as (Ho & _ & He & _).
  rewrite He, Ho.
  change (ReconnectionManager.options
            (ReconnectionManager.set_active true m1)) with o.
  change (ReconnectionManager.waits
            (ReconnectionManager.effects
               (ReconnectionManager.set_active true m1)))
    with (ReconnectionManager.waits (ReconnectionManager.effects m)).
  f_equal. f_equal.
  unfold ReconnectionManager.resetIfNeeded.
  change (ReconnectionManager.lastReset
            (ReconnectionManager.metrics
               (ReconnectionManager.set_active true m1)))
    with (ReconnectionManager.lastReset x).
  change (ReconnectionManager.options
            (ReconnectionManager.set_active true m1)) with o.
  fold thresholdPassed. destruct thresholdPassed; reflexivity.
Qed.

(** ** Runs of the state manager *)

Section StateRunFacts.
Import StateManager StateRuns.

Lemma requestsIssued_app a b :
  requestsIssued (a ++ b) = requestsIssued a ++ requestsIssued b.
Proof. apply filter_app. Qed.

Lemma retryWaits_app a b : retryWaits (a ++ b) = retryWaits a ++ retryWaits b.
Proof. apply filter_app. Qed.

Lemma scheduleNextRefresh_quiet m :
  requestsIssued (effects (scheduleNextRefresh m)) = requestsIssued (effects m) /\
  retryWaits (effects (scheduleNextRefresh m)) = retryWaits (effects m).
Proof.
  unfold scheduleNextRefresh. destruct (refreshTimer m); cbn;
    rewrite ?requestsIssued_app, ?retryWaits_app; cbn;
    rewrite ?app_nil_r; split; reflexivity.
Qed.

Lemma attempt_account o now outcome m :
  snd (attempt o now outcome m) = rejection outcome /\
  Account now m (fst (attempt o now outcome m)) [outcome] 1 0 /\
  refreshing (fst (attempt o now outcome m)) = refreshing m.
Proof.
  unfold attempt. destruct outcome as [response|e]; cbn [rejection].
  - unfold onResponse. cbn [tokensRead readToken].
    destruct (getProp response "token") as [tok|e'] eqn:Hget.
    + set (m1 := mkManager _ tok _ _ _ _ _).
      destruct (scheduleNextRefresh_quiet m1) as (Hq & Hw).
      destruct (scheduleNextRefresh_spec m1) as (Ho & _).
      split; [reflexivity|]. split; [|unfold scheduleNextRefresh;
        destruct (refreshTimer m1); reflexivity].
      split; cbn [tokensRead readToken]; rewrite ?Hget;
        cbn [fst countFailure set_metrics effects metrics token
             lastRefresh refreshFailures refreshes List.length last].
      * unfold sameConnection, scheduleNextRefresh.
        destruct (refreshTimer m1); repeat split.
      * rewrite Hq. subst m1. cbn. rewrite requestsIssued_app, length_app.
        reflexivity.
      * rewrite Hw. subst m1. cbn. rewrite retryWaits_app, length_app.
        reflexivity.
      * unfold scheduleNextRefresh. destruct (refreshTimer m1); subst m1;
          cbn; lia.
      * unfold scheduleNextRefresh. destruct (refreshTimer m1); subst m1;
          cbn; lia.
      * unfold scheduleNextRefresh. destruct (refreshTimer m1); reflexivity.
      * unfold scheduleNextRefresh. destruct (refreshTimer m1); reflexivity.
    + assert (He : e' = TypeError)
        by (destruct response; cbn in Hget; congruence).
      subst e'. split; [reflexivity|]. split; [|reflexivity].
      split; cbn; rewrite ?Hget, ?requestsIssued_app, ?retryWaits_app,
        ?length_app; cbn; try reflexivity; try lia. repeat split.
  - split; [reflexivity|]. split; [|reflexivity].
    split; cbn; rewrite ?requestsIssued_app, ?retryWaits_app, ?length_app;
      cbn; try reflexivity; try lia. repeat split.
Qed.

Lemma tokensRead_app a b : tokensRead (a ++ b) = tokensRead a ++ tokensRead b.
Proof.
  induction a as [|outcome a IH]; [reflexivity|].
  cbn [app tokensRead]. destruct (readToken outcome); rewrite IH; reflexivity.
Qed.

Lemma last_token_default (l : list JsVal) : forall x d d',
  last (x :: l) d = last (x :: l) d'.
Proof.
  induction l as [|y l IH]; intros x d d'; [reflexivity|].
  change (last (y :: l) d = last (y :: l) d'). apply IH.
Qed.

Lemma last_tokens (a b : list JsVal) d : last (a ++ b) d = last b (last a d).
Proof.
  revert d. induction a as [|x a IH]; intros d; [reflexivity|].
  destruct a as [|y a].
  - cbn [app last]. destruct b as [|j b]; [reflexivity|].
    apply last_token_default.
  - change (last ((x :: y :: a) ++ b) d) with (last ((y :: a) ++ b) d).
    rewrite IH. reflexivity.
Qed.

Lemma Account_trans now m m1 m2 made1 made2 i1 w1 i2 w2 :
  Account now m m1 made1 i1 w1 ->
  Account now m1 m2 made2 i2 w2 ->
  Account now m m2 (made1 ++ made2) (i1 + i2) (w1 + w2).
Proof.
  intros [(Ho & Hc & Hr & Hl & Hd) Hi Hw Hf Hrf Ht Hlr]
         [(Ho' & Hc' & Hr' & Hl' & Hd') Hi' Hw' Hf' Hrf' Ht' Hlr'].
  split.
  - repeat split; congruence.
  - lia.
  - lia.
  - rewrite length_app. lia.
  - rewrite tokensRead_app, length_app. lia.
  - rewrite tokensRead_app, last_tokens, Ht', Ht. reflexivity.
  - rewrite tokensRead_app, Hlr', Hlr.
    destruct (tokensRead made1), (tokensRead made2); reflexivity.
Qed.

Lemma Account_wait now m d :
  Account now m (effect (RetryWait d) m) [] 0 1.
Proof.
  split; cbn; rewrite ?requestsIssued_app, ?retryWaits_app, ?length_app; cbn;
    try reflexivity; try lia. repeat split.
Qed.

Lemma Account_request now m method timeout :
  Account now m (effect (RequestIssued method timeout) m) [] 1 0.
Proof.
  split; cbn; rewrite ?requestsIssued_app, ?retryWaits_app, ?length_app; cbn;
    try reflexivity; try lia. repeat split.
Qed.

Lemma refreshLoop_step o now outcome rest a m :
  a < retryAttempts (options m) ->
  refreshLoop o now (outcome :: rest) a m =
  if retryAttempts (options (fst (attempt o now outcome m))) <=? S a
  then (fst (attempt o now outcome m),
        Rejected (snd (attempt o now outcome m)))
  else refreshLoop o now rest (S a)
         (effect (RetryWait (retryDelay (options (fst (attempt o now outcome m)))))
            (fst (attempt o now outcome m))).
Proof.
  intros Hlt. cbn [refreshLoop].
  destruct (Nat.ltb_spec a (retryAttempts (options m))); [|lia].
  unfold attempt. destruct outcome as [response|e]; [|reflexivity].
  destruct (onResponse now response
              (effect (RequestIssued "starling:state" (timeout o)) m));
    reflexivity.
Qed.

(** The loop entered below [retryAttempts]: with answers enough it makes
    every attempt that is left and rejects with the exception of the last
    one; with fewer it is suspended on the request that follows the last
    answer. *)
Lemma refreshLoop_account o now script : forall a m,
  a < retryAttempts (options m) ->
  let left := retryAttempts (options m) - a in
  let r := refreshLoop o now script a m in
  refreshing (fst r) = refreshing m /\
  (left <= List.length script ->
   (exists outcome, nth_error script (left - 1) = Some outcome /\
                    snd r = Rejected (rejection outcome)) /\
   Account now m (fst r) (firstn left script) left (left - 1)) /\
  (List.length script < left ->
   snd r = Suspended /\
   Account now m (fst r) script (S (List.length script))
     (List.length script)).
Proof.
  induction script as [|outcome rest IH]; intros a m Hlt; cbv zeta.
  - cbn [refreshLoop]. destruct (Nat.ltb_spec a (retryAttempts (options m)));
      [|lia].
    cbn [fst snd List.length]. split; [reflexivity|]. split; [lia|].
    intros _. split; [reflexivity|apply Account_request].
  - rewrite (refreshLoop_step o now outcome rest a m Hlt).
    destruct (attempt_account o now outcome m) as (He & Hacc & Hing).
    destruct (attempt o now outcome m) as [m3 e]. cbn [fst snd] in *.
    assert (Ho3 : options m3 = options m) by (destruct Hacc as [(Ho & _)]; exact Ho).
    rewrite Ho3.
    destruct (Nat.leb_spec (retryAttempts (options m)) (S a)) as [Hlast|Hmore].
    + assert (Hone : retryAttempts (options m) - a = 1) by lia.
      rewrite Hone. cbn [fst snd List.length Nat.sub nth_error firstn].
      split; [exact Hing|]. split; [|lia].
      intros _. split; [exists outcome; split; [reflexivity|congruence]|].
      exact Hacc.
    + set (m4 := effect (RetryWait (retryDelay (options m))) m3).
      assert (Ho4 : options m4 = options m) by exact Ho3.
      destruct (IH (S a) m4 ltac:(rewrite Ho4; exact Hmore))
        as (Hing' & Hfull & Hshort).
      rewrite Ho4 in Hfull, Hshort.
      assert (Hacc4 : Account now m m4 ([outcome] ++ []) (1 + 0) (0 + 1))
        by (apply (Account_trans now m m3 m4); [exact Hacc|apply Account_wait]).
      cbn [app Nat.add] in Hacc4.
      split; [rewrite Hing'; exact Hing|]. split.
      * intros Hlen. cbn [List.length] in Hlen.
        destruct (Hfull ltac:(lia)) as ((last & Hnth & Hrej) & Hacc').
        split.
        -- exists last. split; [|exact Hrej].
           replace (retryAttempts (options m) - a - 1)
             with (S (retryAttempts (options m) - S a - 1)) by lia.
           exact Hnth.
        -- replace (retryAttempts (options m) - a)
             with (S (retryAttempts (options m) - S a)) by lia.
           cbn [firstn].
           pose proof (Account_trans now m m4 _ _ _ _ _ _ _ Hacc4 Hacc') as H.
           cbn [app] in H.
           replace (S (retryAttempts (options m) - S a) - 1)
             with (1 + (retryAttempts (options m) - S a - 1)) by lia.
           exact H.
      * intros Hlen. cbn [List.length] in Hlen.
        destruct (Hshort ltac:(lia)) as (Hsus & Hacc').
        split; [exact Hsus|].
        pose proof (Account_trans now m m4 _ _ _ _ _ _ _ Hacc4 Hacc') as H.
        exact H.
Qed.

End StateRunFacts.

Section RefreshFacts.
Import StateManager StateRuns.

Lemma sameConnection_refl m : sameConnection m m.
Proof. repeat split. Qed.

(** [refresh] from its loop on, for a manager that passes both tests. *)
Lemma refresh_admitted o now script m :
  refreshing m = false ->
  throttled o now m = false ->
  refresh o now script m =
  match refreshLoop o now script 0 (set_refreshing true m) with
  | (m1, Suspended) => (m1, Suspended)
  | (m1, completion) => (set_refreshing false m1, completion)
  end.
Proof.
  intros Hing Hthr. unfold refresh. rewrite Hing.
  unfold throttled in Hthr. rewrite Hthr. reflexivity.
Qed.

Lemma refresh_never_resolved o now script m :
  0 < retryAttempts (options m) ->
  forall v, snd (refresh o now script m) <> Resolved v.
Proof.
  intros Hn v. unfold refresh.
  destruct (refreshing m); [discriminate|].
  destruct (negb (force o) && truthyTime (lastRefresh m) &&
            (now - timeOf (lastRefresh m) <? minRefreshInterval (options m))%Z);
    [discriminate|].
  destruct (refreshLoop_account o now script 0 (set_refreshing true m) Hn)
    as (_ & Hfull & Hshort).
  destruct (Nat.le_gt_cases
              (retryAttempts (options (set_refreshing true m)) - 0)
              (List.length script)) as [Hle|Hgt].
  - destruct (Hfull Hle) as ((outcome & _ & Hrej) & _).
    destruct (refreshLoop o now script 0 (set_refreshing true m)) as [m1 c].
    cbn [snd] in Hrej. subst c. discriminate.
  - destruct (Hshort Hgt) as (Hsus & _).
    destruct (refreshLoop o now script 0 (set_refreshing true m)) as [m1 c].
    cbn [snd] in Hsus. subst c. discriminate.
Qed.

Lemma refresh_sameConnection o now script m :
  sameConnection m (fst (refresh o now script m)).
Proof.
  unfold refresh.
  destruct (refreshing m); [apply sameConnection_refl|].
  destruct (negb (force o) && truthyTime (lastRefresh m) &&
            (now - timeOf (lastRefresh m) <? minRefreshInterval (options m))%Z);
    [apply sameConnection_refl|].
  assert (Hloop : sameConnection m
            (fst (refreshLoop o now script 0 (set_refreshing true m)))).
  { destruct (Nat.eq_dec (retryAttempts (options m)) 0) as [Hz|Hnz].
    - destruct script; cbn [refreshLoop set_refreshing options]; rewrite Hz;
        cbn; repeat split.
    - destruct (refreshLoop_account o now script 0 (set_refreshing true m))
        as (_ & Hfull & Hshort); [cbn; lia|].
      destruct (Nat.le_gt_cases
                  (retryAttempts (options (set_refreshing true m)) - 0)
                  (List.length script)) as [Hle|Hgt].
      + destruct (Hfull Hle) as (_ & [Hc _ _ _ _ _ _]). exact Hc.
      + destruct (Hshort Hgt) as (_ & [Hc _ _ _ _ _ _]). exact Hc. }
  destruct (refreshLoop o now script 0 (set_refreshing true m)) as [m1 c].
  cbn [fst] in Hloop. destruct c; exact Hloop.
Qed.

End RefreshFacts.

(** X21.  With [retryAttempts] of one or more, [refresh] never resolves:
    whatever the state of the manager and the answers of the server, the
    promise is rejected or stays pending.  Every response ends in the
    TypeError of [_emitRefreshSuccess], which the loop counts as a failed
    attempt. *)
Theorem refresh_never_resolves (o : StateManager.RefreshOptions) (now : Z)
  (script : list StateManager.RequestOutcome) (m : StateManager.Manager) :
  0 < StateManager.retryAttempts (StateManager.options m) ->
  (forall v, snd (StateManager.refresh o now script m) <>
             StateManager.Resolved v) /\
  (StateManager.refreshing m = false ->
   StateRuns.throttled o now m = false ->
   StateManager.retryAttempts (StateManager.options m) <= List.length script ->
   (forall outcome, In outcome script ->
      exists response, outcome = StateManager.Responds response) ->
   snd (StateManager.refresh o now script m) =
     StateManager.Rejected TypeError).
Proof.
  intros Hn. split; [exact (refresh_never_resolved o now script m Hn)|].
  intros Hing Hthr Hlen Hall.
  rewrite (refresh_admitted o now script m Hing Hthr).
  destruct (refreshLoop_account o now script 0
              (StateManager.set_refreshing true m) Hn)
    as (_ & Hfull & _).
  destruct (Hfull ltac:(cbn; lia)) as ((outcome & Hnth & Hrej) & _).
  destruct (Hall outcome (nth_error_In _ _ Hnth)) as (response & ->).
  destruct (StateManager.refreshLoop o now script 0
              (StateManager.set_refreshing true m)) as [m1 c].
  cbn [snd] in Hrej. subst c. reflexivity.
Qed.

(** X21 on the default options and a server that answers with a token. *)
Lemma refresh_never_resolves_witness :
  let m := StateManager.new StateManager.defaultOptions in
  let answer := StateManager.Responds (JObj [("token", JStr "t1")]) in
  0 < StateManager.retryAttempts (StateManager.options m) /\
  snd (StateManager.refresh (StateManager.mkRefreshOptions false None) 1000
         [answer; answer; answer] m) = StateManager.Rejected TypeError.
Proof.
  intros m answer.
  assert (Hn : 0 < StateManager.retryAttempts (StateManager.options m))
    by (cbn; lia).
  split; [exact Hn|].
  apply (proj2 (refresh_never_resolves
                  (StateManager.mkRefreshOptions false None) 1000
                  [answer; answer; answer] m Hn)).
  - reflexivity.
  - reflexivity.
  - cbn. lia.
  - intros outcome Hin. exists (JObj [("token", JStr "t1")]).
    destruct Hin as [<-|[<-|[<-|[]]]]; reflexivity.
Defined.

(** X22.  A [refresh] that passes both tests, on a manager configured for
    [n >= 1] attempts and a server that answers each request, makes all [n]
    attempts whatever the answers are: it issues [n] requests, waits
    [n - 1] times in between, counts [n] failures, is rejected with the
    exception of the last attempt (a TypeError when that was a response),
    and clears the flag [refreshing]. *)
Theorem refresh_accounting (o : StateManager.RefreshOptions) (now : Z)
  (script : list StateManager.RequestOutcome) (m : StateManager.Manager) :
  let n := StateManager.retryAttempts (StateManager.options m) in
  let m' := fst (StateManager.refresh o now script m) in
  StateManager.refreshing m = false ->
  StateRuns.throttled o now m = false ->
  0 < n ->
  n <= List.length script ->
  (exists outcome,
     nth_error script (n - 1) = Some outcome /\
     snd (StateManager.refresh o now script m) =
       StateManager.Rejected (StateRuns.rejection outcome)) /\
  List.length (StateManager.requestsIssued (StateManager.effects m')) =
    List.length (StateManager.requestsIssued (StateManager.effects m)) + n /\
  List.length (StateRuns.retryWaits (StateManager.effects m')) =
    List.length (StateRuns.retryWaits (StateManager.effects m)) + (n - 1) /\
  StateManager.refreshFailures (StateManager.metrics m') =
    StateManager.refreshFailures (StateManager.metrics m) + n /\
  StateManager.refreshing m' = false.
Proof.
  intros n m' Hing Hthr Hn Hlen. subst m'.
  rewrite (refresh_admitted o now script m Hing Hthr).
  destruct (refreshLoop_account o now script 0
              (StateManager.set_refreshing true m) Hn)
    as (_ & Hfull & _).
  destruct (Hfull ltac:(cbn; lia))
    as ((outcome & Hnth & Hrej) & [_ Hi Hw Hf _ _ _]).
  cbn [StateManager.options StateManager.set_refreshing] in *.
  rewrite Nat.sub_0_r in *. fold n in Hnth, Hi, Hw, Hf.
  rewrite length_firstn, (Nat.min_l _ _ Hlen) in Hf.
  destruct (StateManager.refreshLoop o now script 0
              (StateManager.set_refreshing true m)) as [m1 c].
  cbn [fst snd] in *. subst c. cbn [fst snd].
  split; [exists outcome; split; [exact Hnth|reflexivity]|].
  repeat split; assumption.
Qed.

(** X22 on the default options: three attempts, the third answered with a
    token. *)
Lemma refresh_accounting_witness :
  let m := StateManager.new StateManager.defaultOptions in
  let o := StateManager.mkRefreshOptions false None in
  let script := [StateManager.Fails (Error "Request timeout");
                 StateManager.Fails (Error "Request timeout");
                 StateManager.Responds (JObj [("token", JStr "t1")])] in
  StateManager.refreshing m = false /\
  StateRuns.throttled o 1000 m = false /\
  List.length (StateManager.requestsIssued
                 (StateManager.effects
                    (fst (StateManager.refresh o 1000 script m)))) = 3 /\
  StateManager.refreshFailures
    (StateManager.metrics (fst (StateManager.refresh o 1000 script m))) = 3.
Proof.
  intros m o script.
  destruct (refresh_accounting o 1000 script m eq_refl eq_refl
              ltac:(cbn; lia) ltac:(cbn; lia)) as (_ & Hi & _ & Hf & _).
  split; [reflexivity|]. split; [reflexivity|]. split; [exact Hi|exact Hf].
Defined.

(** X23.  Although [refresh] is rejected, every token that could be read
    off a response is stored: after the [n >= 1] attempts of a [refresh]
    that passes both tests and whose requests are all answered, the manager
    holds the token of the last response whose [token] could be read (the
    one it had, if there is none), has counted each such response as a
    refresh, and has set the time of the last refresh to the clock value of
    the call if there was one. *)
Theorem refresh_stores_tokens (o : StateManager.RefreshOptions) (now : Z)
  (script : list StateManager.RequestOutcome) (m : StateManager.Manager) :
  let n := StateManager.retryAttempts (StateManager.options m) in
  let m' := fst (StateManager.refresh o now script m) in
  let read := StateRuns.tokensRead (firstn n script) in
  StateManager.refreshing m = false ->
  StateRuns.throttled o now m = false ->
  0 < n ->
  n <= List.length script ->
  StateManager.token m' = last read (StateManager.token m) /\
  StateManager.refreshes (StateManager.metrics m') =
    StateManager.refreshes (StateManager.metrics m) + List.length read /\
  StateManager.lastRefresh m' =
    match read with
    | [] => StateManager.lastRefresh m
    | _ :: _ => Some now
    end.
Proof.
  intros n m' read Hing Hthr Hn Hlen. subst m' read.
  rewrite (refresh_admitted o now script m Hing Hthr).
  destruct (refreshLoop_account o now script 0
              (StateManager.set_refreshing true m) Hn)
    as (_ & Hfull & _).
  destruct (Hfull ltac:(cbn; lia))
    as ((outcome & Hnth & Hrej) & [_ _ _ _ Hr Ht Hl]).
  cbn [StateManager.options StateManager.set_refreshing] in *.
  rewrite Nat.sub_0_r in *. fold n in Hr, Ht, Hl.
  destruct (StateManager.refreshLoop o now script 0
              (StateManager.set_refreshing true m)) as [m1 c].
  cbn [fst snd] in *. subst c. cbn [fst snd].
  repeat split; assumption.
Qed.

(** X23 on the default options: the second and third attempts are
    answered with tokens. *)
Lemma refresh_stores_tokens_witness :
  let m := StateManager.new StateManager.defaultOptions in
  let o := StateManager.mkRefreshOptions false None in
  let script := [StateManager.Fails (Error "Request timeout");
                 StateManager.Responds (JObj [("token", JStr "t1")]);
                 StateManager.Responds (JObj [("token", JStr "t2")])] in
  StateManager.refreshing m = false /\
  StateRuns.throttled o 1000 m = false /\
  StateManager.token (fst (StateManager.refresh o 1000 script m)) =
    JStr "t2" /\
  StateManager.lastRefresh (fst (StateManager.refresh o 1000 script m)) =
    Some 1000%Z.
Proof.
  intros m o script.
  destruct (refresh_stores_tokens o 1000 script m eq_refl eq_refl
              ltac:(cbn; lia) ltac:(cbn; lia)) as (Ht & _ & Hl).
  split; [reflexivity|]. split; [reflexivity|]. split; [exact Ht|exact Hl].
Defined.

(** X24.  [ensureFreshToken] hands out the stored token exactly when there
    is one and the last refresh is younger than [refreshInterval], and then
    does nothing else.  In every other case it is a [refresh], so that,
    with [retryAttempts] of one or more, it never resolves: a caller never
    receives a token that this call has fetched. *)
Theorem ensureFreshToken_stored_only (now now' : Z)
  (script : list StateManager.RequestOutcome) (m : StateManager.Manager) :
  0 < StateManager.retryAttempts (StateManager.options m) ->
  (StateRuns.fresh now m = true ->
   StateRuns.ensureFreshToken now now' script m =
     (m, StateManager.Resolved (StateManager.token m))) /\
  (StateRuns.fresh now m = false ->
   forall v, snd (StateRuns.ensureFreshToken now now' script m) <>
             StateManager.Resolved v).
Proof.
  intros Hn. unfold StateRuns.fresh, StateRuns.ensureFreshToken.
  destruct (truthy (StateManager.token m)); cbn [negb andb orb];
    [|split; [discriminate|intros _; apply refresh_never_resolved; exact Hn]].
  destruct (StateManager.truthyTime (StateManager.lastRefresh m));
    cbn [negb andb orb];
    [|split; [discriminate|intros _; apply refresh_never_resolved; exact Hn]].
  destruct (Z.leb_spec (StateManager.refreshInterval (StateManager.options m))
              (now - StateManager.timeOf (StateManager.lastRefresh m)))
    as [Hold|Hyoung].
  - split; [intros H; apply Z.ltb_lt in H; lia|].
    intros _. apply refresh_never_resolved. exact Hn.
  - split; [reflexivity|]. intros H. apply Z.ltb_ge in H. lia.
Qed.

(** X24 on a manager that holds a token refreshed a minute ago. *)
Lemma ensureFreshToken_stored_only_witness :
  let m := StateManager.mkManager StateManager.defaultOptions (JStr "t1")
             (Some 1000%Z) true false
             (StateManager.mkMetrics 0 0 None 0 1 1) [] in
  0 < StateManager.retryAttempts (StateManager.options m) /\
  StateRuns.fresh 61000 m = true /\
  StateRuns.ensureFreshToken 61000 61001 [] m =
    (m, StateManager.Resolved (JStr "t1")).
Proof.
  intros m.
  assert (Hn : 0 < StateManager.retryAttempts (StateManager.options m))
    by (cbn; lia).
  split; [exact Hn|]. split; [reflexivity|].
  exact (proj1 (ensureFreshToken_stored_only 61000 61001 [] m Hn) eq_refl).
Defined.

(** X25.  The downtime is counted from the last disconnection to each
    event [starling:connected]: a disconnection at clock [t1] clears the
    refresh timer, and the connection at [t2] adds [t2 - t1] to the total
    downtime and counts one reconnection.  The time of the disconnection is
    never cleared, so a further event at [t3] without a disconnection in
    between adds [t3 - t1] again.  With [forceRefreshOnReconnect], and
    unless a refresh is in progress, the connection issues the request of a
    refresh whatever the minimum interval says. *)
Theorem reconnect_accounting (m : StateManager.Manager) (t1 t2 t3 : Z)
  (script script' : list StateManager.RequestOutcome) :
  let m1 := StateManager.onDisconnected t1 m in
  let m2 := StateManager.onConnected t2 script m1 in
  let m3 := StateManager.onConnected t3 script' m2 in
  let downtime x := StateManager.totalDowntime (StateManager.metrics x) in
  let reconnections x := StateManager.reconnections (StateManager.metrics x) in
  t1 <> 0%Z ->
  StateManager.refreshTimer m1 = false /\
  downtime m2 = (downtime m + (t2 - t1))%Z /\
  reconnections m2 = S (reconnections m) /\
  downtime m3 = (downtime m + (t2 - t1) + (t3 - t1))%Z /\
  reconnections m3 = S (S (reconnections m)) /\
  (StateManager.forceRefreshOnReconnect (StateManager.options m) = true ->
   StateManager.refreshing m = false ->
   0 < StateManager.retryAttempts (StateManager.options m) ->
   exists more,
     StateManager.effects m2 =
     StateManager.effects m1 ++
     StateManager.RequestIssued "starling:state" None :: more).
Proof.
  intros m1 m2 m3 downtime reconnections Ht1.
  apply Z.eqb_neq in Ht1.
  assert (Hm1 : StateManager.refreshTimer m1 = false /\
                StateManager.options m1 = StateManager.options m /\
                StateManager.refreshing m1 = StateManager.refreshing m /\
                StateManager.lastDisconnect (StateManager.metrics m1) =
                  Some t1 /\
                downtime m1 = downtime m /\
                reconnections m1 = reconnections m).
  { subst m1. unfold StateManager.onDisconnected.
    cbn [StateManager.refreshTimer StateManager.set_metrics].
    destruct (StateManager.refreshTimer m) eqn:Htimer; repeat split.
    exact Htimer. }
  destruct Hm1 as (Htimer & Ho1 & Hing1 & Hld1 & Hd1 & Hr1).
  clearbody m1.
  assert (Hstep : forall t sc x,
    StateManager.lastDisconnect (StateManager.metrics x) = Some t1 ->
    let x' := StateManager.onConnected t sc x in
    StateManager.lastDisconnect (StateManager.metrics x') = Some t1 /\
    downtime x' = (downtime x + (t - t1))%Z /\
    reconnections x' = S (reconnections x)).
  { intros t sc x Hld. cbv zeta. unfold StateManager.onConnected.
    rewrite Hld. cbn [StateManager.truthyTime StateManager.timeOf].
    rewrite Ht1. cbn [negb].
    set (x1 := StateManager.set_metrics _ x).
    assert (Hx1 : StateManager.lastDisconnect (StateManager.metrics x1) =
                    Some t1 /\
                  downtime x1 = (downtime x + (t - t1))%Z /\
                  reconnections x1 = S (reconnections x))
      by (subst x1; cbn; repeat split).
    destruct (StateManager.forceRefreshOnReconnect (StateManager.options x1));
      [|exact Hx1].
    destruct (refresh_sameConnection
                (StateManager.mkRefreshOptions true None) t sc x1)
      as (_ & _ & Hr & Hl & Hd).
    destruct Hx1 as (Hl1 & Hd1' & Hr1').
    subst downtime reconnections. cbv beta in *.
    rewrite Hl, Hd, Hr. repeat split; assumption. }
  destruct (Hstep t2 script m1 Hld1) as (Hld2 & Hd2 & Hr2). fold m2 in Hld2, Hd2, Hr2.
  destruct (Hstep t3 script' m2 Hld2) as (_ & Hd3 & Hr3). fold m3 in Hd3, Hr3.
  split; [exact Htimer|]. split; [rewrite Hd2, Hd1; reflexivity|].
  split; [rewrite Hr2, Hr1; reflexivity|].
  split; [rewrite Hd3, Hd2, Hd1; reflexivity|].
  split; [rewrite Hr3, Hr2, Hr1; reflexivity|].
  intros Hforce Hing Hn. subst m2. unfold StateManager.onConnected.
  rewrite Hld1. cbn [StateManager.truthyTime]. rewrite Ht1. cbn [negb].
  cbn [StateManager.options StateManager.set_metrics].
  rewrite Ho1, Hforce. unfold StateManager.refresh.
  cbn [StateManager.refreshing StateManager.set_metrics StateManager.force
       negb andb].
  rewrite Hing1, Hing.
  match goal with
  | |- context [StateManager.refreshLoop ?o ?now ?sc 0 ?x] =>
      destruct (refreshLoop_issues o now sc 0 x) as (more & Hmore);
        [cbn; rewrite Ho1; exact Hn|];
      destruct (StateManager.refreshLoop o now sc 0 x) as [mr c]
  end.
  cbn [fst] in Hmore. exists more.
  destruct c; cbn [fst StateManager.effects StateManager.set_refreshing];
    exact Hmore.
Qed.

(** X25 on a manager that refreshed a moment before the connection was
    lost. *)
Lemma reconnect_accounting_witness :
  let m := StateManager.mkManager StateManager.defaultOptions (JStr "t1")
             (Some 1000%Z) true false
             (StateManager.mkMetrics 0 0 None 0 1 1) [] in
  let m2 := StateManager.onConnected 3500 []
              (StateManager.onDisconnected 2000 m) in
  2000%Z <> 0%Z /\
  StateManager.totalDowntime (StateManager.metrics m2) = 1500%Z /\
  StateManager.reconnections (StateManager.metrics m2) = 1.
Proof.
  intros m m2.
  assert (Ht : 2000%Z <> 0%Z) by discriminate.
  destruct (reconnect_accounting m 2000 3500 3500 [] [] Ht)
    as (_ & Hd & Hr & _).
  split; [exact Ht|]. split; [exact Hd|exact Hr].
Defined.

(** ** The reconnection manager of the first client *)

Section LegacyFacts.
Import LegacyReconnection.
Context {num : Type} {N : JsNumber num}.
Variable pow : num -> nat -> num.

Lemma legacy_waits_app (a b : list (Effect num)) :
  waits (a ++ b) = waits a ++ waits b.
Proof.
  induction a as [|e a IH]; [reflexivity|].
  destruct e; cbn; rewrite IH; reflexivity.
Qed.

Lemma announced_app (a b : list (Effect num)) :
  announced (a ++ b) = announced a ++ announced b.
Proof.
  induction a as [|e a IH]; [reflexivity|].
  destruct e; cbn; rewrite IH; reflexivity.
Qed.

Lemma givenUp_app (a b : list (Effect num)) :
  givenUp (a ++ b) = givenUp a ++ givenUp b.
Proof.
  induction a as [|e a IH]; [reflexivity|].
  destruct e; cbn; rewrite IH; reflexivity.
Qed.

Lemma connectCalls_app (a b : list (Effect num)) :
  connectCalls (a ++ b) = connectCalls a + connectCalls b.
Proof.
  induction a as [|e a IH]; [reflexivity|].
  destruct e; cbn; rewrite IH; reflexivity.
Qed.

(** What [announce] adds. *)
Lemma announce_effects (m : Manager num) :
  waits (effects (announce pow m)) =
    waits (effects m) ++ [delayOf pow (options m) (attempts m)] /\
  announced (effects (announce pow m)) =
    announced (effects m) ++
    [(S (attempts m), delayOf pow (options m) (attempts m))] /\
  givenUp (effects (announce pow m)) = givenUp (effects m) /\
  connectCalls (effects (announce pow m)) = connectCalls (effects m).
Proof.
  unfold announce. cbn.
  rewrite !legacy_waits_app, !announced_app, !givenUp_app, !connectCalls_app.
  cbn. rewrite !app_nil_r, !Nat.add_0_r. repeat split.
Qed.

Lemma delaysFrom_cons (o : Options num) first k :
  delaysFrom pow o first (S k) =
  delayOf pow o first :: delaysFrom pow o (S first) k.
Proof. reflexivity. Qed.

Lemma announcedFrom_cons (o : Options num) first k :
  announcedFrom pow o first (S k) =
  (S first, delayOf pow o first) :: announcedFrom pow o (S first) k.
Proof. reflexivity. Qed.

(** Whatever the environment does, the timers of a loop wait for the
    delays of the attempts in turn, and the loop stays within the cap. *)
Lemma scheduleReconnect_delays script : forall m : Manager num,
  exists k,
    waits (effects (scheduleReconnect pow script m)) =
      waits (effects m) ++ delaysFrom pow (options m) (attempts m) k /\
    announced (effects (scheduleReconnect pow script m)) =
      announced (effects m) ++ announcedFrom pow (options m) (attempts m) k /\
    connectCalls (effects (scheduleReconnect pow script m)) <=
      connectCalls (effects m) + k /\
    (forall cap, maxAttempts (options m) = Some cap -> k <= cap - attempts m).
Proof.
  assert (Hnone : forall m : Manager num, exists k,
    waits (effects m) =
      waits (effects m) ++ delaysFrom pow (options m) (attempts m) k /\
    announced (effects m) =
      announced (effects m) ++ announcedFrom pow (options m) (attempts m) k /\
    connectCalls (effects m) <= connectCalls (effects m) + k /\
    (forall cap, maxAttempts (options m) = Some cap -> k <= cap - attempts m)).
  { intros m. exists 0. cbn. rewrite !app_nil_r. repeat split; lia. }
  induction script as [|r rest IH]; intros m; cbn [scheduleReconnect].
  - destruct (negb (active m) || negb (canRetry m)) eqn:Hgo; [apply Hnone|].
    destruct (announce_effects m) as (Hw & Ha & _ & Hc).
    exists 1. rewrite Hw, Ha, Hc. repeat split; try lia.
    intros cap Hcap. unfold canRetry in Hgo. rewrite Hcap in Hgo.
    apply Bool.orb_false_elim in Hgo. destruct Hgo as (_ & Hgo).
    apply Bool.negb_false_iff, Nat.ltb_lt in Hgo. lia.
  - destruct (negb (active m) || negb (canRetry m)) eqn:Hgo; [apply Hnone|].
    assert (Hroom : forall cap, maxAttempts (options m) = Some cap ->
                                attempts m < cap).
    { intros cap Hcap. unfold canRetry in Hgo. rewrite Hcap in Hgo.
      apply Bool.orb_false_elim in Hgo. destruct Hgo as (_ & Hgo).
      apply Bool.negb_false_iff, Nat.ltb_lt in Hgo. exact Hgo. }
    destruct (announce_effects m) as (Hw & Ha & _ & Hc).
    assert (Hone : exists k,
      waits (effects (announce pow m)) =
        waits (effects m) ++ delaysFrom pow (options m) (attempts m) k /\
      announced (effects (announce pow m)) =
        announced (effects m) ++ announcedFrom pow (options m) (attempts m) k /\
      connectCalls (effects (announce pow m)) + 1 <=
        connectCalls (effects m) + k /\
      (forall cap, maxAttempts (options m) = Some cap -> k <= cap - attempts m)).
    { exists 1. rewrite Hw, Ha, Hc. repeat split; try lia.
      intros cap Hcap. specialize (Hroom cap Hcap). lia. }
    destruct r as [| |outcome]; [apply Hnone| |].
    + destruct Hone as (k & H1 & H2 & H3 & H4). exists k.
      repeat split; try assumption. cbn in *. lia.
    + destruct outcome.
      * destruct Hone as (k & H1 & H2 & H3 & H4). exists k.
        cbn [reset stop set_timeoutId set_active set_attempts effects effect].
        rewrite legacy_waits_app, announced_app, connectCalls_app. cbn.
        rewrite !app_nil_r. repeat split; try assumption; lia.
      * set (m2 := effect ConnectCalled
                     (set_attempts (S (attempts (announce pow m)))
                        (announce pow m))).
        assert (Hw2 : waits (effects m2) =
                      waits (effects m) ++
                      [delayOf pow (options m) (attempts m)]).
        { subst m2. cbn [effects effect set_attempts].
          rewrite legacy_waits_app, Hw. cbn. now rewrite app_nil_r. }
        assert (Ha2 : announced (effects m2) =
                      announced (effects m) ++
                      [(S (attempts m), delayOf pow (options m) (attempts m))]).
        { subst m2. cbn [effects effect set_attempts].
          rewrite announced_app, Ha. cbn. now rewrite app_nil_r. }
        assert (Hc2 : connectCalls (effects m2) = S (connectCalls (effects m))).
        { subst m2. cbn [effects effect set_attempts].
          rewrite connectCalls_app, Hc. cbn. lia. }
        assert (Hat2 : attempts m2 = S (attempts m)) by reflexivity.
        assert (Ho2 : options m2 = options m) by reflexivity.
        destruct (canRetry m2) eqn:Hretry.
        -- destruct (IH m2) as (k & H1 & H2 & H3 & H4).
           exists (S k). rewrite H1, H2, Hw2, Ha2, Ho2, Hat2.
           rewrite delaysFrom_cons, announcedFrom_cons, <- !app_assoc.
           repeat split; try lia.
           intros cap Hcap. specialize (Hroom cap Hcap).
           specialize (H4 cap ltac:(rewrite Ho2; exact Hcap)). lia.
        -- exists 1.
           cbn [reset stop set_timeoutId set_active set_attempts effects effect].
           rewrite legacy_waits_app, announced_app, connectCalls_app.
           fold (effects m2). rewrite Hw2, Ha2, Hc2. cbn.
           rewrite !app_nil_r. repeat split; try lia.
           intros cap Hcap. specialize (Hroom cap Hcap). lia.
Qed.

(** A loop whose connections are all rejected runs into the cap. *)
Lemma scheduleReconnect_rejections j : forall (m : Manager num) cap rest,
  active m = true ->
  maxAttempts (options m) = Some cap ->
  attempts m < cap ->
  cap - attempts m <= j ->
  let m' := scheduleReconnect pow (rejections j ++ rest) m in
  waits (effects m') =
    waits (effects m) ++
    delaysFrom pow (options m) (attempts m) (cap - attempts m) /\
  announced (effects m') =
    announced (effects m) ++
    announcedFrom pow (options m) (attempts m) (cap - attempts m) /\
  connectCalls (effects m') = connectCalls (effects m) + (cap - attempts m) /\
  givenUp (effects m') = givenUp (effects m) ++ [cap] /\
  active m' = false /\ timeoutId m' = false /\ attempts m' = 0 /\
  options m' = options m.
Proof.
  induction j as [|j IH]; intros m cap rest Hact Hcap Hlt Hlen; [lia|].
  cbv zeta. cbn [rejections repeat app scheduleReconnect].
  assert (Hgo : canRetry m = true)
    by (unfold canRetry; rewrite Hcap; apply Nat.ltb_lt; exact Hlt).
  rewrite Hact, Hgo. cbn [negb orb].
  destruct (announce_effects m) as (Hw & Ha & Hg & Hc).
  set (m2 := effect ConnectCalled
               (set_attempts (S (attempts (announce pow m)))
                  (announce pow m))).
  assert (Hw2 : waits (effects m2) =
                waits (effects m) ++ [delayOf pow (options m) (attempts m)]).
  { subst m2. cbn [effects effect set_attempts].
    rewrite legacy_waits_app, Hw. cbn. now rewrite app_nil_r. }
  assert (Ha2 : announced (effects m2) =
                announced (effects m) ++
                [(S (attempts m), delayOf pow (options m) (attempts m))]).
  { subst m2. cbn [effects effect set_attempts].
    rewrite announced_app, Ha. cbn. now rewrite app_nil_r. }
  assert (Hc2 : connectCalls (effects m2) = S (connectCalls (effects m))).
  { subst m2. cbn [effects effect set_attempts].
    rewrite connectCalls_app, Hc. cbn. lia. }
  assert (Hg2 : givenUp (effects m2) = givenUp (effects m)).
  { subst m2. cbn [effects effect set_attempts].
    rewrite givenUp_app, Hg. cbn. now rewrite app_nil_r. }
  assert (Hat2 : attempts m2 = S (attempts m)) by reflexivity.
  assert (Ho2 : options m2 = options m) by reflexivity.
  assert (Hact2 : active m2 = true) by exact Hact.
  unfold canRetry. rewrite Ho2, Hcap, Hat2.
  replace (cap - attempts m) with (S (cap - S (attempts m))) by lia.
  rewrite delaysFrom_cons, announcedFrom_cons.
  destruct (Nat.ltb_spec (S (attempts m)) cap) as [Hmore|Hlast].
  - fold (rejections j).
    destruct (IH m2 cap rest Hact2 ltac:(rewrite Ho2; exact Hcap)
                ltac:(rewrite Hat2; exact Hmore) ltac:(rewrite Hat2; lia))
      as (H1 & H2 & H3 & H4 & H5 & H6 & H7 & H8).
    rewrite Hat2, Ho2 in *.
    rewrite H1, H2, H3, H4, Hw2, Ha2, Hc2, Hg2, <- !app_assoc.
    repeat split; try assumption; lia.
  - clearbody m2.
    cbn [reset stop set_timeoutId set_active set_attempts effects effect
         active timeoutId attempts options].
    rewrite legacy_waits_app, announced_app, connectCalls_app, givenUp_app.
    rewrite Hw2, Ha2, Hc2, Hg2.
    replace (cap - S (attempts m)) with 0 by lia.
    replace (S (attempts m)) with cap by lia. cbn.
    rewrite !app_nil_r. repeat split; try assumption; lia.
Qed.

End LegacyFacts.

(** X26.  The manager of the first client waits for the base delay times
    the power of the factor that counts the attempts made: whatever the
    environment does, the timers that one [start] sets wait for
    [delay], [delay * factor], [delay * factor^2] and so on, each announced
    with the number of its attempt, the connection is tried once per
    elapsed wait at most, and the number of waits stays within
    [maxAttempts]. *)
Theorem legacy_delays_geometric {num : Type} {N : JsNumber num}
  (pow : num -> nat -> num) (m : LegacyReconnection.Manager num)
  (script : list LegacyReconnection.Round) :
  let o := LegacyReconnection.options m in
  let m' := LegacyReconnection.start pow script m in
  LegacyReconnection.active m = false ->
  exists k,
    LegacyReconnection.waits (LegacyReconnection.effects m') =
      LegacyReconnection.waits (LegacyReconnection.effects m) ++
      LegacyReconnection.delaysFrom pow o 0 k /\
    LegacyReconnection.announced (LegacyReconnection.effects m') =
      LegacyReconnection.announced (LegacyReconnection.effects m) ++
      LegacyReconnection.announcedFrom pow o 0 k /\
    LegacyReconnection.connectCalls (LegacyReconnection.effects m') <=
      LegacyReconnection.connectCalls (LegacyReconnection.effects m) + k /\
    (forall cap, LegacyReconnection.maxAttempts o = Some cap -> k <= cap).
Proof.
  intros o m' Hact. subst m'. unfold LegacyReconnection.start.
  rewrite Hact.
  destruct (scheduleReconnect_delays pow script
              (LegacyReconnection.set_attempts 0
                 (LegacyReconnection.set_active true m)))
    as (k & Hw & Ha & Hc & Hcap).
  exists k. cbn [LegacyReconnection.effects LegacyReconnection.options
                 LegacyReconnection.attempts LegacyReconnection.set_attempts
                 LegacyReconnection.set_active] in *.
  repeat split; try assumption.
  intros cap Ho. specialize (Hcap cap Ho). lia.
Qed.

(** X26 on the default options and two rejected connections. *)
Lemma legacy_delays_geometric_witness :
  let pow := fun (x : Q) (n : nat) => Qpower x (Z.of_nat n) in
  let m := LegacyReconnection.new LegacyReconnection.defaultOptions in
  LegacyReconnection.active m = false /\
  exists k,
    LegacyReconnection.waits
      (LegacyReconnection.effects
         (LegacyReconnection.start pow (LegacyReconnection.rejections 2) m)) =
    LegacyReconnection.delaysFrom pow LegacyReconnection.defaultOptions 0 k.
Proof.
  intros pow m. split; [reflexivity|].
  destruct (legacy_delays_geometric pow m (LegacyReconnection.rejections 2)
              eq_refl) as (k & Hw & _).
  exists k. exact Hw.
Defined.

(** X27.  When every connection is rejected, the manager gives up exactly
    at [maxAttempts]: a [start] on an inactive manager with a cap of
    [n >= 1] waits [n] times, tries the connection [n] times, emits
    [reconnect:failed] once, with [n] as the number of attempts, and leaves
    the manager inactive, without timer, its counter back at zero. *)
Theorem legacy_gives_up {num : Type} {N : JsNumber num}
  (pow : num -> nat -> num) (m : LegacyReconnection.Manager num)
  (n j : nat) (rest : list LegacyReconnection.Round) :
  let o := LegacyReconnection.options m in
  let m' := LegacyReconnection.start pow
              (LegacyReconnection.rejections j ++ rest) m in
  LegacyReconnection.active m = false ->
  LegacyReconnection.maxAttempts o = Some n ->
  0 < n ->
  n <= j ->
  LegacyReconnection.waits (LegacyReconnection.effects m') =
    LegacyReconnection.waits (LegacyReconnection.effects m) ++
    LegacyReconnection.delaysFrom pow o 0 n /\
  LegacyReconnection.connectCalls (LegacyReconnection.effects m') =
    LegacyReconnection.connectCalls (LegacyReconnection.effects m) + n /\
  LegacyReconnection.givenUp (LegacyReconnection.effects m') =
    LegacyReconnection.givenUp (LegacyReconnection.effects m) ++ [n] /\
  LegacyReconnection.active m' = false /\
  LegacyReconnection.timeoutId m' = false /\
  LegacyReconnection.attempts m' = 0.
Proof.
  intros o m' Hact Hcap Hn Hj. subst m'. unfold LegacyReconnection.start.
  rewrite Hact.
  destruct (scheduleReconnect_rejections pow j
              (LegacyReconnection.set_attempts 0
                 (LegacyReconnection.set_active true m)) n rest
              eq_refl Hcap Hn ltac:(cbn; lia))
    as (Hw & _ & Hc & Hg & Ha & Ht & Hat & _).
  cbn [LegacyReconnection.effects LegacyReconnection.options
       LegacyReconnection.attempts LegacyReconnection.set_attempts
       LegacyReconnection.set_active] in *.
  rewrite Nat.sub_0_r in *. repeat split; assumption.
Qed.

(** X27 on the default options: five attempts. *)
Lemma legacy_gives_up_witness :
  let pow := fun (x : Q) (n : nat) => Qpower x (Z.of_nat n) in
  let m := LegacyReconnection.new LegacyReconnection.defaultOptions in
  let m' := LegacyReconnection.start pow
              (LegacyReconnection.rejections 5 ++ []) m in
  LegacyReconnection.active m = false /\
  LegacyReconnection.maxAttempts (LegacyReconnection.options m) = Some 5 /\
  LegacyReconnection.givenUp (LegacyReconnection.effects m') = [5] /\
  LegacyReconnection.connectCalls (LegacyReconnection.effects m') = 5.
Proof.
  intros pow m m'.
  destruct (legacy_gives_up pow m 5 5 [] eq_refl eq_refl ltac:(lia) ltac:(lia))
    as (_ & Hc & Hg & _).
  split; [reflexivity|]. split; [reflexivity|]. split; [exact Hg|exact Hc].
Defined.

(** X28.  Two ways in which the manager of the first client gets stuck: a
    [start] with [maxAttempts] at zero, or one that finds the client
    connected, marks the manager active and returns without timer, event or
    reset, so that every later [start] returns at once as well, until
    [stop] or [reset] is called. *)
Theorem legacy_start_stuck {num : Type} {N : JsNumber num}
  (pow : num -> nat -> num) (m : LegacyReconnection.Manager num)
  (script script' : list LegacyReconnection.Round) :
  let m' := LegacyReconnection.start pow script m in
  LegacyReconnection.active m = false ->
  LegacyReconnection.maxAttempts (LegacyReconnection.options m) = Some 0 \/
  hd_error script = Some LegacyReconnection.AlreadyConnected ->
  LegacyReconnection.active m' = true /\
  LegacyReconnection.effects m' = LegacyReconnection.effects m /\
  LegacyReconnection.timeoutId m' = LegacyReconnection.timeoutId m /\
  LegacyReconnection.start pow script' m' = m'.
Proof.
  intros m' Hact Hwhy.
  assert (Hm' : m' = LegacyReconnection.set_attempts 0
                       (LegacyReconnection.set_active true m)).
  { subst m'. unfold LegacyReconnection.start. rewrite Hact.
    destruct Hwhy as [Hcap|Hhd].
    - destruct script as [|r rest]; cbn [LegacyReconnection.scheduleReconnect];
        unfold LegacyReconnection.canRetry;
        cbn [LegacyReconnection.options LegacyReconnection.set_attempts
             LegacyReconnection.set_active LegacyReconnection.active
             LegacyReconnection.attempts];
        rewrite Hcap; reflexivity.
    - destruct script as [|r rest]; [discriminate|].
      cbn in Hhd. injection Hhd as ->.
      cbn [LegacyReconnection.scheduleReconnect].
      destruct (negb _ || negb _); reflexivity. }
  rewrite Hm'. repeat split.
Qed.

(** X28 on a manager that may never retry. *)
Lemma legacy_start_stuck_witness :
  let pow := fun (x : Q) (n : nat) => Qpower x (Z.of_nat n) in
  let m := LegacyReconnection.new
             (LegacyReconnection.mkOptions 1000%Q (Some 0) (3 # 2)%Q) in
  LegacyReconnection.active m = false /\
  LegacyReconnection.active
    (LegacyReconnection.start pow [LegacyReconnection.Attempt
                                     LegacyReconnection.Connects] m) = true.
Proof.
  intros pow m. split; [reflexivity|].
  exact (proj1 (legacy_start_stuck pow m
                  [LegacyReconnection.Attempt LegacyReconnection.Connects] []
                  eq_refl (or_introl eq_refl))).
Defined.

(** ** The life cycle of the connection *)

Lemma cancel_each_ws reason rs : forall s,
  ws (fst (cancel_each reason rs s)) = ws s.
Proof.
  induction rs as [|r rs IH]; intros s; cbn [cancel_each]; [reflexivity|].
  unfold Request_cancel. destruct (armed r); [|reflexivity].
  rewrite IH. reflexivity.
Qed.

Lemma cancelAll_ws reason s :
  ws (fst (RequestsManager_cancelAll reason s)) = ws s.
Proof.
  unfold RequestsManager_cancelAll.
  pose proof (cancel_each_ws reason (Map_values (pending (requests s))) s)
    as Hws.
  destruct (cancel_each reason (Map_values (pending (requests s))) s)
    as [s1 [e|]]; exact Hws.
Qed.

Section ClientFacts.
Import Client.

Lemma getAll_removeParam_same name q :
  getAllParams name (removeParam name q) = [].
Proof.
  induction q as [|[k v] q IH]; [reflexivity|].
  cbn [removeParam]. destruct (String.eqb k name) eqn:Hk; [exact IH|].
  unfold getAllParams in *. cbn [filter fst]. rewrite Hk. exact IH.
Qed.

Lemma getAll_removeParam_other name k q :
  String.eqb name k = false ->
  getAllParams k (removeParam name q) = getAllParams k q.
Proof.
  intros Hne. induction q as [|[k' v] q IH]; [reflexivity|].
  cbn [removeParam]. unfold getAllParams in *.
  destruct (String.eqb k' name) eqn:Hk; cbn [filter fst].
  - apply String.eqb_eq in Hk. subst k'. rewrite Hne. exact IH.
  - destruct (String.eqb k' k); cbn [map]; rewrite IH; reflexivity.
Qed.

Lemma getAll_setParam_same name value q :
  getAllParams name (setParam name value q) = [value].
Proof.
  induction q as [|[k v] q IH]; cbn [setParam].
  - unfold getAllParams. cbn. rewrite String.eqb_refl. reflexivity.
  - destruct (String.eqb k name) eqn:Hk.
    + unfold getAllParams. cbn [filter fst]. rewrite String.eqb_refl.
      cbn [map snd]. f_equal. apply getAll_removeParam_same.
    + unfold getAllParams in *. cbn [filter fst]. rewrite Hk. exact IH.
Qed.

Lemma getAll_setParam_other name value k q :
  String.eqb name k = false ->
  getAllParams k (setParam name value q) = getAllParams k q.
Proof.
  intros Hne. induction q as [|[k' v] q IH]; cbn [setParam].
  - unfold getAllParams. cbn. rewrite Hne. reflexivity.
  - destruct (String.eqb k' name) eqn:Hk.
    + apply String.eqb_eq in Hk. subst k'.
      unfold getAllParams. cbn [filter fst]. rewrite Hne.
      apply (getAll_removeParam_other name k q Hne).
    + unfold getAllParams in *. cbn [filter fst].
      destruct (String.eqb k' k); cbn [map]; rewrite IH; reflexivity.
Qed.

End ClientFacts.

(** X29.  A recovery token announced by the server reaches the next
    connection: when a notification of type [starling:token] whose [data]
    holds a non-empty string as [token] has been handled and the socket
    has closed, [connect] is not rejected, and the socket it creates is
    connecting to a URL whose query holds that token as its only
    [recover] parameter, every other parameter being as before. *)
Theorem recovery_token_handoff {num : Type} {N : JsNumber num}
  (pow : num -> nat -> num) (ToString : JsVal -> string)
  (c : Client.Client num) (w : WebSocket) (now : Z)
  (props dprops : list (string * JsVal)) (t : string)
  (sendScript : list bool) :
  let c1 := Client.frameArrives now (MNotification (JObj props)) c in
  let c2 := Client.socketCloses pow c1 in
  let c3 := fst (Client.connect ToString sendScript c2) in
  ws (Client.starling c) = Some w ->
  lookupProp "type" props = JStr "starling:token" ->
  lookupProp "data" props = JObj dprops ->
  lookupProp "token" dprops = JStr t ->
  t <> EmptyString ->
  snd (Client.connect ToString sendScript c2) = None /\
  ws (Client.starling c3) = Some (mkWebSocket CONNECTING [] sendScript) /\
  Client.opened c3 = Client.opened c ++ [Client.searchParams c3] /\
  Client.getAllParams "recover" (Client.searchParams c3) = [t] /\
  (forall k, String.eqb "recover" k = false ->
     Client.getAllParams k (Client.searchParams c3) =
     Client.getAllParams k (Client.searchParams c)).
Proof.
  intros c1 c2 c3 Hws Htype Hdata Htoken Ht.
  assert (Hs1 : Client.starling c1 =
                set_recoveryToken (JStr t)
                  (emit (MessageReceived "notification") (Client.starling c))).
  { subst c1. unfold Client.frameArrives, Starling_handleJsonMessage,
      Starling_handleNotification.
    cbn [Client.starling Client.set_starling messageType getProp].
    rewrite Htype. cbn [strictEqStr]. rewrite String.eqb_refl, Hdata.
    cbn [getProp]. rewrite Htoken. reflexivity. }
  assert (Hrest1 : Client.searchParams c1 = Client.searchParams c /\
                   Client.opened c1 = Client.opened c) by (split; reflexivity).
  destruct Hrest1 as (Hq1 & Ho1).
  assert (Hws1 : ws (Client.starling c1) = Some w)
    by (rewrite Hs1; exact Hws).
  assert (Htok1 : recoveryToken (Client.starling c1) = JStr t)
    by (rewrite Hs1; reflexivity).
  clearbody c1.
  assert (Hc2 : recoveryToken (Client.starling c2) = JStr t /\
                connected (Client.starling c2) = false /\
                Client.connecting (Client.starling c2) = false /\
                Client.searchParams c2 = Client.searchParams c /\
                Client.opened c2 = Client.opened c).
  { subst c2. unfold Client.socketCloses. rewrite Hws1.
    destruct (Client.onclose c1); cbn; rewrite Htok1, Hq1, Ho1;
      repeat split. }
  destruct Hc2 as (Htok2 & Hcon & Hing & Hq2 & Ho2).
  clearbody c2. subst c3. unfold Client.connect.
  rewrite Hcon, Hing, Htok2. cbn [orb truthy].
  assert (Hne : String.eqb t EmptyString = false)
    by (apply String.eqb_neq; exact Ht).
  rewrite Hne. cbn [negb fst snd Client.starling Client.opened
                    Client.searchParams Client.stringOf ws set_ws].
  rewrite Ho2, Hq2. repeat split.
  - apply getAll_setParam_same.
  - intros k Hk. apply getAll_setParam_other. exact Hk.
Qed.

(** X29 on a client whose URL carries an older token. *)
Lemma recovery_token_handoff_witness :
  let pow := fun (x : Q) (n : nat) => Qpower x (Z.of_nat n) in
  let w := mkWebSocket OPEN [] [] in
  let c := Client.set_starling (set_ws (Some w) Starling_new)
             (Client.new [("room", "7"); ("recover", "old")]
                Client.defaultClientOptions) in
  let props := [("type", JStr "starling:token");
                ("data", JObj [("token", JStr "fresh")])] in
  let c2 := Client.socketCloses pow
              (Client.frameArrives 10 (MNotification (JObj props)) c) in
  ws (Client.starling c) = Some w /\
  Client.getAllParams "recover"
    (Client.searchParams (fst (Client.connect (fun _ => EmptyString) [] c2))) =
    ["fresh"].
Proof.
  intros pow w c props c2.
  split; [reflexivity|].
  assert (Ht : "fresh" <> EmptyString) by discriminate.
  exact (proj1 (proj2 (proj2 (proj2
           (recovery_token_handoff pow (fun _ => EmptyString) c w 10 props
              [("token", JStr "fresh")] "fresh" [] eq_refl eq_refl eq_refl
              eq_refl Ht))))).
Defined.

(** X30.  A deliberate [disconnect] is final, a close by the peer is not.
    In any run with pairwise distinct UUIDs, [disconnect] on a client that
    holds a socket does not throw: it stops the reconnection manager,
    rejects every pending request once with the reason
    [Connection closed] and empties the table; when the socket then
    closes, the client drops it, emits no [starling:close] and leaves the
    reconnection manager stopped.  When a socket closes that was not
    disconnected, the client emits [starling:close] and, with the option
    [reconnect], starts the reconnection manager. *)
Theorem disconnect_is_final {num : Type} {N : JsNumber num}
  (pow : num -> nat -> num) (es : list ClientEvent) (c : Client.Client num)
  (w : WebSocket) :
  let s := Client.starling c in
  let c1 := fst (Client.disconnect c) in
  let c2 := Client.socketCloses pow c1 in
  let c' := Client.socketCloses pow c in
  NoDup (uuids es) ->
  s = client_run es Starling_new ->
  ws s = Some w ->
  snd (Client.disconnect c) = None /\
  settled (Client.starling c1) =
    settled s ++
    map (fun r => (id r, Reject (cancelError "Connection closed")))
      (Map_values (pending (requests s))) /\
  pending (requests (Client.starling c1)) = [] /\
  ws (Client.starling c1) = Some (Client.ws_close w) /\
  ws (Client.starling c2) = None /\
  Client.lifeEvents c2 = Client.lifeEvents c /\
  Client.reconnectionManager c2 =
    LegacyReconnection.stop (Client.reconnectionManager c) /\
  (Client.onclose c = Client.CloseOfConnect ->
   Client.lifeEvents c' = Client.lifeEvents c ++ [Client.StarlingClose] /\
   Client.reconnectionManager c' =
     if Client.reconnect c
     then LegacyReconnection.start pow [] (Client.reconnectionManager c)
     else Client.reconnectionManager c).
Proof.
  intros s c1 c2 c' Hnd Hs Hws.
  destruct (cancelAll_reachable es "Connection closed" Hnd)
    as (Hnone & Hsettled & Hpending & _).
  rewrite <- Hs in Hnone, Hsettled, Hpending.
  assert (Hws1 : ws (fst (RequestsManager_cancelAll "Connection closed" s)) =
                 ws s)
    by apply cancelAll_ws.
  subst c2 c1 c'. unfold Client.disconnect. fold s. rewrite Hws.
  destruct (RequestsManager_cancelAll "Connection closed" s) as [s1 thrown].
  cbn [fst snd] in *. subst thrown. cbn [fst snd Client.starling].
  rewrite Hws1, Hws.
  unfold Client.socketCloses. cbn [Client.starling Client.onclose ws set_ws].
  fold s. rewrite Hws.
  repeat split; try assumption;
    match goal with H : Client.onclose c = _ |- _ => rewrite H end;
    reflexivity.
Qed.

(** X30 on a client with one pending request. *)
Lemma disconnect_is_final_witness :
  let pow := fun (x : Q) (n : nat) => Qpower x (Z.of_nat n) in
  let w := mkWebSocket OPEN [] [] in
  let es := [EvRequest "u1" 5 "chat:send" JNull (mkRequestOptionsArg None None);
             EvSocket (Some w)] in
  let c := Client.set_starling (client_run es Starling_new)
             (Client.new [] Client.defaultClientOptions) in
  NoDup (uuids es) /\
  ws (Client.starling c) = Some w /\
  settled (Client.starling (fst (Client.disconnect c))) =
    [("u1", Reject (cancelError "Connection closed"))] /\
  ws (Client.starling
        (Client.socketCloses pow (fst (Client.disconnect c)))) = None.
Proof.
  intros pow w es c.
  assert (Hnd : NoDup (uuids es))
    by (constructor; [intros []|constructor]).
  assert (Hws : ws (Client.starling c) = Some w) by reflexivity.
  split; [exact Hnd|]. split; [exact Hws|].
  destruct (disconnect_is_final pow es c w Hnd eq_refl Hws)
    as (_ & Hs & _ & _ & Hn & _).
  split; [exact Hs|exact Hn].
Defined.
